(** * python-docx: simple types and paragraph borders

    A shallow embedding of [docx/oxml/simpletypes.py], [docx/oxml/text/border.py]
    and [docx/text/border.py], together with the Python built-ins these modules
    rely on ([int], [str], [float], [round], slicing, tuple membership).

    Python objects are the values of [pyval]; a raised exception is the [Raise]
    branch of [result].  Strings are ASCII strings, the built-ins are those of
    Python 3 ([round] rounds halves to even, [int / float] is a float
    division).  What lives in [docx/shared.py] and [docx/oxml/xmlchemy.py]
    (lengths, colours, attribute and child bindings) is modelled from the
    specification and marked as such. *)

From Stdlib Require Import ZArith QArith Qabs Qpower Qreduction Qcanon.
From Stdlib Require Import Lia Lqa Bool List.
From Stdlib Require Import Ascii String.
From Stdlib Require Import Strings.Byte.
From Stdlib Require Import PrimFloat SpecFloat FloatOps.
Import ListNotations.

Open Scope string_scope.
Open Scope Z_scope.

(** ** Exceptions and results *)

Inductive exn : Set :=
| TypeError
| ValueError
| KeyError
| OverflowError
| ZeroDivisionError
| AttributeError
| InvalidXmlError.

Inductive result (A : Type) : Type :=
| Ok (a : A)
| Raise (e : exn).

Arguments Ok {A} a.
Arguments Raise {A} e.

Definition bind {A B : Type} (m : result A) (k : A -> result B) : result B :=
  match m with
  | Ok a => k a
  | Raise e => Raise e
  end.

Declare Scope py_scope.
Delimit Scope py_scope with py.
Notation "x <- m ;; k" := (bind m (fun x => k))
  (at level 61, m at next level, right associativity) : py_scope.
Notation "m ;;; k" := (bind m (fun _ => k))
  (at level 61, right associativity) : py_scope.
Open Scope py_scope.

(** ** Python values *)

(** [RGBColor] is a 3-tuple of integers in 0..255. *)
Inductive RGBColor : Set :=
| RGB (r g b : byte).

Inductive pyval : Set :=
| PyNone
| PyBool (b : bool)
| PyInt (n : Z)
| PyStr (s : string)
| PyColor (c : RGBColor).

Definition Z_of_bool (b : bool) : Z := if b then 1 else 0.

Definition byte_eqb (x y : byte) : bool := Byte.eqb x y.

Definition RGBColor_eqb (x y : RGBColor) : bool :=
  match x, y with
  | RGB r g b, RGB r' g' b' => byte_eqb r r' && byte_eqb g g' && byte_eqb b b'
  end.

(** Python's [==]: [bool] is a subclass of [int], so [True == 1]. *)
Definition py_eq (x y : pyval) : bool :=
  match x, y with
  | PyNone, PyNone => true
  | PyBool a, PyBool b => Bool.eqb a b
  | PyBool a, PyInt n => Z_of_bool a =? n
  | PyInt n, PyBool b => n =? Z_of_bool b
  | PyInt n, PyInt m => n =? m
  | PyStr s, PyStr t => String.eqb s t
  | PyColor c, PyColor d => RGBColor_eqb c d
  | _, _ => false
  end.

(** [x in (a, b, ...)] on a tuple. *)
Definition py_in (x : pyval) (t : list pyval) : bool :=
  existsb (py_eq x) t.

(** [s in (a, b, ...)] where everything is a string. *)
Definition str_in (s : string) (t : list string) : bool :=
  existsb (String.eqb s) t.

(** [isinstance(value, int)]; [Length] and [bool] are subclasses of [int]. *)
Definition isinstance_int (v : pyval) : bool :=
  match v with
  | PyBool _ | PyInt _ => true
  | _ => false
  end.

(** ** Strings *)

(** [c in s] for a one-character [c]. *)
Fixpoint contains_char (c : ascii) (s : string) : bool :=
  match s with
  | EmptyString => false
  | String d r => Ascii.eqb c d || contains_char c r
  end.

(** [s[:-2]] and [s[-2:]]. *)
Definition slice_to_m2 (s : string) : string :=
  substring 0 (String.length s - 2) s.

Definition slice_from_m2 (s : string) : string :=
  substring (String.length s - 2) 2 s.

Definition is_space (c : ascii) : bool :=
  let n := nat_of_ascii c in
  ((9 <=? n) && (n <=? 13) || (28 <=? n) && (n <=? 32))%nat.

Fixpoint lstrip (s : string) : string :=
  match s with
  | String c r => if is_space c then lstrip r else s
  | EmptyString => EmptyString
  end.

Fixpoint rstrip (s : string) : string :=
  match s with
  | EmptyString => EmptyString
  | String c r =>
      match rstrip r with
      | EmptyString => if is_space c then EmptyString else String c EmptyString
      | r' => String c r'
      end
  end.

Definition strip (s : string) : string := rstrip (lstrip s).

Definition is_digit (c : ascii) : bool :=
  let n := nat_of_ascii c in ((48 <=? n) && (n <=? 57))%nat.

Definition digit_val (c : ascii) : Z := Z.of_nat (nat_of_ascii c) - 48.

Definition digit_char (d : Z) : ascii := ascii_of_nat (Z.to_nat (d + 48)).

(** A digit part: digits, optionally grouped by single underscores.  The
    accumulator carries the value read so far and the number of digits. *)
Fixpoint digitpart_tail (s : string) (acc : Z) (cnt : Z) : option (Z * Z) :=
  match s with
  | EmptyString => Some (acc, cnt)
  | String c r =>
      if is_digit c then digitpart_tail r (10 * acc + digit_val c) (cnt + 1)
      else if Ascii.eqb c "_" then
        match r with
        | String d r' =>
            if is_digit d
            then digitpart_tail r' (10 * acc + digit_val d) (cnt + 1)
            else None
        | EmptyString => None
        end
      else None
  end.

Definition digitpart (s : string) : option (Z * Z) :=
  match s with
  | String c _ => if is_digit c then digitpart_tail s 0 0 else None
  | EmptyString => None
  end.

(** Splits off a leading sign. *)
Definition split_sign (s : string) : bool * string :=
  match s with
  | String "-" r => (true, r)
  | String "+" r => (false, r)
  | _ => (false, s)
  end.

(** [int(s)] for a string [s]. *)
Definition py_int_of_str (s : string) : result Z :=
  let (neg, body) := split_sign (strip s) in
  match digitpart body with
  | Some (n, _) => Ok (if neg then - n else n)
  | None => Raise ValueError
  end.

Fixpoint digits_fuel (fuel : nat) (n : Z) (acc : string) : string :=
  match fuel with
  | O => acc
  | S f =>
      if n <? 10 then String (digit_char n) acc
      else digits_fuel f (n / 10) (String (digit_char (n mod 10)) acc)
  end.

Definition udec (n : Z) : string :=
  digits_fuel (S (Z.to_nat (Z.log2 n))) n "".

(** [str(n)] for an integer [n]. *)
Definition py_str_of_int (n : Z) : string :=
  if n <? 0 then String "-" (udec (- n)) else udec n.


(** ** Floats

    A Python [float] is an IEEE 754 binary64 number.  A finite float is kept
    as the rational it denotes; every operation computes the exact rational
    result and rounds it to the nearest binary64 number, ties to even
    ([RN]).  Signed zeros are not distinguished: no operation used here can
    tell them apart. *)

Inductive pyfloat : Set :=
| Fin (q : Q)
| Inf (neg : bool)
| NaN.

(** [z * 2^k] for [k >= 0], [z] otherwise. *)
Definition shl (z k : Z) : Z := z * 2 ^ Z.max 0 k.

(** The integer nearest to [n / d] ([d > 0]), ties to even. *)
Definition round_half_even (n d : Z) : Z :=
  let q := n / d in
  match 2 * (n mod d) ?= d with
  | Lt => q
  | Gt => q + 1
  | Eq => if Z.even q then q else q + 1
  end.

(** [floor (log2 (n / d))] for [n, d > 0]. *)
Definition flog2 (n d : Z) : Z :=
  let l := Z.log2 n - Z.log2 d in
  if shl d l <=? shl n (- l) then l else l - 1.

(** [m * 2^e] as a rational. *)
Definition scale2 (m e : Z) : Q :=
  inject_Z (shl m e) / inject_Z (shl 1 (- e)).

(** Exponent of the last place of the binary64 numbers around [n / d]:
    53 significant bits, smallest exponent -1074. *)
Definition ulp_exp (n d : Z) : Z := Z.max (flog2 n d - 52) (-1074).

(** Rounding of [n / d] for [n, d > 0], exponent range unbounded above. *)
Definition RN_pos (n d : Z) : Q :=
  let e := ulp_exp n d in
  scale2 (round_half_even (shl n (- e)) (shl d e)) e.

Definition overflows (q : Q) : bool := Qle_bool (inject_Z (2 ^ 1024)) q.

Definition RN (x : Q) : pyfloat :=
  match Qnum x with
  | 0 => Fin 0%Q
  | Zpos p =>
      let r := Qred (RN_pos (Zpos p) (Zpos (Qden x))) in
      if overflows r then Inf false else Fin r
  | Zneg p =>
      let r := Qred (RN_pos (Zpos p) (Zpos (Qden x))) in
      if overflows r then Inf true else Fin (- r)%Q
  end.

(** [float(n)] for an integer [n]. *)
Definition py_float_of_int (n : Z) : result pyfloat :=
  match RN (inject_Z n) with
  | Fin q => Ok (Fin q)
  | _ => Raise OverflowError
  end.

Definition Qsign_neg (q : Q) : bool := Qnum q <? 0.
Definition Qis_zero (q : Q) : bool := Qnum q =? 0.

(** [x * y] on floats. *)
Definition py_float_mul (x y : pyfloat) : pyfloat :=
  match x, y with
  | NaN, _ | _, NaN => NaN
  | Fin a, Fin b => RN (a * b)%Q
  | Inf s, Inf t => Inf (xorb s t)
  | Inf s, Fin b => if Qis_zero b then NaN else Inf (xorb s (Qsign_neg b))
  | Fin a, Inf t => if Qis_zero a then NaN else Inf (xorb (Qsign_neg a) t)
  end.

(** [x / y] on floats. *)
Definition py_float_div (x y : pyfloat) : result pyfloat :=
  match x, y with
  | _, Fin b =>
      if Qis_zero b then Raise ZeroDivisionError
      else match x with
           | Fin a => Ok (RN (a / b)%Q)
           | Inf s => Ok (Inf (xorb s (Qsign_neg b)))
           | NaN => Ok NaN
           end
  | NaN, _ | _, NaN => Ok NaN
  | Inf _, Inf _ => Ok NaN
  | Fin _, Inf _ => Ok (Fin 0%Q)
  end.

(** [int(x)] for a float [x]: truncation toward zero. *)
Definition py_int_of_float (x : pyfloat) : result Z :=
  match x with
  | Fin q => Ok (Z.quot (Qnum q) (Zpos (Qden q)))
  | Inf _ => Raise OverflowError
  | NaN => Raise ValueError
  end.

(** [round(x)] for a float [x] (Python 3): nearest integer, ties to even. *)
Definition py_round (x : pyfloat) : result Z :=
  match x with
  | Fin q => Ok (round_half_even (Qnum q) (Zpos (Qden q)))
  | Inf _ => Raise OverflowError
  | NaN => Raise ValueError
  end.

Definition lower (c : ascii) : ascii :=
  let n := nat_of_ascii c in
  if ((65 <=? n) && (n <=? 90))%nat then ascii_of_nat (n + 32) else c.

Fixpoint lower_str (s : string) : string :=
  match s with
  | EmptyString => EmptyString
  | String c r => String (lower c) (lower_str r)
  end.

(** Splits [s] at the first character satisfying [p]. *)
Fixpoint split_at (p : ascii -> bool) (s : string) : string * option string :=
  match s with
  | EmptyString => (EmptyString, None)
  | String c r =>
      if p c then (EmptyString, Some r)
      else let (a, b) := split_at p r in (String c a, b)
  end.

Definition pow10Q (e : Z) : Q :=
  if 0 <=? e then inject_Z (10 ^ e) else / inject_Z (10 ^ (- e)).

(** A digit part or nothing, as on either side of the decimal point. *)
Definition opt_digitpart (s : string) : option (Z * Z) :=
  match s with
  | EmptyString => Some (0, 0)
  | _ => digitpart s
  end.

(** Integer mantissa and number of fraction digits of
    [digitpart], [digitpart "." [digitpart]] or ["." digitpart]. *)
Definition parse_mantissa (s : string) : option (Z * Z) :=
  match split_at (Ascii.eqb ".") s with
  | (ip, None) => match digitpart ip with
                  | Some (n, _) => Some (n, 0)
                  | None => None
                  end
  | (ip, Some fp) =>
      match opt_digitpart ip, opt_digitpart fp with
      | Some (n, ci), Some (f, cf) =>
          if (ci =? 0) && (cf =? 0) then None
          else Some (n * 10 ^ cf + f, cf)
      | _, _ => None
      end
  end.

Definition parse_exponent (s : string) : option Z :=
  let (neg, body) := split_sign s in
  match digitpart body with
  | Some (n, _) => Some (if neg then - n else n)
  | None => None
  end.

(** Exact value of an unsigned decimal literal with optional exponent. *)
Definition decimal_magnitude (s : string) : option Q :=
  let (ms, es) := split_at (fun c => Ascii.eqb (lower c) "e") s in
  match parse_mantissa ms with
  | None => None
  | Some (m, k) =>
      match es with
      | None => Some (inject_Z m * pow10Q (- k))%Q
      | Some x => match parse_exponent x with
                  | Some e => Some (inject_Z m * pow10Q (e - k))%Q
                  | None => None
                  end
      end
  end.

(** Exact value of a signed decimal literal, surrounding blanks ignored. *)
Definition decimal_value (s : string) : option Q :=
  let (neg, body) := split_sign (strip s) in
  match decimal_magnitude body with
  | Some q => Some (if neg then - q else q)%Q
  | None => None
  end.

(** [float(s)] for a string [s]. *)
Definition py_float_of_str (s : string) : result pyfloat :=
  let (neg, body) := split_sign (strip s) in
  let w := lower_str body in
  if String.eqb w "inf" || String.eqb w "infinity" then Ok (Inf neg)
  else if String.eqb w "nan" then Ok NaN
  else match decimal_value s with
       | Some q => Ok (RN q)
       | None => Raise ValueError
       end.

(** ** docx.shared: lengths and colours *)

Definition float_of (n : Z) : pyfloat := Fin (inject_Z n).

(** [n / y] and [x * n] with an integer [n] and floats [x], [y]: the integer
    is converted to a float first. *)
Definition py_int_div_float (n : Z) (y : pyfloat) : result pyfloat :=
  x <- py_float_of_int n ;; py_float_div x y.

Definition py_float_mul_int (x : pyfloat) (n : Z) : result pyfloat :=
  y <- py_float_of_int n ;; Ok (py_float_mul x y).

(** [int(value)] for an arbitrary object, as [int.__new__] does it. *)
Definition py_int (value : pyval) : result Z :=
  match value with
  | PyBool b => Ok (Z_of_bool b)
  | PyInt n => Ok n
  | PyStr s => py_int_of_str s
  | PyNone | PyColor _ => Raise TypeError
  end.

Module Length.

(** Modelled from the spec: the conversion constants of [Length] in
    docx/shared.py, which is not among the sources.  The glossary fixes
    914400 EMU per inch and 1440 twips (a twentieth of a point) per inch,
    hence 72 points per inch; an inch is 2.54 cm. *)
Definition _EMUS_PER_INCH : Z := 914400.
Definition _EMUS_PER_CM : Z := 360000.
Definition _EMUS_PER_MM : Z := 36000.
Definition _EMUS_PER_PT : Z := 12700.
Definition _EMUS_PER_TWIP : Z := 635.

(** Modelled from the spec: EMU per eighth of a point, [12700 / 8]. *)
Definition _EMUS_PER_EIGHTH_PT : pyfloat := Fin (3175 # 2).

(** Modelled from the spec: the [pt] accessor of [Length] (docx/shared.py),
    the length in points as a float, [self / float(_EMUS_PER_PT)]. *)
Definition pt (self : Z) : result pyfloat :=
  py_int_div_float self (float_of _EMUS_PER_PT).

(** Modelled from the spec: the [twips] accessor of [Length]
    (docx/shared.py): converted to twips, then truncated toward zero. *)
Definition twips (self : Z) : result Z :=
  x <- py_int_div_float self (float_of _EMUS_PER_TWIP) ;; py_int_of_float x.

(** Modelled from the spec: the [eighths_of_point] accessor of [Length]
    (docx/shared.py): converted to eighths of a point, then truncated
    toward zero. *)
Definition eighths_of_point (self : Z) : result Z :=
  x <- py_int_div_float self _EMUS_PER_EIGHTH_PT ;; py_int_of_float x.

End Length.

(** Modelled from the spec: the [Length] constructors of docx/shared.py.
    [Emu(v)] is [int(v)]; the others take a count in their unit and give the
    length in EMU, truncated to an integer. *)
Definition Emu (emu : pyval) : result Z := py_int emu.

Definition Pt (points : Z) : Z := points * Length._EMUS_PER_PT.

Definition Pt_float (points : pyfloat) : result Z :=
  x <- py_float_mul_int points Length._EMUS_PER_PT ;; py_int_of_float x.

Definition Twips (twips : Z) : Z := twips * Length._EMUS_PER_TWIP.

Definition EighthsOfPoint (eop : Z) : result Z :=
  x <- py_float_of_int eop ;;
  py_int_of_float (py_float_mul x Length._EMUS_PER_EIGHTH_PT).

Definition hex_digit (n : N) : ascii :=
  ascii_of_N (if (n <? 10)%N then n + 48 else n + 55)%N.

Definition hex_val (c : ascii) : option N :=
  let n := N_of_ascii c in
  if ((48 <=? n) && (n <=? 57))%N then Some (n - 48)%N
  else if ((65 <=? n) && (n <=? 70))%N then Some (n - 55)%N
  else if ((97 <=? n) && (n <=? 102))%N then Some (n - 87)%N
  else None.

(** ['%02X' % b] *)
Definition hex2 (b : byte) : string :=
  let n := Byte.to_N b in
  String (hex_digit (n / 16)) (String (hex_digit (n mod 16)) EmptyString).

Definition parse_hex2 (hi lo : ascii) : option byte :=
  match hex_val hi, hex_val lo with
  | Some h, Some l => Byte.of_N (16 * h + l)
  | _, _ => None
  end.

(** ['%02X%02X%02X' % rgb] *)
Definition RGBColor_hex (c : RGBColor) : string :=
  match c with
  | RGB r g b => hex2 r ++ hex2 g ++ hex2 b
  end.

(** Modelled from the spec: [RGBColor.from_string] of docx/shared.py, which
    decodes a string of six hexadecimal digits and fails on anything else. *)
Definition RGBColor_from_string (rgb_hex_str : string) : result RGBColor :=
  match rgb_hex_str with
  | String r1 (String r2 (String g1 (String g2 (String b1 (String b2 EmptyString))))) =>
      match parse_hex2 r1 r2, parse_hex2 g1 g2, parse_hex2 b1 b2 with
      | Some r, Some g, Some b => Ok (RGB r g b)
      | _, _, _ => Raise ValueError
      end
  | _ => Raise ValueError
  end.

(** [str(value)] *)
Definition py_str (value : pyval) : string :=
  match value with
  | PyNone => "None"
  | PyBool true => "True"
  | PyBool false => "False"
  | PyInt n => py_str_of_int n
  | PyStr s => s
  | PyColor c => RGBColor_hex c
  end.

(** ** docx.oxml.simpletypes *)

Inductive simple_type : Set :=
| BaseSimpleType
| BaseIntType
| BaseStringType
| BaseStringEnumerationType
| XsdAnyUri
| XsdBoolean
| XsdId
| XsdInt
| XsdLong
| XsdString
| XsdStringEnumeration
| XsdToken
| XsdUnsignedInt
| XsdUnsignedLong
| ST_BrClear
| ST_BrType
| ST_Coordinate
| ST_CoordinateUnqualified
| ST_DecimalNumber
| ST_DrawingElementId
| ST_HexColor
| ST_HexColorAuto
| ST_HpsMeasure
| ST_PtsMeasure
| ST_Merge
| ST_OnOff
| ST_PositiveCoordinate
| ST_RelationshipId
| ST_SignedTwipsMeasure
| ST_String
| ST_TblLayoutType
| ST_TblWidth
| ST_TwipsMeasure
| ST_EighthsOfPointMeasure
| ST_UniversalMeasure
| ST_VerticalAlignRun
| ST_BorderValue.

Definition ST_HexColorAuto_AUTO : string := "auto".

Definition ST_BorderValue_members : list string :=
  ["apples"; "archedScallops"; "babyPacifier"; "babyRattle";
   "balloons3Colors"; "balloonsHotAir"; "basicBlackDashes";
   "basicBlackDots"; "basicBlackSquares"; "basicThinLines";
   "basicWhiteDashes"; "basicWhiteDots"; "basicWhiteSquares";
   "basicWideInline"; "basicWideMidline"; "basicWideOutline"; "bats";
   "birds"; "birdsFlight"; "cabins"; "cakeSlice"; "candyCorn";
   "celticKnotwork"; "certificateBanner"; "chainLink"; "champagneBottle";
   "checkedBarBlack"; "checkedBarColor"; "checkered"; "christmasTree";
   "circlesLines"; "circlesRectangles"; "classicalWave"; "clocks";
   "compass"; "confetti"; "confettiGrays"; "confettiOutline";
   "confettiStreamers"; "confettiWhite"; "cornerTriangles";
   "couponCutoutDashes"; "couponCutoutDots"; "crazyMaze";
   "creaturesButterfly"; "creaturesFish"; "creaturesInsects";
   "creaturesLadyBug"; "crossStitch"; "cup"; "dashDotStroked"; "dashed";
   "dashSmallGap"; "decoArch"; "decoArchColor"; "decoBlocks";
   "diamondsGray"; "dotDash"; "dotDotDash"; "dotted"; "double"; "doubleD";
   "doubleDiamonds"; "doubleWave"; "earth1"; "earth2"; "eclipsingSquares1";
   "eclipsingSquares2"; "eggsBlack"; "fans"; "film"; "firecrackers";
   "flowersBlockPrint"; "flowersDaisies"; "flowersModern1";
   "flowersModern2"; "flowersPansy"; "flowersRedRose"; "flowersRoses";
   "flowersTeacup"; "flowersTiny"; "gems"; "gingerbreadMan"; "gradient";
   "handmade1"; "handmade2"; "heartBalloon"; "heartGray"; "hearts";
   "heebieJeebies"; "holly"; "houseFunky"; "hypnotic"; "iceCreamCones";
   "inset"; "lightBulb"; "lightning1"; "lightning2"; "mapleLeaf";
   "mapleMuffins"; "mapPins"; "marquee"; "marqueeToothed"; "moons";
   "mosaic"; "musicNotes"; "nil"; "none"; "northwest"; "outset"; "ovals";
   "packages"; "palmsBlack"; "palmsColor"; "paperClips"; "papyrus";
   "partyFavor"; "partyGlass"; "pencils"; "people"; "peopleHats";
   "peopleWaving"; "poinsettias"; "postageStamp"; "pumpkin1";
   "pushPinNote1"; "pushPinNote2"; "pyramids"; "pyramidsAbove";
   "quadrants"; "rings"; "safari"; "sawtooth"; "sawtoothGray"; "scaredCat";
   "seattle"; "shadowedSquares"; "shapes1"; "shapes2"; "sharksTeeth";
   "shorebirdTracks"; "single"; "skyrocket"; "snowflakeFancy";
   "snowflakes"; "sombrero"; "southwest"; "stars"; "stars3d"; "starsBlack";
   "starsShadowed"; "starsTop"; "sun"; "swirligig"; "thick";
   "thickThinLargeGap"; "thickThinMediumGap"; "thickThinSmallGap";
   "thinThickLargeGap"; "thinThickMediumGap"; "thinThickSmallGap";
   "thinThickThinLargeGap"; "thinThickThinMediumGap";
   "thinThickThinSmallGap"; "threeDEmboss"; "threeDEngrave"; "tornPaper";
   "tornPaperBlack"; "trees"; "triangle1"; "triangle2"; "triangleCircle1";
   "triangleCircle2"; "triangleParty"; "triangles"; "tribal1"; "tribal2";
   "tribal3"; "tribal4"; "tribal5"; "tribal6"; "triple"; "twistedLines1";
   "twistedLines2"; "vine"; "wave"; "waveline"; "weavingAngles";
   "weavingBraid"; "weavingRibbon"; "weavingStrips"; "whiteFlowers";
   "woodwork"; "xIllusions"; "zanyTriangles"; "zigZag"; "zigZagStitch"].

(** The [_members] tuple of a string enumeration class. *)
Definition _members (cls : simple_type) : option (list string) :=
  match cls with
  | ST_HexColorAuto => Some [ST_HexColorAuto_AUTO]
  | ST_Merge => Some ["continue"; "restart"]
  | ST_VerticalAlignRun => Some ["baseline"; "superscript"; "subscript"]
  | ST_BorderValue => Some ST_BorderValue_members
  | _ => None
  end.

Definition validate_int (value : pyval) : result unit :=
  if negb (isinstance_int value) then Raise TypeError else Ok tt.

Definition validate_int_in_range (value : pyval) (min_inclusive max_inclusive : Z)
  : result unit :=
  validate_int value ;;;
  match value with
  | PyInt n =>
      if (n <? min_inclusive) || (n >? max_inclusive)
      then Raise ValueError else Ok tt
  | PyBool b =>
      if (Z_of_bool b <? min_inclusive) || (Z_of_bool b >? max_inclusive)
      then Raise ValueError else Ok tt
  | _ => Raise TypeError
  end.

Definition validate_string (value : pyval) : result pyval :=
  match value with
  | PyStr _ => Ok value
  | _ => Raise TypeError
  end.

(** [validate_string] followed by a membership test in a literal tuple. *)
Definition validate_string_in (value : pyval) (valid_values : list string)
  : result unit :=
  validate_string value ;;;
  if negb (py_in value (map PyStr valid_values)) then Raise ValueError
  else Ok tt.

Definition ST_UniversalMeasure_convert_from_xml (str_value : string)
  : result pyval :=
  let float_part := slice_to_m2 str_value in
  let units_part := slice_from_m2 str_value in
  quantity <- py_float_of_str float_part ;;
  multiplier <-
    (if String.eqb units_part "mm" then Ok Length._EMUS_PER_MM
     else if String.eqb units_part "cm" then Ok Length._EMUS_PER_CM
     else if String.eqb units_part "in" then Ok 914400
     else if String.eqb units_part "pt" then Ok Length._EMUS_PER_PT
     else if String.eqb units_part "pc" then Ok 152400
     else if String.eqb units_part "pi" then Ok 152400
     else Raise KeyError) ;;
  x <- py_float_mul_int quantity multiplier ;;
  r <- py_round x ;;
  emu_value <- Emu (PyInt r) ;;
  Ok (PyInt emu_value).

Definition convert_from_xml (cls : simple_type) (str_value : string)
  : result pyval :=
  match cls with
  | BaseSimpleType => Raise AttributeError
  | BaseIntType | XsdInt | XsdLong | XsdUnsignedInt | XsdUnsignedLong
  | ST_CoordinateUnqualified | ST_DecimalNumber | ST_DrawingElementId =>
      n <- py_int_of_str str_value ;; Ok (PyInt n)
  | BaseStringType | BaseStringEnumerationType | XsdAnyUri | XsdId
  | XsdString | XsdStringEnumeration | XsdToken | ST_BrClear | ST_BrType
  | ST_HexColorAuto | ST_Merge | ST_RelationshipId | ST_String
  | ST_TblLayoutType | ST_TblWidth | ST_VerticalAlignRun | ST_BorderValue =>
      Ok (PyStr str_value)
  | XsdBoolean =>
      if negb (str_in str_value ["1"; "0"; "true"; "false"])
      then Raise InvalidXmlError
      else Ok (PyBool (str_in str_value ["1"; "true"]))
  | ST_OnOff =>
      if negb (str_in str_value ["1"; "0"; "true"; "false"; "on"; "off"])
      then Raise InvalidXmlError
      else Ok (PyBool (str_in str_value ["1"; "true"; "on"]))
  | ST_Coordinate =>
      if contains_char "i" str_value || contains_char "m" str_value
         || contains_char "p" str_value
      then ST_UniversalMeasure_convert_from_xml str_value
      else n <- py_int_of_str str_value ;; e <- Emu (PyInt n) ;; Ok (PyInt e)
  | ST_HexColor =>
      if String.eqb str_value "auto" then Ok (PyStr ST_HexColorAuto_AUTO)
      else c <- RGBColor_from_string str_value ;; Ok (PyColor c)
  | ST_HpsMeasure =>
      if contains_char "m" str_value || contains_char "n" str_value
         || contains_char "p" str_value
      then ST_UniversalMeasure_convert_from_xml str_value
      else n <- py_int_of_str str_value ;;
           h <- py_int_div_float n (Fin 2) ;;
           e <- Pt_float h ;;
           Ok (PyInt e)
  | ST_PtsMeasure =>
      if contains_char "m" str_value || contains_char "n" str_value
         || contains_char "p" str_value
      then ST_UniversalMeasure_convert_from_xml str_value
      else n <- py_int_of_str str_value ;; Ok (PyInt (Pt n))
  | ST_PositiveCoordinate =>
      n <- py_int_of_str str_value ;; e <- Emu (PyInt n) ;; Ok (PyInt e)
  | ST_SignedTwipsMeasure | ST_TwipsMeasure =>
      if contains_char "i" str_value || contains_char "m" str_value
         || contains_char "p" str_value
      then ST_UniversalMeasure_convert_from_xml str_value
      else n <- py_int_of_str str_value ;; Ok (PyInt (Twips n))
  | ST_EighthsOfPointMeasure =>
      if contains_char "i" str_value || contains_char "m" str_value
         || contains_char "p" str_value
      then ST_UniversalMeasure_convert_from_xml str_value
      else n <- py_int_of_str str_value ;;
           e <- EighthsOfPoint n ;;
           Ok (PyInt e)
  | ST_UniversalMeasure => ST_UniversalMeasure_convert_from_xml str_value
  end.

Definition convert_to_xml (cls : simple_type) (value : pyval)
  : result pyval :=
  match cls with
  | BaseSimpleType | ST_UniversalMeasure => Raise AttributeError
  | BaseIntType | XsdInt | XsdLong | XsdUnsignedInt | XsdUnsignedLong
  | ST_Coordinate | ST_CoordinateUnqualified | ST_DecimalNumber
  | ST_DrawingElementId | ST_PositiveCoordinate =>
      Ok (PyStr (py_str value))
  | BaseStringType | BaseStringEnumerationType | XsdAnyUri | XsdId
  | XsdString | XsdStringEnumeration | XsdToken | ST_BrClear | ST_BrType
  | ST_HexColorAuto | ST_Merge | ST_RelationshipId | ST_String
  | ST_TblLayoutType | ST_TblWidth | ST_VerticalAlignRun | ST_BorderValue =>
      Ok value
  | XsdBoolean | ST_OnOff =>
      if py_eq value (PyBool true) then Ok (PyStr "1")
      else if py_eq value (PyBool false) then Ok (PyStr "0")
      else Raise KeyError
  | ST_HexColor =>
      match value with
      | PyColor c => Ok (PyStr (RGBColor_hex c))
      | _ => Raise TypeError
      end
  | ST_HpsMeasure =>
      emu <- Emu value ;;
      p <- Length.pt emu ;;
      x <- py_float_mul_int p 2 ;;
      half_points <- py_int_of_float x ;;
      Ok (PyStr (py_str_of_int half_points))
  | ST_PtsMeasure =>
      emu <- Emu value ;;
      p <- Length.pt emu ;;
      points <- py_int_of_float p ;;
      Ok (PyStr (py_str_of_int points))
  | ST_SignedTwipsMeasure | ST_TwipsMeasure =>
      emu <- Emu value ;;
      twips <- Length.twips emu ;;
      Ok (PyStr (py_str_of_int twips))
  | ST_EighthsOfPointMeasure =>
      emu <- Emu value ;;
      eop <- Length.eighths_of_point emu ;;
      Ok (PyStr (py_str_of_int eop))
  end.

Definition validate (cls : simple_type) (value : pyval) : result unit :=
  match cls with
  | BaseSimpleType | ST_UniversalMeasure => Raise AttributeError
  | BaseIntType => validate_int value
  | XsdInt | ST_DecimalNumber | ST_SignedTwipsMeasure =>
      validate_int_in_range value (-2147483648) 2147483647
  | XsdLong =>
      validate_int_in_range value (-9223372036854775808) 9223372036854775807
  | XsdUnsignedInt | ST_DrawingElementId =>
      validate_int_in_range value 0 4294967295
  | XsdUnsignedLong | ST_HpsMeasure | ST_PtsMeasure | ST_TwipsMeasure
  | ST_EighthsOfPointMeasure =>
      validate_int_in_range value 0 18446744073709551615
  | ST_Coordinate | ST_CoordinateUnqualified =>
      validate_int_in_range value (-27273042329600) 27273042316900
  | ST_PositiveCoordinate => validate_int_in_range value 0 27273042316900
  | BaseStringType | XsdAnyUri | XsdId | XsdString | XsdToken
  | ST_RelationshipId | ST_String =>
      validate_string value ;;; Ok tt
  | ST_BrClear => validate_string_in value ["none"; "left"; "right"; "all"]
  | ST_BrType => validate_string_in value ["page"; "column"; "textWrapping"]
  | ST_TblLayoutType => validate_string_in value ["fixed"; "autofit"]
  | ST_TblWidth => validate_string_in value ["auto"; "dxa"; "nil"; "pct"]
  | BaseStringEnumerationType | XsdStringEnumeration | ST_HexColorAuto
  | ST_Merge | ST_VerticalAlignRun | ST_BorderValue =>
      validate_string value ;;;
      match _members cls with
      | Some members =>
          if negb (py_in value (map PyStr members)) then Raise ValueError
          else Ok tt
      | None => Raise AttributeError
      end
  | ST_HexColor =>
      match value with
      | PyColor _ => Ok tt
      | _ => Raise ValueError
      end
  | XsdBoolean | ST_OnOff =>
      if negb (py_in value [PyBool true; PyBool false]) then Raise TypeError
      else Ok tt
  end.

Definition from_xml (cls : simple_type) (str_value : string) : result pyval :=
  convert_from_xml cls str_value.

Definition to_xml (cls : simple_type) (value : pyval) : result pyval :=
  validate cls value ;;;
  str_value <- convert_to_xml cls value ;;
  Ok str_value.

(** ** The element tree

    An element is a tag, its attributes in document order and its children
    in document order. *)

Inductive element : Type :=
| Element (tag : string) (attrib : list (string * string))
          (children : list element).

Definition tag (e : element) : string :=
  match e with Element t _ _ => t end.

Definition attrib (e : element) : list (string * string) :=
  match e with Element _ a _ => a end.

Definition children (e : element) : list element :=
  match e with Element _ _ c => c end.

Definition with_attrib (a : list (string * string)) (e : element) : element :=
  Element (tag e) a (children e).

Definition with_children (c : list element) (e : element) : element :=
  Element (tag e) (attrib e) c.

(** [obj.get(name)] *)
Fixpoint get_attribute (name : string) (a : list (string * string))
  : option string :=
  match a with
  | [] => None
  | (k, v) :: r => if String.eqb k name then Some v else get_attribute name r
  end.

(** [obj.set(name, text)]: an existing entry is overwritten in place, a new
    one is added at the end. *)
Fixpoint set_attribute (name text : string) (a : list (string * string))
  : list (string * string) :=
  match a with
  | [] => [(name, text)]
  | (k, v) :: r =>
      if String.eqb k name then (k, text) :: r
      else (k, v) :: set_attribute name text r
  end.

(** [del obj.attrib[name]] when the entry is there. *)
Fixpoint remove_attribute (name : string) (a : list (string * string))
  : list (string * string) :=
  match a with
  | [] => []
  | (k, v) :: r =>
      if String.eqb k name then r else (k, v) :: remove_attribute name r
  end.

(** The first child with the given tag. *)
Definition find_child (t : string) (e : element) : option element :=
  find (fun c => String.eqb (tag c) t) (children e).

(** Replaces the first child with the given tag by its image under [f]. *)
Fixpoint update_first (t : string) (f : element -> element)
  (l : list element) : list element :=
  match l with
  | [] => []
  | c :: r =>
      if String.eqb (tag c) t then f c :: r else c :: update_first t f r
  end.

Definition update_child (t : string) (f : element -> element) (e : element)
  : element :=
  with_children (update_first t f (children e)) e.

(** Modelled from the spec: the insertion rule of the child-presence binding
    (docx/oxml/xmlchemy.py is not among the sources): a new child goes
    immediately before the first existing sibling whose tag is later in the
    canonical ordering, at the end if there is none. *)
Fixpoint insert_element_before (child : element) (successors : list string)
  (l : list element) : list element :=
  match l with
  | [] => [child]
  | c :: r =>
      if str_in (tag c) successors then child :: c :: r
      else c :: insert_element_before child successors r
  end.

(** Modelled from the spec: the get-or-create accessor of a zero-or-one child
    (docx/oxml/xmlchemy.py): nothing changes when the child exists, a new
    empty child is inserted otherwise. *)
Definition get_or_add (t : string) (successors : list string) (e : element)
  : element :=
  match find_child t e with
  | Some _ => e
  | None =>
      with_children
        (insert_element_before (Element t [] []) successors (children e)) e
  end.

(** ** Attribute bindings (docx/oxml/text/border.py) *)

Inductive presence : Set := Required | Optional.

Record attribute : Set := mkAttribute {
  attr_presence : presence;
  attr_name : string;
  attr_type : simple_type
}.

Definition RequiredAttribute := mkAttribute Required.
Definition OptionalAttribute := mkAttribute Optional.

Module CT_BorderSide.
Definition val := RequiredAttribute "w:val" ST_BorderValue.
Definition sz := RequiredAttribute "w:sz" ST_EighthsOfPointMeasure.
Definition space := RequiredAttribute "w:space" ST_PtsMeasure.
Definition color := RequiredAttribute "w:color" ST_HexColor.
Definition shadow := OptionalAttribute "w:shadow" XsdBoolean.
End CT_BorderSide.

(** Modelled from the spec: reading a bound attribute
    (docx/oxml/xmlchemy.py).  An absent required attribute is an error, an
    absent optional one reads as [None]; otherwise the descriptor parses the
    text. *)
Definition attr_get (a : attribute) (obj : element) : result pyval :=
  match get_attribute (attr_name a) (attrib obj) with
  | None =>
      match attr_presence a with
      | Required => Raise InvalidXmlError
      | Optional => Ok PyNone
      end
  | Some str_value => from_xml (attr_type a) str_value
  end.

(** Modelled from the spec: writing a bound attribute
    (docx/oxml/xmlchemy.py).  The value is validated and rendered by the
    descriptor and the attribute set to the text; writing [None] to an
    optional attribute removes it. *)
Definition attr_set (a : attribute) (obj : element) (value : pyval)
  : result element :=
  match attr_presence a, value with
  | Optional, PyNone =>
      Ok (with_attrib (remove_attribute (attr_name a) (attrib obj)) obj)
  | _, _ =>
      r <- to_xml (attr_type a) value ;;
      match r with
      | PyStr str_value =>
          Ok (with_attrib (set_attribute (attr_name a) str_value (attrib obj))
                obj)
      | _ => Raise TypeError
      end
  end.

Module CT_PBdr.
Definition _tag_seq : list string := ["w:top"; "w:left"; "w:bottom"; "w:right"].
(** The successors declared for each [ZeroOrOne] child. *)
Definition successors (t : string) : list string :=
  if String.eqb t "w:top" then skipn 1 _tag_seq
  else if String.eqb t "w:left" then skipn 2 _tag_seq
  else if String.eqb t "w:bottom" then skipn 3 _tag_seq
  else skipn 4 _tag_seq.
End CT_PBdr.

(** ** Objects and state (docx/text/border.py)

    The paragraphs live in a store and are referred to by their index; a
    proxy holds the index of its element.  An operation of a proxy takes the
    state and gives back a value or an exception together with the state
    reached. *)

Record BorderSide : Set := mkBorderSide {
  _element : nat;
  _side : string
}.

(** The four slots of a [ParagraphBorder]; an unset slot is [None]. *)
Record ParagraphBorder : Set := mkParagraphBorder {
  pb_element : nat;
  _top : option BorderSide;
  _left : option BorderSide;
  _bottom : option BorderSide;
  _right : option BorderSide
}.

Record state : Type := mkState {
  elements : list element;
  facade : ParagraphBorder
}.

Inductive outcome (A : Type) : Type :=
| Return (a : A) (s : state)
| Throw (e : exn) (s : state).

Arguments Return {A} a s.
Arguments Throw {A} e s.

Definition M (A : Type) : Type := state -> outcome A.

Definition ret {A : Type} (a : A) : M A := fun s => Return a s.

Definition throw {A : Type} (e : exn) : M A := fun s => Throw e s.

Definition mbind {A B : Type} (m : M A) (k : A -> M B) : M B :=
  fun s =>
    match m s with
    | Return a s' => k a s'
    | Throw e s' => Throw e s'
    end.

Definition lift {A : Type} (r : result A) : M A :=
  match r with
  | Ok a => ret a
  | Raise e => throw e
  end.

Declare Scope m_scope.
Delimit Scope m_scope with M.
Notation "x <-- m ;; k" := (mbind m (fun x => k))
  (at level 61, m at next level, right associativity) : m_scope.
Notation "m >> k" := (mbind m (fun _ => k))
  (at level 61, right associativity) : m_scope.

Definition final_state {A : Type} (o : outcome A) : state :=
  match o with
  | Return _ s => s
  | Throw _ s => s
  end.

Definition get_element (i : nat) : M element :=
  fun s =>
    match nth_error (elements s) i with
    | Some e => Return e s
    | None => Throw AttributeError s
    end.

Fixpoint list_update {A : Type} (i : nat) (f : A -> A) (l : list A) : list A :=
  match l, i with
  | [], _ => []
  | x :: r, O => f x :: r
  | x :: r, S j => x :: list_update j f r
  end.

Definition modify_element (i : nat) (f : element -> element) : M unit :=
  fun s => Return tt (mkState (list_update i f (elements s)) (facade s)).

Definition get_facade : M ParagraphBorder :=
  fun s => Return (facade s) s.

Definition set_facade (pb : ParagraphBorder) : M unit :=
  fun s => Return tt (mkState (elements s) pb).

Definition side_tag (side : string) : result string :=
  if str_in side ["top"; "left"; "bottom"; "right"]
  then Ok ("w:" ++ side) else Raise AttributeError.

Section Border.

(** The tags declared as successors of [w:pPr] within a paragraph and of
    [w:pBdr] within [w:pPr]; the classes declaring them (CT_P, CT_PPr) are
    not among the sources. *)
Variable pPr_successors : list string.
Variable pBdr_successors : list string.

Open Scope m_scope.

(** *** BorderSide *)

Definition _get_side_element_from_pBdr (self : BorderSide) (pBdr : element)
  : result (option element) :=
  bind (side_tag (_side self)) (fun t => Ok (find_child t pBdr)).

Definition _get_side_element (self : BorderSide) : M (option element) :=
  p <-- get_element (_element self) ;;
  match find_child "w:pPr" p with
  | None => ret None
  | Some pPr =>
      match find_child "w:pBdr" pPr with
      | None => ret None
      | Some pBdr => lift (_get_side_element_from_pBdr self pBdr)
      end
  end.

Definition in_pBdr (f : element -> element) : element -> element :=
  update_child "w:pPr" (update_child "w:pBdr" f).

(** The side element is referred to by its tag below the paragraph's
    [w:pPr/w:pBdr].  [get_or_add_pPr] and [get_or_add_pBdr] always give an
    element, so the two tests for [None] in the source never fire. *)
Definition _get_or_add_side_element (self : BorderSide) : M string :=
  _ <-- get_element (_element self) ;;
  modify_element (_element self) (get_or_add "w:pPr" pPr_successors) >>
  modify_element (_element self)
    (update_child "w:pPr" (get_or_add "w:pBdr" pBdr_successors)) >>
  t <-- lift (side_tag (_side self)) ;;
  modify_element (_element self)
    (in_pBdr (get_or_add t (CT_PBdr.successors t))) >>
  ret t.

Definition side_element (i : nat) (t : string) : M element :=
  p <-- get_element i ;;
  match find_child "w:pPr" p with
  | None => throw AttributeError
  | Some pPr =>
      match find_child "w:pBdr" pPr with
      | None => throw AttributeError
      | Some pBdr =>
          match find_child t pBdr with
          | None => throw AttributeError
          | Some e => ret e
          end
      end
  end.

(** The common shape of the five property getters. *)
Definition BorderSide_get (a : attribute) (self : BorderSide) : M pyval :=
  side <-- _get_side_element self ;;
  match side with
  | None => ret PyNone
  | Some e => lift (attr_get a e)
  end.

(** The common shape of the five property setters. *)
Definition BorderSide_set (a : attribute) (self : BorderSide)
  (value : pyval) : M unit :=
  t <-- _get_or_add_side_element self ;;
  side <-- side_element (_element self) t ;;
  side' <-- lift (attr_set a side value) ;;
  modify_element (_element self) (in_pBdr (update_child t (fun _ => side'))).

Definition BorderSide_val := BorderSide_get CT_BorderSide.val.
Definition BorderSide_set_val := BorderSide_set CT_BorderSide.val.
Definition BorderSide_sz := BorderSide_get CT_BorderSide.sz.
Definition BorderSide_set_sz := BorderSide_set CT_BorderSide.sz.
Definition BorderSide_space := BorderSide_get CT_BorderSide.space.
Definition BorderSide_set_space := BorderSide_set CT_BorderSide.space.
Definition BorderSide_color := BorderSide_get CT_BorderSide.color.
Definition BorderSide_set_color := BorderSide_set CT_BorderSide.color.
Definition BorderSide_shadow := BorderSide_get CT_BorderSide.shadow.
Definition BorderSide_set_shadow := BorderSide_set CT_BorderSide.shadow.

(** *** ParagraphBorder *)

Definition slot (side : string) (pb : ParagraphBorder) : option BorderSide :=
  if String.eqb side "top" then _top pb
  else if String.eqb side "left" then _left pb
  else if String.eqb side "bottom" then _bottom pb
  else _right pb.

Definition set_slot (side : string) (b : BorderSide) (pb : ParagraphBorder)
  : ParagraphBorder :=
  if String.eqb side "top" then
    mkParagraphBorder (pb_element pb) (Some b) (_left pb) (_bottom pb) (_right pb)
  else if String.eqb side "left" then
    mkParagraphBorder (pb_element pb) (_top pb) (Some b) (_bottom pb) (_right pb)
  else if String.eqb side "bottom" then
    mkParagraphBorder (pb_element pb) (_top pb) (_left pb) (Some b) (_right pb)
  else
    mkParagraphBorder (pb_element pb) (_top pb) (_left pb) (_bottom pb) (Some b).

(** [self._side = BorderSide(self._element, side)] *)
Definition assign_slot (side : string) : M unit :=
  pb <-- get_facade ;;
  set_facade (set_slot side (mkBorderSide (pb_element pb) side) pb).

(** The four property getters have the same body up to the side. *)
Definition ParagraphBorder_get (side : string) : M (option BorderSide) :=
  pb <-- get_facade ;;
  match slot side pb with
  | Some b => ret (Some b)
  | None =>
      p <-- get_element (pb_element pb) ;;
      match find_child "w:pPr" p with
      | None => ret None
      | Some pPr =>
          match find_child "w:pBdr" pPr with
          | None => ret None
          | Some pBdr =>
              match find_child ("w:" ++ side) pBdr with
              | None => ret None
              | Some _ =>
                  assign_slot side >>
                  pb' <-- get_facade ;;
                  ret (slot side pb')
              end
          end
      end
  end.

Definition ParagraphBorder_top := ParagraphBorder_get "top".
Definition ParagraphBorder_left := ParagraphBorder_get "left".
Definition ParagraphBorder_bottom := ParagraphBorder_get "bottom".
Definition ParagraphBorder_right := ParagraphBorder_get "right".

(** The five assignments [target.x = side.x] of every setter. *)
Definition copy_side (target : option BorderSide) (side : BorderSide)
  : M unit :=
  match target with
  | None => throw AttributeError
  | Some target =>
      v <-- BorderSide_val side ;; BorderSide_set_val target v >>
      v <-- BorderSide_sz side ;; BorderSide_set_sz target v >>
      v <-- BorderSide_space side ;; BorderSide_set_space target v >>
      v <-- BorderSide_color side ;; BorderSide_set_color target v >>
      v <-- BorderSide_shadow side ;; BorderSide_set_shadow target v
  end.

Definition ParagraphBorder_set_top (side : BorderSide) : M unit :=
  t <-- ParagraphBorder_top ;;
  (match t with
   | None => assign_slot "top"
   | Some _ => ret tt
   end) >>
  top <-- ParagraphBorder_top ;;
  copy_side top side.

Definition ParagraphBorder_set_left (side : BorderSide) : M unit :=
  t <-- ParagraphBorder_left ;;
  match t with
  | None =>
      assign_slot "left" >>
      left <-- ParagraphBorder_left ;;
      copy_side left side
  | Some _ => ret tt
  end.

Definition ParagraphBorder_set_bottom (side : BorderSide) : M unit :=
  t <-- ParagraphBorder_bottom ;;
  (match t with
   | None => assign_slot "bottom"
   | Some _ => ret tt
   end) >>
  bottom <-- ParagraphBorder_bottom ;;
  copy_side bottom side.

Definition ParagraphBorder_set_right (side : BorderSide) : M unit :=
  t <-- ParagraphBorder_right ;;
  match t with
  | None =>
      assign_slot "right" >>
      right <-- ParagraphBorder_right ;;
      copy_side right side
  | Some _ => ret tt
  end.

End Border.

(** ** The statements under scrutiny, as predicates on a descriptor *)





(** The EMU-per-unit factor of a unit code. *)
Definition unit_factor (u : string) : option Z :=
  if String.eqb u "mm" then Some 36000
  else if String.eqb u "cm" then Some 360000
  else if String.eqb u "in" then Some 914400
  else if String.eqb u "pt" then Some 12700
  else if String.eqb u "pc" then Some 152400
  else if String.eqb u "pi" then Some 152400
  else None.

(** ** Auxiliary definitions for the properties *)

Definition no_space (s : string) : bool :=
  forallb (fun c => negb (is_space c)) (list_ascii_of_string s).

Fixpoint all_digits (s : string) : bool :=
  match s with
  | EmptyString => true
  | String c r => is_digit c && all_digits r
  end.

Definition p2 (e : Z) : Q := (2 ^ e)%Q.

(** What the validation of a descriptor checks on top of the type of the
    value. *)
Inductive validation_kind : Type :=
| NoValidate
| TypeOnly
| Color
| Enumeration (members : list string)
| Bounded (min_inclusive max_inclusive : Z).

Definition validation_of (cls : simple_type) : validation_kind :=
  match cls with
  | BaseSimpleType | ST_UniversalMeasure | BaseStringEnumerationType
  | XsdStringEnumeration => NoValidate
  | BaseIntType | BaseStringType | XsdAnyUri | XsdId | XsdString | XsdToken
  | ST_RelationshipId | ST_String | XsdBoolean | ST_OnOff => TypeOnly
  | ST_HexColor => Color
  | ST_BrClear => Enumeration ["none"; "left"; "right"; "all"]
  | ST_BrType => Enumeration ["page"; "column"; "textWrapping"]
  | ST_TblLayoutType => Enumeration ["fixed"; "autofit"]
  | ST_TblWidth => Enumeration ["auto"; "dxa"; "nil"; "pct"]
  | ST_HexColorAuto => Enumeration ["auto"]
  | ST_Merge => Enumeration ["continue"; "restart"]
  | ST_VerticalAlignRun => Enumeration ["baseline"; "superscript"; "subscript"]
  | ST_BorderValue => Enumeration ST_BorderValue_members
  | XsdInt | ST_DecimalNumber | ST_SignedTwipsMeasure =>
      Bounded (-2147483648) 2147483647
  | XsdLong => Bounded (-9223372036854775808) 9223372036854775807
  | XsdUnsignedInt | ST_DrawingElementId => Bounded 0 4294967295
  | XsdUnsignedLong | ST_HpsMeasure | ST_PtsMeasure | ST_TwipsMeasure
  | ST_EighthsOfPointMeasure => Bounded 0 18446744073709551615
  | ST_Coordinate | ST_CoordinateUnqualified =>
      Bounded (-27273042329600) 27273042316900
  | ST_PositiveCoordinate => Bounded 0 27273042316900
  end.


(** The paragraph after a first write to a side: the old children, in their
    order, and a new [w:pPr] holding a [w:pBdr] holding the side. *)
Definition with_new_side (p : element) (before after : list element)
  (side_el : element) : element :=
  Element (tag p) (attrib p)
    (before
     ++ Element "w:pPr" [] [Element "w:pBdr" [] [side_el]] :: after)%list.

(** A side element with its four required attributes. *)
Definition border_side_element (t val sz space color : string) : element :=
  Element t [("w:val", val); ("w:sz", sz); ("w:space", space);
             ("w:color", color)] [].

Definition paragraph_with_sides (sides : list element) : element :=
  Element "w:p" []
    [Element "w:pPr" [] [Element "w:pBdr" [] sides]; Element "w:r" [] []].

(** Paragraph 0 has four single-line red sides, paragraph 1 a double green
    top side, paragraph 2 no properties at all; the facade is on paragraph 0
    and has resolved no side yet. *)
Definition bordered_paragraphs : state :=
  mkState
    [paragraph_with_sides
       [border_side_element "w:top" "single" "8" "1" "FF0000";
        border_side_element "w:left" "single" "8" "1" "FF0000";
        border_side_element "w:bottom" "single" "8" "1" "FF0000";
        border_side_element "w:right" "single" "8" "1" "FF0000"];
     paragraph_with_sides
       [border_side_element "w:top" "double" "16" "2" "00FF00"];
     Element "w:p" [] [Element "w:r" [] []]]
    (mkParagraphBorder 0 None None None None).




(** The rational denoted by a primitive binary64 float, for comparing [RN]
    with the machine's arithmetic. *)
Definition float_value (x : PrimFloat.float) : option Q :=
  match Prim2SF x with
  | S754_zero _ => Some 0%Q
  | S754_finite s m e =>
      Some (Qred (if s then - scale2 (Zpos m) e else scale2 (Zpos m) e))
  | _ => None
  end.

(** ** Auxiliary definitions for the further properties *)

(** The keys of the multiplier table of [ST_UniversalMeasure]. *)
Definition unit_codes : list string := ["mm"; "cm"; "in"; "pt"; "pc"; "pi"].

(** The descriptors whose parser hands a text holding a unit letter over to
    [ST_UniversalMeasure]. *)
Definition measure_descriptors : list simple_type :=
  [ST_Coordinate; ST_HpsMeasure; ST_PtsMeasure; ST_SignedTwipsMeasure;
   ST_TwipsMeasure; ST_EighthsOfPointMeasure].

(** The descriptors that render with [BaseIntType.convert_to_xml]. *)
Definition integer_descriptors : list simple_type :=
  [BaseIntType; XsdInt; XsdLong; XsdUnsignedInt; XsdUnsignedLong;
   ST_Coordinate; ST_CoordinateUnqualified; ST_DecimalNumber;
   ST_DrawingElementId; ST_PositiveCoordinate].

(** The base class named in each [class] statement; [BaseSimpleType]
    derives from [object]. *)
Definition base (cls : simple_type) : option simple_type :=
  match cls with
  | BaseSimpleType => None
  | BaseIntType | BaseStringType | XsdBoolean | ST_UniversalMeasure =>
      Some BaseSimpleType
  | BaseStringEnumerationType | XsdAnyUri | XsdId | XsdString | XsdToken
  | ST_HexColor => Some BaseStringType
  | XsdInt | XsdLong | XsdUnsignedInt | XsdUnsignedLong | ST_Coordinate =>
      Some BaseIntType
  | XsdStringEnumeration => Some BaseStringEnumerationType
  | ST_BrClear | ST_BrType | ST_RelationshipId | ST_String
  | ST_TblLayoutType | ST_TblWidth => Some XsdString
  | ST_CoordinateUnqualified | ST_PositiveCoordinate => Some XsdLong
  | ST_DecimalNumber | ST_SignedTwipsMeasure => Some XsdInt
  | ST_DrawingElementId => Some XsdUnsignedInt
  | ST_HexColorAuto | ST_Merge | ST_VerticalAlignRun | ST_BorderValue =>
      Some XsdStringEnumeration
  | ST_HpsMeasure | ST_PtsMeasure | ST_TwipsMeasure
  | ST_EighthsOfPointMeasure => Some XsdUnsignedLong
  | ST_OnOff => Some XsdBoolean
  end.

(** A class that cannot validate anything: it has no [validate] of its own
    or lacks the [_members] its [validate] reads. *)
Definition abstract (cls : simple_type) : bool :=
  match cls with
  | BaseSimpleType | BaseStringEnumerationType | XsdStringEnumeration
  | ST_UniversalMeasure => true
  | _ => false
  end.

(** A digit or a capital letter from A to F. *)
Definition is_upper_hex (c : ascii) : bool :=
  let n := nat_of_ascii c in
  ((48 <=? n) && (n <=? 57) || (65 <=? n) && (n <=? 70))%nat.

Fixpoint all_upper_hex (s : string) : bool :=
  match s with
  | EmptyString => true
  | String c r => is_upper_hex c && all_upper_hex r
  end.

(** The [w:pBdr] element of a paragraph and the element of a side in it,
    by the path [w:pPr/w:pBdr/<side>] that [_get_side_element] walks. *)
Definition read_pBdr (p : element) : option element :=
  match find_child "w:pPr" p with
  | None => None
  | Some pPr => find_child "w:pBdr" pPr
  end.

Definition read_side (t : string) (p : element) : option element :=
  match read_pBdr p with
  | None => None
  | Some pBdr => find_child t pBdr
  end.

(** The paragraph as [_get_or_add_side_element] leaves it. *)
Definition ensure_side (pPr_successors pBdr_successors : list string)
  (t : string) (p : element) : element :=
  in_pBdr (get_or_add t (CT_PBdr.successors t))
    (update_child "w:pPr" (get_or_add "w:pBdr" pBdr_successors)
       (get_or_add "w:pPr" pPr_successors p)).

(** The first child with the given tag, or the empty element that
    [get_or_add] would insert. *)
Definition existing_or_new (t : string) (e : element) : element :=
  match find_child t e with
  | Some c => c
  | None => Element t [] []
  end.

(** The [w:pBdr] and the side element of a paragraph that has been through
    [_get_or_add_side_element]: the ones that were there, or new empty
    ones. *)
Definition pBdr_after_ensure (p : element) : element :=
  existing_or_new "w:pBdr" (existing_or_new "w:pPr" p).

Definition side_after_ensure (t : string) (p : element) : element :=
  existing_or_new t (pBdr_after_ensure p).

(** The paragraph with the element of side [t] replaced by [side]. *)
Definition put_side (t : string) (side : element) (p : element) : element :=
  in_pBdr (update_child t (fun _ => side)) p.

(** The value or exception of an outcome, without the state. *)
Definition value_of {A : Type} (o : outcome A) : result A :=
  match o with
  | Return a _ => Ok a
  | Throw e _ => Raise e
  end.

(** The state with paragraph [i] replaced. *)
Definition with_paragraph (i : nat) (p : element) (s : state) : state :=
  mkState (list_update i (fun _ => p) (elements s)) (facade s).

(** The four sides and the five properties of a side. *)
Definition border_sides : list string := ["top"; "left"; "bottom"; "right"].

Definition side_attributes : list attribute :=
  [CT_BorderSide.val; CT_BorderSide.sz; CT_BorderSide.space;
   CT_BorderSide.color; CT_BorderSide.shadow].

(** The children of an element whose tag is not [t], in their order. *)
Definition other_children (t : string) (e : element) : list element :=
  filter (fun c => negb (String.eqb (tag c) t)) (children e).

(** The tags of [l], in their order, are picked from [seq] in its order,
    each at most once. *)
Fixpoint tags_follow (seq : list string) (l : list element) : bool :=
  match seq with
  | [] => match l with [] => true | _ :: _ => false end
  | t :: seq' =>
      match l with
      | [] => true
      | c :: r =>
          if String.eqb (tag c) t then tags_follow seq' r
          else tags_follow seq' l
      end
  end.

(** The sides below the [w:pBdr] of a paragraph, if it has one, follow
    [_tag_seq]. *)
Definition borders_in_order (p : element) : bool :=
  match read_pBdr p with
  | None => true
  | Some pBdr => tags_follow CT_PBdr._tag_seq (children pBdr)
  end.

(** The state once the facade has put a new proxy into the slot of a
    side. *)
Definition with_slot (side : string) (s : state) : state :=
  mkState (elements s)
    (set_slot side (mkBorderSide (pb_element (facade s)) side) (facade s)).

(** What reading property [a] through the proxy [self] gives in state [s]:
    the value or the exception. *)
Definition reads_as (a : attribute) (self : BorderSide) (s : state)
  : result pyval :=
  value_of (BorderSide_get a self s).

(** The attribute names of the element of side [t] of [p], if there is one,
    are distinct. *)
Definition side_well_formed (t : string) (p : element) : Prop :=
  forall c, read_side t p = Some c -> NoDup (map fst (attrib c)).

(** Property [a] of [target] in [s'] is the rendering of what [source] had in
    [s], parsed back; an absent shadow is copied as absent. *)
Definition property_copied (a : attribute) (source target : BorderSide)
  (s s' : state) : Prop :=
  exists v,
    BorderSide_get a source s = Return v s
    /\ ((exists text,
            to_xml (attr_type a) v = Ok (PyStr text)
            /\ reads_as a target s' = from_xml (attr_type a) text)
        \/ (attr_presence a = Optional /\ v = PyNone
            /\ reads_as a target s' = Ok PyNone)).

(** An operation that leaves the facade as it finds it, whether it returns
    or raises. *)
Definition keeps_facade {A : Type} (m : M A) : Prop :=
  forall s, facade (final_state (m s)) = facade s.

(** * Properties *)

(** ** Strings and integers *)

Lemma lstrip_no_space s : no_space s = true -> lstrip s = s.
Proof.
  destruct s as [|c r]; [reflexivity|].
  unfold no_space; simpl. intros H; apply andb_true_iff in H as [H _].
  destruct (is_space c); [discriminate|reflexivity].
Qed.

Lemma rstrip_no_space s : no_space s = true -> rstrip s = s.
Proof.
  induction s as [|c r IH]; [reflexivity|].
  unfold no_space; simpl. intros H; apply andb_true_iff in H as [Hc Hr].
  rewrite (IH Hr). destruct r; [|reflexivity].
  destruct (is_space c); [discriminate|reflexivity].
Qed.

Lemma strip_no_space s : no_space s = true -> strip s = s.
Proof.
  intros H. unfold strip. rewrite (lstrip_no_space _ H).
  now apply rstrip_no_space.
Qed.

Lemma is_digit_cases c :
  is_digit c = true ->
  In c ["0"; "1"; "2"; "3"; "4"; "5"; "6"; "7"; "8"; "9"]%char.
Proof.
  destruct c as [[] [] [] [] [] [] [] []]; vm_compute; intros H;
    try discriminate; tauto.
Qed.

Lemma is_digit_not_space c : is_digit c = true -> is_space c = false.
Proof.
  intros H; apply is_digit_cases in H; simpl in H.
  repeat (destruct H as [<-|H]; [reflexivity|]); contradiction.
Qed.

Lemma all_digits_no_space s : all_digits s = true -> no_space s = true.
Proof.
  induction s as [|c r IH]; [reflexivity|]. simpl.
  intros H; apply andb_true_iff in H as [Hc Hr].
  unfold no_space; simpl. rewrite (is_digit_not_space _ Hc). simpl.
  now apply IH.
Qed.

Lemma all_digits_contains c s :
  is_digit c = false -> all_digits s = true -> contains_char c s = false.
Proof.
  intros Hc. induction s as [|d r IH]; [reflexivity|]. simpl.
  intros H; apply andb_true_iff in H as [Hd Hr]. rewrite (IH Hr).
  destruct (Ascii.eqb_spec c d) as [->|]; [congruence|reflexivity].
Qed.

Lemma digit_char_is_digit d : 0 <= d < 10 -> is_digit (digit_char d) = true.
Proof.
  intros H.
  assert (d = 0 \/ d = 1 \/ d = 2 \/ d = 3 \/ d = 4 \/ d = 5 \/ d = 6
          \/ d = 7 \/ d = 8 \/ d = 9) as C by lia.
  repeat (destruct C as [->|C]; [reflexivity|]). now subst.
Qed.

Lemma digit_val_char d : 0 <= d < 10 -> digit_val (digit_char d) = d.
Proof.
  intros H.
  assert (d = 0 \/ d = 1 \/ d = 2 \/ d = 3 \/ d = 4 \/ d = 5 \/ d = 6
          \/ d = 7 \/ d = 8 \/ d = 9) as C by lia.
  repeat (destruct C as [->|C]; [reflexivity|]). now subst.
Qed.

Lemma digits_fuel_all_digits f : forall n acc,
  0 <= n -> all_digits acc = true -> all_digits (digits_fuel f n acc) = true.
Proof.
  induction f as [|f IH]; intros n acc Hn Hacc; simpl; [assumption|].
  destruct (Z.ltb_spec n 10).
  - simpl. rewrite digit_char_is_digit by lia. assumption.
  - apply IH; [apply Z.div_pos; lia|].
    simpl. rewrite digit_char_is_digit; [assumption|].
    apply Z.mod_pos_bound; lia.
Qed.

(** Reading back what [digits_fuel] wrote in front of [acc]. *)
Lemma digitpart_tail_digits_fuel f : forall n acc a c,
  0 <= n < 2 ^ Z.of_nat f ->
  exists k,
    digitpart_tail (digits_fuel f n acc) a c
    = digitpart_tail acc (a * 10 ^ k + n) (c + k) /\ 0 <= k /\
    (f <> O -> 0 < k).
Proof.
  induction f as [|f IH]; intros n acc a c Hn.
  - exists 0. simpl in *. replace n with 0 by lia.
    repeat split; try lia. f_equal; lia.
  - cbn [digits_fuel]. destruct (Z.ltb_spec n 10).
    + exists 1. cbn [digitpart_tail]. rewrite digit_char_is_digit by lia.
      rewrite digit_val_char by lia. repeat split; try lia. f_equal; lia.
    + rewrite Nat2Z.inj_succ, Z.pow_succ_r in Hn by lia.
      destruct (IH (n / 10) (String (digit_char (n mod 10)) acc) a c)
        as (k & E & Hk & _).
      { split; [apply Z.div_pos; lia|].
        apply Z.div_lt_upper_bound; lia. }
      exists (k + 1). rewrite E. cbn [digitpart_tail].
      pose proof (Z.mod_pos_bound n 10 ltac:(lia)).
      rewrite digit_char_is_digit, digit_val_char by assumption.
      repeat split; try lia. f_equal; [|lia].
      rewrite Z.pow_add_r, Z.pow_1_r by lia.
      pose proof (Z.div_mod n 10 ltac:(lia)). lia.
Qed.

Lemma udec_fuel n : 0 <= n -> 0 <= n < 2 ^ Z.of_nat (S (Z.to_nat (Z.log2 n))).
Proof.
  intros Hn. split; [assumption|].
  rewrite Nat2Z.inj_succ, Z2Nat.id by apply Z.log2_nonneg.
  destruct (Z.eq_dec n 0) as [->|]; [reflexivity|].
  apply Z.log2_spec; lia.
Qed.

Lemma udec_all_digits n : 0 <= n -> all_digits (udec n) = true.
Proof. intros; now apply digits_fuel_all_digits. Qed.

Lemma udec_head n : 0 <= n ->
  exists c r, udec n = String c r /\ is_digit c = true.
Proof.
  intros Hn. pose proof (udec_all_digits n Hn) as A.
  destruct (digitpart_tail_digits_fuel _ n "" 0 0 (udec_fuel n Hn))
    as (k & E & _ & Hk).
  fold (udec n) in E. destruct (udec n) as [|c r] eqn:U.
  - simpl in E. injection E as _ E. specialize (Hk ltac:(discriminate)). lia.
  - simpl in A. apply andb_true_iff in A as [A _]. now exists c, r.
Qed.

Lemma digitpart_udec n : 0 <= n -> exists k, digitpart (udec n) = Some (n, k).
Proof.
  intros Hn. destruct (udec_head n Hn) as (c & r & U & Hc).
  destruct (digitpart_tail_digits_fuel _ n "" 0 0 (udec_fuel n Hn))
    as (k & E & _).
  fold (udec n) in E. exists k. unfold digitpart. rewrite U, Hc, <- U, E.
  simpl. f_equal.
Qed.

Lemma py_str_of_int_no_space n : no_space (py_str_of_int n) = true.
Proof.
  unfold py_str_of_int. destruct (Z.ltb_spec n 0).
  - unfold no_space. simpl. fold (no_space (udec (- n))).
    apply all_digits_no_space, udec_all_digits; lia.
  - apply all_digits_no_space, udec_all_digits; lia.
Qed.

(** [int(str(n)) == n] *)
Lemma py_int_of_str_of_int n : py_int_of_str (py_str_of_int n) = Ok n.
Proof.
  unfold py_int_of_str. rewrite strip_no_space by apply py_str_of_int_no_space.
  unfold py_str_of_int. destruct (Z.ltb_spec n 0).
  - simpl. destruct (digitpart_udec (- n)) as (k & ->); [lia|].
    f_equal; lia.
  - destruct (udec_head n H) as (c & r & U & Hc).
    destruct (digitpart_udec n H) as (k & D).
    assert (split_sign (udec n) = (false, udec n)) as ->.
    { rewrite U. apply is_digit_cases in Hc. simpl in Hc.
      repeat (destruct Hc as [<-|Hc]; [reflexivity|]). contradiction. }
    now rewrite D.
Qed.

Lemma py_str_of_int_contains c n :
  is_digit c = false -> c <> "-"%char ->
  contains_char c (py_str_of_int n) = false.
Proof.
  intros Hc Hm. unfold py_str_of_int. destruct (Z.ltb_spec n 0).
  - simpl. destruct (Ascii.eqb_spec c "-"); [contradiction|]. simpl.
    apply all_digits_contains; [assumption|apply udec_all_digits; lia].
  - apply all_digits_contains; [assumption|now apply udec_all_digits].
Qed.

(** ** Rounding to binary64 *)

Lemma p2_pos e : (0 < p2 e)%Q.
Proof. apply Qpower_0_lt. reflexivity. Qed.

Lemma p2_add a b : (p2 (a + b) == p2 a * p2 b)%Q.
Proof. apply Qpower_plus. discriminate. Qed.

Lemma p2_succ a : (p2 (a + 1) == 2 * p2 a)%Q.
Proof. rewrite p2_add. unfold p2 at 2. simpl. ring. Qed.

Lemma p2_le a b : a <= b -> (p2 a <= p2 b)%Q.
Proof. intros H. apply Qpower_le_compat_l; [assumption|discriminate]. Qed.

Lemma p2_inject k : 0 <= k -> (inject_Z (2 ^ k) == p2 k)%Q.
Proof. intros H. now rewrite Zpower_Qpower. Qed.

Lemma inject_shl z k : (inject_Z (shl z k) == inject_Z z * p2 (Z.max 0 k))%Q.
Proof. unfold shl. rewrite inject_Z_mult, p2_inject by lia. reflexivity. Qed.

Lemma p2_max_split e : (p2 (Z.max 0 e) == p2 e * p2 (Z.max 0 (- e)))%Q.
Proof.
  rewrite <- p2_add. destruct (Z.le_ge_cases 0 e).
  - rewrite !Z.max_r, Z.max_l by lia. now rewrite Z.add_0_r.
  - rewrite Z.max_l, Z.max_r by lia. now replace (e + - e) with 0 by lia.
Qed.

Lemma scale2_spec m e : (scale2 m e == inject_Z m * p2 e)%Q.
Proof.
  unfold scale2. rewrite !inject_shl, (p2_max_split e).
  pose proof (p2_pos (Z.max 0 (- e))).
  field. intros E. rewrite E in H. now apply Qlt_irrefl in H.
Qed.

Lemma round_half_even_bound n d :
  0 < d -> - d <= 2 * (round_half_even n d * d - n) <= d.
Proof.
  intros Hd. unfold round_half_even.
  pose proof (Z.div_mod n d ltac:(lia)).
  pose proof (Z.mod_pos_bound n d Hd).
  destruct (Z.compare_spec (2 * (n mod d)) d); [destruct (Z.even _)|..]; nia.
Qed.

Lemma round_half_even_exact k d : 0 < d -> round_half_even (k * d) d = k.
Proof.
  intros Hd. unfold round_half_even.
  rewrite Z.div_mul, Z.mod_mul by lia.
  destruct (Z.compare_spec (2 * 0) d); try lia.
Qed.

(** The scaled numerator and denominator keep the ratio, up to [2^-e]. *)
Lemma shl_ratio n d e :
  (inject_Z (shl n (- e)) * inject_Z d
   == inject_Z n * p2 (- e) * inject_Z (shl d e))%Q.
Proof.
  rewrite !inject_shl.
  rewrite (p2_max_split (- e)), Z.opp_involutive. ring.
Qed.

Lemma shl_pos z k : 0 < z -> 0 < shl z k.
Proof. intros H. unfold shl. apply Z.mul_pos_pos; [assumption|]. apply Z.pow_pos_nonneg; lia. Qed.

Lemma inject_pos z : 0 < z -> (0 < inject_Z z)%Q.
Proof. intros H. unfold Qlt. simpl. lia. Qed.

Lemma log2_bounds n :
  0 < n -> (p2 (Z.log2 n) <= inject_Z n /\ inject_Z n < 2 * p2 (Z.log2 n))%Q.
Proof.
  intros Hn. destruct (Z.log2_spec n Hn) as [L U].
  pose proof (Z.log2_nonneg n).
  rewrite <- p2_succ, <- !p2_inject by lia.
  rewrite <- Zle_Qle, <- Zlt_Qlt. replace (Z.log2 n + 1) with (Z.succ (Z.log2 n)) by lia.
  now split.
Qed.

(** [flog2] brackets the ratio between consecutive powers of two. *)
Lemma flog2_spec n d :
  0 < n -> 0 < d ->
  (p2 (flog2 n d) * inject_Z d <= inject_Z n
   /\ inject_Z n < 2 * p2 (flog2 n d) * inject_Z d)%Q.
Proof.
  intros Hn Hd. unfold flog2.
  destruct (log2_bounds n Hn) as [Ln Un], (log2_bounds d Hd) as [Ld Ud].
  set (l := Z.log2 n - Z.log2 d).
  assert (p2 (Z.log2 n) == p2 l * p2 (Z.log2 d))%Q as E.
  { rewrite <- p2_add. unfold l. now replace (Z.log2 n - Z.log2 d + Z.log2 d) with (Z.log2 n) by lia. }
  pose proof (p2_pos l) as Pl. pose proof (p2_pos (Z.log2 d)) as Pd.
  pose proof (p2_pos (Z.max 0 (- l))) as Pm.
  pose proof (inject_pos d Hd) as Dpos.
  pose proof (inject_pos n Hn) as Npos.
  destruct (Z.leb_spec (shl d l) (shl n (- l))) as [T|T].
  - rewrite Zle_Qle, !inject_shl, (p2_max_split l) in T.
    split; [nra|]. nra.
  - rewrite Zlt_Qlt, !inject_shl, (p2_max_split l) in T.
    assert (p2 l == 2 * p2 (l - 1))%Q as E2.
    { rewrite <- p2_succ. now replace (l - 1 + 1) with l by lia. }
    pose proof (p2_pos (l - 1)).
    split; [nra|]. rewrite <- E2. nra.
Qed.

Lemma ulp_exp_cases n d :
  ulp_exp n d = flog2 n d - 52 /\ -1074 <= flog2 n d - 52
  \/ ulp_exp n d = -1074 /\ flog2 n d - 52 <= -1074.
Proof. unfold ulp_exp. lia. Qed.

Lemma p2_cancel e : (p2 e * p2 (- e) == 1)%Q.
Proof. rewrite <- p2_add. now replace (e + - e) with 0 by lia. Qed.

Lemma round_half_even_bound_Q n d :
  0 < d ->
  (- inject_Z d <= 2 * (inject_Z (round_half_even n d) * inject_Z d - inject_Z n)
   /\ 2 * (inject_Z (round_half_even n d) * inject_Z d - inject_Z n) <= inject_Z d)%Q.
Proof.
  intros Hd. destruct (round_half_even_bound n d Hd) as [L U].
  rewrite Zle_Qle in L, U.
  rewrite inject_Z_opp in L.
  unfold Z.sub in L, U. rewrite inject_Z_mult, inject_Z_plus, inject_Z_opp, inject_Z_mult in L, U.
  change (inject_Z 2) with 2%Q in *. split; lra.
Qed.

(** The rounded value is within half a unit in the last place. *)
Lemma RN_pos_half_ulp n d :
  0 < n -> 0 < d ->
  (Qabs (RN_pos n d * inject_Z d - inject_Z n)
   <= p2 (ulp_exp n d) * inject_Z d * (1 # 2))%Q.
Proof.
  intros Hn Hd. unfold RN_pos. set (e := ulp_exp n d).
  rewrite scale2_spec.
  pose proof (round_half_even_bound_Q (shl n (- e)) (shl d e) (shl_pos d e Hd)) as [L U].
  set (r := round_half_even (shl n (- e)) (shl d e)) in *.
  pose proof (shl_ratio n d e) as R.
  pose proof (inject_pos _ (shl_pos d e Hd)) as D'pos.
  pose proof (inject_pos d Hd) as Dpos.
  pose proof (p2_pos e) as Pe. pose proof (p2_pos (- e)) as Pme.
  pose proof (p2_cancel e) as C.
  set (D' := inject_Z (shl d e)) in *. set (N' := inject_Z (shl n (- e))) in *.
  set (a := p2 e) in *. set (b := p2 (- e)) in *.
  set (qd := inject_Z d) in *. set (qn := inject_Z n) in *.
  set (qr := inject_Z r) in *.
  assert (- qd <= 2 * (qr * qd - qn * b) /\ 2 * (qr * qd - qn * b) <= qd)%Q as [L1 U1].
  { assert (- (D' * qd) <= 2 * (qr * qd - qn * b) * D'
            /\ 2 * (qr * qd - qn * b) * D' <= D' * qd)%Q as [L0 U0].
    { assert (2 * (qr * qd - qn * b) * D' == (2 * (qr * D' - N')) * qd)%Q as ->.
      { transitivity (2 * (qr * D' * qd - N' * qd))%Q; [rewrite R|]; ring. }
      split; nra. }
    split; nra. }
  apply Qabs_Qle_condition.
  assert (qr * a * qd - qn == a * (qr * qd - qn * b))%Q as ->.
  { transitivity (a * qr * qd - qn * (a * b))%Q; [rewrite C|]; ring. }
  split; nra.
Qed.

(** Relative form: half an ulp is at most [2^-53] of the value, or [2^-1075]. *)
Lemma RN_pos_error n d :
  0 < n -> 0 < d ->
  (Qabs (RN_pos n d * inject_Z d - inject_Z n)
   <= inject_Z n * p2 (-53) + inject_Z d * p2 (-1075))%Q.
Proof.
  intros Hn Hd. eapply Qle_trans; [apply RN_pos_half_ulp; assumption|].
  destruct (flog2_spec n d Hn Hd) as [L _].
  pose proof (inject_pos d Hd) as Dpos. pose proof (inject_pos n Hn) as Npos.
  pose proof (p2_pos (flog2 n d)) as Pf.
  assert (p2 (-53) == (1 # 2) * p2 (-52))%Q as E53 by reflexivity.
  assert (p2 (-1075) == (1 # 2) * p2 (-1074))%Q as E1075 by reflexivity.
  pose proof (p2_pos (-52)) as P52. pose proof (p2_pos (-1074)) as P1074.
  destruct (ulp_exp_cases n d) as [[-> _]|[-> _]].
  - assert (p2 (flog2 n d - 52) == p2 (flog2 n d) * p2 (-52))%Q as ->.
    { rewrite <- p2_add. reflexivity. }
    rewrite E53, E1075. nra.
  - rewrite E53, E1075. nra.
Qed.

(** A ratio that is a 53-bit multiple of a power of two in range is kept. *)
Lemma RN_pos_exact n d m g :
  0 < n -> 0 < d -> 0 < m < 2 ^ 53 -> -1074 <= g ->
  (inject_Z n == inject_Z m * p2 g * inject_Z d)%Q ->
  (RN_pos n d == inject_Z m * p2 g)%Q.
Proof.
  intros Hn Hd Hm Hg E. unfold RN_pos. set (e := ulp_exp n d).
  pose proof (inject_pos d Hd) as Dpos. pose proof (inject_pos n Hn) as Npos.
  assert (e <= g) as Heg.
  { destruct (flog2_spec n d Hn Hd) as [L _].
    assert (flog2 n d < 53 + g).
    { apply (Qpower_lt_compat_l_inv 2); [|reflexivity]. fold (p2 (flog2 n d)) (p2 (53 + g)).
      rewrite p2_add. pose proof (p2_pos g).
      assert (inject_Z m < p2 53)%Q.
      { rewrite <- p2_inject by lia. rewrite <- Zlt_Qlt. lia. }
      pose proof (p2_pos (flog2 n d)).
      assert (0 < p2 g * inject_Z d)%Q as T by (apply Qmult_lt_0_compat; assumption).
      rewrite E in L. set (t := (p2 g * inject_Z d)%Q) in *.
      assert (p2 (flog2 n d) * inject_Z d < p2 53 * t)%Q as A.
      { eapply Qle_lt_trans; [apply L|].
        setoid_replace (inject_Z m * p2 g * inject_Z d)%Q with (inject_Z m * t)%Q by (unfold t; ring).
        nra. }
      unfold t in A. nra. }
    unfold e. destruct (ulp_exp_cases n d) as [[-> _]|[-> _]]; lia. }
  set (K := m * 2 ^ (g - e)).
  assert (shl n (- e) = K * shl d e) as EZ.
  { apply inject_Z_injective. rewrite inject_Z_mult.
    pose proof (shl_ratio n d e) as R. rewrite E in R.
    unfold K. rewrite inject_Z_mult, p2_inject by lia.
    assert (p2 g * p2 (- e) == p2 (g - e))%Q as G by (rewrite <- p2_add; reflexivity).
    apply (Qmult_inj_r _ _ (inject_Z d)); [intros Z0; rewrite Z0 in Dpos; now apply Qlt_irrefl in Dpos|].
    rewrite R, <- G. ring. }
  rewrite EZ, round_half_even_exact by (now apply shl_pos).
  rewrite scale2_spec. unfold K. rewrite inject_Z_mult, p2_inject by lia.
  rewrite <- Qmult_assoc, <- p2_add. now replace (g - e + e) with g by lia.
Qed.

Lemma Q_as_ratio x : (inject_Z (Qnum x) == x * inject_Z (Zpos (Qden x)))%Q.
Proof.
  destruct x as [n d]. unfold Qeq, Qmult, inject_Z; simpl.
  rewrite Pos2Z.inj_mul. ring.
Qed.

Lemma overflows_small r : (r < inject_Z (2 ^ 1024))%Q -> overflows r = false.
Proof.
  intros H. unfold overflows. destruct (Qle_bool _ r) eqn:E; [|reflexivity].
  apply Qle_bool_imp_le in E. exfalso. eapply Qlt_irrefl, Qlt_le_trans; eassumption.
Qed.

(** A nonnegative 53-bit multiple of a power of two between [2^-1074] and 1
    is a float: rounding leaves it alone. *)
Lemma RN_exact x m g :
  0 <= m < 2 ^ 53 -> -1074 <= g <= 0 ->
  (x == inject_Z m * p2 g)%Q ->
  RN x = Fin (Qred x).
Proof.
  intros Hm Hg E. destruct x as [n d]. unfold RN. cbn [Qnum Qden].
  pose proof (Q_as_ratio (n # d)) as Rx. cbn [Qnum Qden] in Rx.
  pose proof (p2_pos g) as Pg.
  assert (0 <= inject_Z m)%Q as M0 by (unfold Qle; simpl; lia).
  pose proof (inject_pos (Zpos d) ltac:(lia)) as Dpos.
  destruct n as [|p|p].
  - reflexivity.
  - pose proof (inject_pos (Zpos p) ltac:(lia)) as Npos.
    assert (0 < m) as Mpos.
    { destruct (Z.eq_dec m 0) as [->|]; [|lia].
      change (inject_Z 0) with 0%Q in E. nra. }
    assert (RN_pos (Zpos p) (Zpos d) == Zpos p # d)%Q as EX.
    { transitivity (inject_Z m * p2 g)%Q; [|symmetry; exact E].
      apply RN_pos_exact; try lia.
      transitivity ((Zpos p # d) * inject_Z (Zpos d))%Q; [exact Rx|].
      apply Qmult_comp; [exact E|reflexivity]. }
    rewrite (Qred_complete _ _ EX).
    rewrite overflows_small; [reflexivity|].
    eapply Qle_lt_trans; [apply Qle_lteq; right; apply Qred_correct|].
    assert (inject_Z m < inject_Z (2 ^ 53))%Q by (rewrite <- Zlt_Qlt; lia).
    assert (p2 g <= 1)%Q by (apply (p2_le g 0); lia).
    assert (inject_Z (2 ^ 53) < inject_Z (2 ^ 1024))%Q by reflexivity.
    set (c := inject_Z (2 ^ 53)) in *. set (c' := inject_Z (2 ^ 1024)) in *.
    set (x := Zpos p # d) in *. clearbody x c c'.
    assert (inject_Z m * p2 g <= inject_Z m)%Q by nra. lra.
  - exfalso. assert (Zneg p # d < 0)%Q as H by reflexivity.
    set (x := Zneg p # d) in *. clearbody x.
    assert (0 <= inject_Z m * p2 g)%Q by nra. lra.
Qed.

Lemma RN_exact_int x k :
  0 <= k < 2 ^ 53 -> (x == inject_Z k)%Q -> RN x = Fin (inject_Z k).
Proof.
  intros Hk E. rewrite (RN_exact x k 0); try lia.
  - rewrite (Qred_complete _ _ E). f_equal. apply Qred_identity.
    simpl. apply Z.gcd_1_r.
  - rewrite E. unfold p2. simpl. ring.
Qed.

(** The result of rounding is off by at most [2^-53] of the value, or by
    [2^-1075] near zero. *)
Lemma RN_error x r :
  RN x = Fin r ->
  (Qabs (r - x) <= Qabs x * p2 (-53) + p2 (-1075))%Q.
Proof.
  destruct x as [n d]. unfold RN. cbn [Qnum Qden].
  pose proof (Q_as_ratio (n # d)) as Rx. cbn [Qnum Qden] in Rx.
  pose proof (inject_pos (Zpos d) ltac:(lia)) as Dpos.
  pose proof (p2_pos (-53)) as P53. pose proof (p2_pos (-1075)) as P1075.
  destruct n as [|p|p].
  - intros [= <-]. assert (0 # d == 0)%Q as -> by reflexivity.
    set (u := p2 (-53)) in *. set (w := p2 (-1075)) in *. clearbody u w.
    apply Qabs_Qle_condition. change (Qabs 0) with 0%Q. split; lra.
  - pose proof (RN_pos_error (Zpos p) (Zpos d) ltac:(lia) ltac:(lia)) as B.
    pose proof (Qred_correct (RN_pos (Zpos p) (Zpos d))) as RC.
    pose proof (inject_pos (Zpos p) ltac:(lia)) as Npos.
    assert (0 < Zpos p # d)%Q as Xpos by reflexivity.
    pose proof (Qabs_pos (Zpos p # d) ltac:(lra)) as AX.
    remember (RN_pos (Zpos p) (Zpos d)) as R eqn:HR.
    remember (Qred R) as R' eqn:HR'.
    remember (Zpos p # d) as x eqn:Hx.
    remember (inject_Z (Zpos d)) as qd eqn:Hqd.
    remember (inject_Z (Zpos p)) as qn eqn:Hqn.
    clear HR HR' Hx Hqd Hqn.
    destruct (overflows R'); [discriminate|]. intros [= <-].
    apply Qabs_Qle_condition in B. apply Qabs_Qle_condition. destruct B as [B1 B2].
    set (a := Qabs x) in *. set (u := p2 (-53)) in *. set (w := p2 (-1075)) in *.
    clearbody a u w.
    assert ((R' - x) * qd == R * qd - qn)%Q as EQ by (rewrite RC, Rx; ring).
    assert ((a * u + w) * qd == qn * u + qd * w)%Q as EB by (rewrite AX, Rx; ring).
    split; apply (proj1 (Qmult_le_r _ _ qd Dpos)); rewrite EQ;
      [setoid_replace (- (a * u + w) * qd)%Q with (- ((a * u + w) * qd))%Q by ring|];
      rewrite EB; lra.
  - pose proof (RN_pos_error (Zpos p) (Zpos d) ltac:(lia) ltac:(lia)) as B.
    pose proof (Qred_correct (RN_pos (Zpos p) (Zpos d))) as RC.
    pose proof (inject_pos (Zpos p) ltac:(lia)) as Npos.
    assert (inject_Z (Zpos p) == - inject_Z (Zneg p))%Q as EN by reflexivity.
    assert (Zneg p # d < 0)%Q as Xneg by reflexivity.
    pose proof (Qabs_neg (Zneg p # d) ltac:(lra)) as AX.
    remember (RN_pos (Zpos p) (Zpos d)) as R eqn:HR.
    remember (Qred R) as R' eqn:HR'.
    remember (Zneg p # d) as x eqn:Hx.
    remember (inject_Z (Zpos d)) as qd eqn:Hqd.
    remember (inject_Z (Zpos p)) as qn eqn:Hqn.
    remember (inject_Z (Zneg p)) as qm eqn:Hqm.
    clear HR HR' Hx Hqd Hqn Hqm.
    destruct (overflows R'); [discriminate|]. intros [= <-].
    apply Qabs_Qle_condition in B. apply Qabs_Qle_condition. destruct B as [B1 B2].
    set (a := Qabs x) in *. set (u := p2 (-53)) in *. set (w := p2 (-1075)) in *.
    clearbody a u w.
    assert ((- R' - x) * qd == - (R * qd - qn))%Q as EQ by (rewrite RC, EN, Rx; ring).
    assert ((a * u + w) * qd == qn * u + qd * w)%Q as EB by (rewrite AX, EN, Rx; ring).
    split; apply (proj1 (Qmult_le_r _ _ qd Dpos)); rewrite EQ;
      [setoid_replace (- (a * u + w) * qd)%Q with (- ((a * u + w) * qd))%Q by ring|];
      rewrite EB; lra.
Qed.

(** [RN] and the operations built on it agree with the primitive binary64
    operations on sample inputs: the float of 2.54, of 0.005 and of
    0.00499999999999999999999999 (the same float), products with the unit
    factors, a quotient by 12700 and the smallest subnormal. *)
Example RN_agrees_with_binary64 :
  Some (RN (254 # 100)) = option_map Fin (float_value 0x1.451eb851eb852p+1)
  /\ Some (py_float_mul (RN (254 # 100)) (Fin 360000))
     = option_map Fin (float_value (0x1.451eb851eb852p+1 * 360000))
  /\ Some (RN (5 # 1000)) = option_map Fin (float_value 0x1.47ae147ae147bp-8)
  /\ Some (RN (499999999999999999999999 # 100000000000000000000000000))
     = option_map Fin (float_value 0x1.47ae147ae147bp-8)
  /\ Some (py_float_mul (RN (5 # 1000)) (Fin 12700))
     = option_map Fin (float_value (0x1.47ae147ae147bp-8 * 12700))
  /\ py_float_div (Fin 914401) (Fin 12700)
     = match float_value (914401 / 12700) with
       | Some q => Ok (Fin q)
       | None => Raise ValueError
       end
  /\ Some (RN (1 # 12700)) = option_map Fin (float_value (1 / 12700))
  /\ Some (RN (49 # 10 ^ 325)) = option_map Fin (float_value 0x1p-1074).
Proof. repeat split; vm_compute; reflexivity. Qed.

(** ** Claims on the simple types *)

(** C3, as stated, fails: rendering 914400 EMU through the half-point
    descriptor does not give "1440". *)
Lemma ST_HpsMeasure_one_inch_not_1440 :
  convert_to_xml ST_HpsMeasure (PyInt 914400) <> Ok (PyStr "1440").
Proof. vm_compute. discriminate. Qed.

(** C3, amended: 914400 EMU are 72 points, that is 144 half-points, and
    [ST_HpsMeasure.convert_to_xml] (and [to_xml]) renders them as "144". *)
Theorem ST_HpsMeasure_renders_one_inch :
  convert_to_xml ST_HpsMeasure (PyInt 914400) = Ok (PyStr "144")
  /\ to_xml ST_HpsMeasure (PyInt 914400) = Ok (PyStr "144").
Proof. split; vm_compute; reflexivity. Qed.

Ltac case_str s lit :=
  destruct (String.eqb_spec s lit);
  [subst s; vm_compute; intuition (try discriminate; try reflexivity)|].

(** C6: [XsdBoolean.convert_from_xml] succeeds exactly on "1", "0", "true"
    and "false", giving [True] for "1" and "true", and raises
    [InvalidXmlError] on every other string; [ST_OnOff] accepts "on" and
    "off" too; both render every value their validation accepts as "1" or
    "0" only. *)
Theorem boolean_parse_and_render :
  (forall s,
      ((s = "1" \/ s = "true")
       /\ convert_from_xml XsdBoolean s = Ok (PyBool true))
      \/ ((s = "0" \/ s = "false")
          /\ convert_from_xml XsdBoolean s = Ok (PyBool false))
      \/ ((s <> "1" /\ s <> "0" /\ s <> "true" /\ s <> "false")
          /\ convert_from_xml XsdBoolean s = Raise InvalidXmlError))
  /\ (forall s,
      ((s = "1" \/ s = "true" \/ s = "on")
       /\ convert_from_xml ST_OnOff s = Ok (PyBool true))
      \/ ((s = "0" \/ s = "false" \/ s = "off")
          /\ convert_from_xml ST_OnOff s = Ok (PyBool false))
      \/ ((s <> "1" /\ s <> "0" /\ s <> "true" /\ s <> "false"
           /\ s <> "on" /\ s <> "off")
          /\ convert_from_xml ST_OnOff s = Raise InvalidXmlError))
  /\ (forall v,
      (validate XsdBoolean v = Raise TypeError
       /\ to_xml XsdBoolean v = Raise TypeError)
      \/ (validate XsdBoolean v = Ok tt
          /\ convert_to_xml XsdBoolean v = to_xml XsdBoolean v
          /\ (to_xml XsdBoolean v = Ok (PyStr "1")
              \/ to_xml XsdBoolean v = Ok (PyStr "0"))))
  /\ (forall v,
      (validate ST_OnOff v = Raise TypeError
       /\ to_xml ST_OnOff v = Raise TypeError)
      \/ (validate ST_OnOff v = Ok tt
          /\ convert_to_xml ST_OnOff v = to_xml ST_OnOff v
          /\ (to_xml ST_OnOff v = Ok (PyStr "1")
              \/ to_xml ST_OnOff v = Ok (PyStr "0")))).
Proof.
  split; [|split; [|split]].
  - intros s. case_str s "1". case_str s "0". case_str s "true".
    case_str s "false".
    right; right. split; [tauto|].
    unfold convert_from_xml, str_in; simpl.
    repeat match goal with
           | H : s <> ?l |- _ =>
               apply String.eqb_neq in H; rewrite H; clear H
           end.
    reflexivity.
  - intros s. case_str s "1". case_str s "0". case_str s "true".
    case_str s "false". case_str s "on". case_str s "off".
    right; right. split; [tauto|].
    unfold convert_from_xml, str_in; simpl.
    repeat match goal with
           | H : s <> ?l |- _ =>
               apply String.eqb_neq in H; rewrite H; clear H
           end.
    reflexivity.
  - intros [| [] | n | s | c]; try (vm_compute; tauto).
    unfold to_xml, validate, convert_to_xml, py_in; simpl.
    destruct (Z.eqb_spec n 1); [simpl; tauto|].
    destruct (Z.eqb_spec n 0); simpl; tauto.
  - intros [| [] | n | s | c]; try (vm_compute; tauto).
    unfold to_xml, validate, convert_to_xml, py_in; simpl.
    destruct (Z.eqb_spec n 1); [simpl; tauto|].
    destruct (Z.eqb_spec n 0); simpl; tauto.
Qed.

(** C7: each bounded integer descriptor accepts its declared minimum and
    maximum and raises [ValueError] one below and one above. *)
Theorem range_enforcement_at_bounds :
  (validate XsdInt (PyInt (-2147483648)) = Ok tt
   /\ validate XsdInt (PyInt 2147483647) = Ok tt
   /\ validate XsdInt (PyInt (-2147483649)) = Raise ValueError
   /\ validate XsdInt (PyInt 2147483648) = Raise ValueError)
  /\ (validate XsdUnsignedInt (PyInt 0) = Ok tt
      /\ validate XsdUnsignedInt (PyInt 4294967295) = Ok tt
      /\ validate XsdUnsignedInt (PyInt (-1)) = Raise ValueError
      /\ validate XsdUnsignedInt (PyInt 4294967296) = Raise ValueError)
  /\ (validate XsdUnsignedLong (PyInt 0) = Ok tt
      /\ validate XsdUnsignedLong (PyInt 18446744073709551615) = Ok tt
      /\ validate XsdUnsignedLong (PyInt (-1)) = Raise ValueError
      /\ validate XsdUnsignedLong (PyInt 18446744073709551616)
         = Raise ValueError)
  /\ (validate ST_CoordinateUnqualified (PyInt (-27273042329600)) = Ok tt
      /\ validate ST_CoordinateUnqualified (PyInt 27273042316900) = Ok tt
      /\ validate ST_CoordinateUnqualified (PyInt (-27273042329601))
         = Raise ValueError
      /\ validate ST_CoordinateUnqualified (PyInt 27273042316901)
         = Raise ValueError)
  /\ (forall v, validate ST_Coordinate v = validate ST_CoordinateUnqualified v).
Proof. repeat split. Qed.

(** C8: [ST_Merge] has the members "continue" and "restart".  Parsing never
    rejects: it returns the string unchanged, so "continue" parses to
    "continue"; rejection is always at validation, which accepts exactly the
    two literals, compared case-sensitively, and raises [ValueError] on
    every other string, "bogus" among them. *)
Theorem ST_Merge_membership :
  _members ST_Merge = Some ["continue"; "restart"]
  /\ from_xml ST_Merge "continue" = Ok (PyStr "continue")
  /\ validate ST_Merge (PyStr "continue") = Ok tt
  /\ from_xml ST_Merge "bogus" = Ok (PyStr "bogus")
  /\ validate ST_Merge (PyStr "bogus") = Raise ValueError
  /\ validate ST_Merge (PyStr "Continue") = Raise ValueError
  /\ (forall s, from_xml ST_Merge s = Ok (PyStr s))
  /\ (forall s,
      ((s = "continue" \/ s = "restart")
       /\ validate ST_Merge (PyStr s) = Ok tt)
      \/ ((s <> "continue" /\ s <> "restart")
          /\ validate ST_Merge (PyStr s) = Raise ValueError)).
Proof.
  repeat split. intros s.
  case_str s "continue". case_str s "restart".
  right. split; [tauto|].
  unfold validate, py_in; simpl.
  repeat match goal with
         | H : s <> ?l |- _ => apply String.eqb_neq in H; rewrite H; clear H
         end.
  reflexivity.
Qed.



Lemma str_in_In s ms : str_in s ms = true <-> In s ms.
Proof.
  unfold str_in. rewrite existsb_exists. split.
  - intros (x & I & E). apply String.eqb_eq in E. now subst.
  - intros I. exists s. split; [assumption|apply String.eqb_refl].
Qed.

Lemma py_in_strings s ms : py_in (PyStr s) (map PyStr ms) = str_in s ms.
Proof.
  unfold py_in, str_in. induction ms as [|m ms IH]; [reflexivity|].
  simpl. now rewrite IH.
Qed.

Lemma membership_verdict s ms :
  (In s ms
   /\ (if negb (py_in (PyStr s) (map PyStr ms))
       then Raise ValueError else Ok tt) = Ok tt)
  \/ (~ In s ms
      /\ (if negb (py_in (PyStr s) (map PyStr ms))
          then Raise ValueError else Ok tt) = Raise ValueError).
Proof.
  rewrite py_in_strings. destruct (str_in s ms) eqn:E.
  - left. split; [now apply str_in_In|reflexivity].
  - right. split; [|reflexivity]. intros I. apply str_in_In in I. congruence.
Qed.

Lemma range_verdict n lo hi :
  (lo <= n <= hi /\ validate_int_in_range (PyInt n) lo hi = Ok tt)
  \/ (~ lo <= n <= hi
      /\ validate_int_in_range (PyInt n) lo hi = Raise ValueError).
Proof.
  unfold validate_int_in_range; simpl.
  destruct (Z.ltb_spec n lo); simpl; [right; split; [lia|reflexivity]|].
  destruct (n >? hi) eqn:E; [right|left]; split; try reflexivity;
    pose proof (Zgt_cases n hi) as G; rewrite E in G; lia.
Qed.








(** ** The element tree and the border proxies *)

Open Scope list_scope.

Lemma insert_element_before_split child successors l :
  exists l1 l2,
    l = l1 ++ l2 /\ insert_element_before child successors l = l1 ++ child :: l2.
Proof.
  induction l as [|c r (l1 & l2 & E1 & E2)]; simpl.
  - now exists [], [].
  - destruct (str_in (tag c) successors).
    + now exists [], (c :: r).
    + exists (c :: l1), l2. simpl. now rewrite E2, <- E1.
Qed.

Lemma find_app_none {A} (f : A -> bool) l1 l2 :
  find f (l1 ++ l2) = None -> find f l1 = None.
Proof.
  induction l1 as [|x l1 IH]; simpl; [reflexivity|].
  destruct (f x); [discriminate|exact IH].
Qed.

Lemma find_app_hit {A} (f : A -> bool) l1 c l2 :
  find f l1 = None -> f c = true -> find f (l1 ++ c :: l2) = Some c.
Proof.
  induction l1 as [|x l1 IH]; simpl; intros N H.
  - now rewrite H.
  - destruct (f x); [discriminate|now apply IH].
Qed.

Lemma update_first_app t f l1 c l2 :
  find (fun c => String.eqb (tag c) t) l1 = None -> tag c = t ->
  update_first t f (l1 ++ c :: l2) = l1 ++ f c :: l2.
Proof.
  induction l1 as [|x l1 IH]; simpl; intros N H.
  - subst t. now rewrite String.eqb_refl.
  - destruct (String.eqb (tag x) t); [discriminate|]. now rewrite IH.
Qed.

Lemma nth_error_list_update {A} (f : A -> A) l : forall i,
  nth_error (list_update i f l) i = option_map f (nth_error l i).
Proof.
  induction l as [|x l IH]; intros [|i]; simpl; try reflexivity. apply IH.
Qed.

Lemma list_update_twice {A} (f g : A -> A) l : forall i,
  list_update i f (list_update i g l) = list_update i (fun x => f (g x)) l.
Proof.
  induction l as [|x l IH]; intros [|i]; simpl; try reflexivity.
  now rewrite IH.
Qed.

Lemma list_update_at {A} (f g : A -> A) l : forall i x,
  nth_error l i = Some x -> f x = g x -> list_update i f l = list_update i g l.
Proof.
  induction l as [|y l IH]; intros [|i] x; simpl; try discriminate.
  - intros [= ->] E. now rewrite E.
  - intros N E. now rewrite (IH i x N E).
Qed.

Lemma BorderSide_get_absent a s i p side :
  nth_error (elements s) i = Some p -> find_child "w:pPr" p = None ->
  BorderSide_get a (mkBorderSide i side) s = Return PyNone s.
Proof.
  intros N F. unfold BorderSide_get, _get_side_element, mbind, get_element.
  cbn [_element]. now rewrite N, F.
Qed.

Lemma get_element_at i s p :
  nth_error (elements s) i = Some p -> get_element i s = Return p s.
Proof. intros N. unfold get_element. now rewrite N. Qed.

Lemma modify_element_at i f s p :
  nth_error (elements s) i = Some p ->
  modify_element i f s
  = Return tt (mkState (list_update i (fun _ => f p) (elements s)) (facade s)).
Proof.
  intros N. unfold modify_element. f_equal. f_equal.
  now apply (list_update_at _ _ _ _ p N).
Qed.

Lemma nth_error_set {A} (q : A) l : forall i x,
  nth_error l i = Some x -> nth_error (list_update i (fun _ => q) l) i = Some q.
Proof. intros i x N. now rewrite nth_error_list_update, N. Qed.

Lemma list_update_set_twice {A} (q q' : A) l i :
  list_update i (fun _ => q) (list_update i (fun _ => q') l)
  = list_update i (fun _ => q) l.
Proof. apply list_update_twice. Qed.

Lemma find_child_inserted t a l1 c l2 :
  find (fun c => String.eqb (tag c) t) l1 = None -> tag c = t ->
  find_child t (Element a [] (l1 ++ c :: l2)) = Some c
  /\ forall at', find_child t (Element a at' (l1 ++ c :: l2)) = Some c.
Proof.
  intros N H. unfold find_child. cbn [children].
  split; [|intros _]; apply find_app_hit; try assumption;
    subst t; apply String.eqb_refl.
Qed.

Lemma update_child_inserted t f a at' l1 c l2 :
  find (fun c => String.eqb (tag c) t) l1 = None -> tag c = t ->
  update_child t f (Element a at' (l1 ++ c :: l2))
  = Element a at' (l1 ++ f c :: l2).
Proof.
  intros N H. unfold update_child, with_children. cbn [children tag attrib].
  now rewrite update_first_app.
Qed.

Lemma fresh_pBdr_side t :
  In t ["top"; "left"; "bottom"; "right"] ->
  side_tag t = Ok ("w:" ++ t)%string
  /\ get_or_add ("w:" ++ t) (CT_PBdr.successors ("w:" ++ t))
       (Element "w:pBdr" [] [])
     = Element "w:pBdr" [] [Element ("w:" ++ t) [] []]
  /\ find_child ("w:" ++ t)%string
       (Element "w:pBdr" [] [Element ("w:" ++ t) [] []])
     = Some (Element ("w:" ++ t) [] [])
  /\ forall e, update_child ("w:" ++ t) (fun _ => e)
                 (Element "w:pBdr" [] [Element ("w:" ++ t) [] []])
               = Element "w:pBdr" [] [e].
Proof.
  intros Ht. simpl in Ht.
  destruct Ht as [<-|[<-|[<-|[<-|[]]]]]; repeat split.
Qed.

Lemma BorderSide_set_fresh pPrS pBdrS a v text s i p side :
  nth_error (elements s) i = Some p -> find_child "w:pPr" p = None ->
  In side ["top"; "left"; "bottom"; "right"] ->
  In a [CT_BorderSide.val; CT_BorderSide.sz; CT_BorderSide.space;
        CT_BorderSide.color; CT_BorderSide.shadow] ->
  to_xml (attr_type a) v = Ok (PyStr text) ->
  exists before after,
    children p = before ++ after
    /\ BorderSide_set pPrS pBdrS a (mkBorderSide i side) v s
       = Return tt
           (mkState
              (list_update i
                 (fun p => with_new_side p before after
                             (Element ("w:" ++ side) [(attr_name a, text)] []))
                 (elements s))
              (facade s)).
Proof.
  intros N F Hside Ha Hv.
  destruct (insert_element_before_split (Element "w:pPr" [] []) pPrS (children p))
    as (before & after & E1 & E2).
  exists before, after. split; [assumption|].
  assert (find (fun c => String.eqb (tag c) "w:pPr") before = None) as NB.
  { unfold find_child in F. rewrite E1 in F. now apply find_app_none in F. }
  assert (attr_set a (Element ("w:" ++ side) [] []) v
          = Ok (Element ("w:" ++ side) [(attr_name a, text)] [])) as HS.
  { unfold attr_set. rewrite Hv.
    simpl in Ha. destruct Ha as [<-|[<-|[<-|[<-|[<-|[]]]]]]; try reflexivity.
    destruct v; try reflexivity. discriminate. }
  destruct (fresh_pBdr_side side Hside) as (ST & G & FS & U).
  set (t := ("w:" ++ side)%string) in *.
  set (p1 := Element (tag p) (attrib p) (before ++ Element "w:pPr" [] [] :: after)).
  assert (get_or_add "w:pPr" pPrS p = p1) as G1.
  { unfold get_or_add. rewrite F. unfold with_children. now rewrite E2. }
  set (p2 := Element (tag p) (attrib p)
               (before ++ Element "w:pPr" [] [Element "w:pBdr" [] []] :: after)).
  assert (update_child "w:pPr" (get_or_add "w:pBdr" pBdrS) p1 = p2) as G2.
  { unfold p1. now rewrite update_child_inserted. }
  set (p3 := with_new_side p before after (Element t [] [])).
  assert (in_pBdr (get_or_add t (CT_PBdr.successors t)) p2 = p3) as G3.
  { unfold p2, in_pBdr. rewrite update_child_inserted by easy.
    unfold update_child at 1. cbn [children tag attrib with_children update_first].
    cbn [String.eqb Ascii.eqb Bool.eqb]. now rewrite G. }
  set (side' := Element t [(attr_name a, text)] []) in *.
  assert (in_pBdr (update_child t (fun _ => side')) p3
          = with_new_side p before after side') as G4.
  { unfold p3, with_new_side, in_pBdr. rewrite update_child_inserted by easy.
    unfold update_child at 1. cbn [children tag attrib with_children update_first].
    cbn [String.eqb Ascii.eqb Bool.eqb]. now rewrite U. }
  assert (find_child "w:pPr" p3
          = Some (Element "w:pPr" [] [Element "w:pBdr" [] [Element t [] []]])) as F3.
  { unfold p3, with_new_side. now apply find_child_inserted. }
  unfold BorderSide_set, _get_or_add_side_element, mbind. cbn [_element _side].
  rewrite (get_element_at _ _ _ N). cbv beta iota.
  rewrite (modify_element_at _ _ _ _ N), G1. cbv beta iota.
  set (s1 := mkState _ _).
  assert (nth_error (elements s1) i = Some p1) as N1
      by (apply (nth_error_set _ _ _ _ N)).
  rewrite (modify_element_at _ _ _ _ N1), G2. cbv beta iota.
  set (s2 := mkState _ _).
  assert (nth_error (elements s2) i = Some p2) as N2
      by (apply (nth_error_set _ _ _ _ N1)).
  rewrite ST. cbn [lift ret]. cbv beta iota.
  rewrite (modify_element_at _ _ _ _ N2), G3. cbv beta iota.
  set (s3 := mkState _ _).
  assert (nth_error (elements s3) i = Some p3) as N3
      by (apply (nth_error_set _ _ _ _ N2)).
  unfold side_element, mbind, ret. cbv beta iota.
  rewrite (get_element_at _ _ _ N3). cbv beta iota.
  rewrite F3.
  assert (find_child "w:pBdr" (Element "w:pPr" [] [Element "w:pBdr" [] [Element t [] []]])
          = Some (Element "w:pBdr" [] [Element t [] []])) as -> by reflexivity.
  rewrite FS. cbv beta iota. rewrite HS. unfold lift, ret. cbv beta iota.
  rewrite (modify_element_at _ _ _ _ N3), G4.
  f_equal. unfold s3, s2, s1. cbn [elements facade].
  rewrite !list_update_set_twice. f_equal.
  now apply (list_update_at _ _ _ _ p N).
Qed.

(** C9: for a paragraph without [w:pPr], reading any property of a border
    side gives [None] and leaves the state as it was; writing a property
    that the descriptor accepts gives the paragraph one new child, a
    [w:pPr] holding a [w:pBdr] holding that side's element with the written
    attribute as its only attribute, and nothing else: the old children keep
    their order, the other sides get no element, no other paragraph and no
    facade slot changes. *)
Theorem BorderSide_lazy_creation pPrS pBdrS s i p side :
  nth_error (elements s) i = Some p -> find_child "w:pPr" p = None ->
  In side ["top"; "left"; "bottom"; "right"] ->
  (forall a,
      In a [CT_BorderSide.val; CT_BorderSide.sz; CT_BorderSide.space;
            CT_BorderSide.color; CT_BorderSide.shadow] ->
      BorderSide_get a (mkBorderSide i side) s = Return PyNone s)
  /\ (forall a v text,
      In a [CT_BorderSide.val; CT_BorderSide.sz; CT_BorderSide.space;
            CT_BorderSide.color; CT_BorderSide.shadow] ->
      to_xml (attr_type a) v = Ok (PyStr text) ->
      exists before after,
        children p = before ++ after
        /\ BorderSide_set pPrS pBdrS a (mkBorderSide i side) v s
           = Return tt
               (mkState
                  (list_update i
                     (fun p =>
                        with_new_side p before after
                          (Element ("w:" ++ side) [(attr_name a, text)] []))
                     (elements s))
                  (facade s))).
Proof.
  intros N F Hside. split.
  - intros a _. now apply (BorderSide_get_absent a s i p side).
  - intros a v text Ha Hv. now apply BorderSide_set_fresh.
Qed.

Lemma BorderSide_lazy_creation_witness :
  BorderSide_get CT_BorderSide.val (mkBorderSide 2 "top") bordered_paragraphs
  = Return PyNone bordered_paragraphs
  /\ exists before after,
      [Element "w:r" [] []] = before ++ after
      /\ BorderSide_set ["w:r"] [] CT_BorderSide.val (mkBorderSide 2 "top")
           (PyStr "single") bordered_paragraphs
         = Return tt
             (mkState
                (list_update 2
                   (fun p =>
                      with_new_side p before after
                        (Element "w:top" [("w:val", "single")] []))
                   (elements bordered_paragraphs))
                (facade bordered_paragraphs)).
Proof.
  destruct (BorderSide_lazy_creation ["w:r"] [] bordered_paragraphs 2
              (Element "w:p" [] [Element "w:r" [] []]) "top")
    as [R W]; [reflexivity|reflexivity|simpl; tauto|].
  split.
  - apply R. simpl. tauto.
  - apply (W CT_BorderSide.val (PyStr "single") "single");
      [simpl; tauto|vm_compute; reflexivity].
Defined.

(** When the facade already resolves a left side, assigning to [left] does
    nothing to the tree. *)
Lemma ParagraphBorder_set_left_existing pPrS pBdrS side s b s' :
  ParagraphBorder_left s = Return (Some b) s' ->
  ParagraphBorder_set_left pPrS pBdrS side s = Return tt s'.
Proof.
  intros H. unfold ParagraphBorder_set_left, mbind. now rewrite H.
Qed.

Lemma ParagraphBorder_set_right_existing pPrS pBdrS side s b s' :
  ParagraphBorder_right s = Return (Some b) s' ->
  ParagraphBorder_set_right pPrS pBdrS side s = Return tt s'.
Proof.
  intros H. unfold ParagraphBorder_set_right, mbind. now rewrite H.
Qed.

(** C4, the code at the failing input: with a left (right) side already in
    the tree, assigning the double green side of paragraph 1 to [left]
    ([right]) returns without copying a single field, the side keeps its
    style "single"; the same assignment to [top] ([bottom]) copies all of
    them. *)
Theorem ParagraphBorder_left_right_setters_skip_existing :
  forall pPrS pBdrS,
    let source := mkBorderSide 1 "top" in
    let after_left :=
      final_state (ParagraphBorder_set_left pPrS pBdrS source bordered_paragraphs) in
    let after_right :=
      final_state (ParagraphBorder_set_right pPrS pBdrS source bordered_paragraphs) in
    let after_top :=
      final_state (ParagraphBorder_set_top pPrS pBdrS source bordered_paragraphs) in
    let after_bottom :=
      final_state (ParagraphBorder_set_bottom pPrS pBdrS source bordered_paragraphs) in
    BorderSide_val source bordered_paragraphs
    = Return (PyStr "double") bordered_paragraphs
    /\ elements after_left = elements bordered_paragraphs
    /\ BorderSide_val (mkBorderSide 0 "left") after_left
       = Return (PyStr "single") after_left
    /\ elements after_right = elements bordered_paragraphs
    /\ BorderSide_val (mkBorderSide 0 "right") after_right
       = Return (PyStr "single") after_right
    /\ BorderSide_val (mkBorderSide 0 "top") after_top
       = Return (PyStr "double") after_top
    /\ BorderSide_val (mkBorderSide 0 "bottom") after_bottom
       = Return (PyStr "double") after_bottom
    /\ find_child "w:top" (Element "w:pBdr" [] (
         match nth_error (elements after_top) 0 with
         | Some (Element _ _ (Element _ _ (Element _ _ sides :: _) :: _)) => sides
         | _ => []
         end))
       = Some (border_side_element "w:top" "double" "16" "2" "00FF00").
Proof.
  intros pPrS pBdrS. cbv zeta.
  rewrite (ParagraphBorder_set_left_existing pPrS pBdrS _ bordered_paragraphs
             (mkBorderSide 0 "left")
             (mkState (elements bordered_paragraphs)
                (mkParagraphBorder 0 None (Some (mkBorderSide 0 "left")) None None)))
    by reflexivity.
  rewrite (ParagraphBorder_set_right_existing pPrS pBdrS _ bordered_paragraphs
             (mkBorderSide 0 "right")
             (mkState (elements bordered_paragraphs)
                (mkParagraphBorder 0 None None None (Some (mkBorderSide 0 "right")))))
    by reflexivity.
  repeat split; vm_compute; reflexivity.
Qed.

(** ** Round trips *)

Lemma py_float_of_int_exact k :
  0 <= k < 2 ^ 53 -> py_float_of_int k = Ok (Fin (inject_Z k)).
Proof.
  intros H. unfold py_float_of_int.
  now rewrite (RN_exact_int (inject_Z k) k H (Qeq_refl _)).
Qed.

Lemma py_int_of_float_int k : py_int_of_float (Fin (inject_Z k)) = Ok k.
Proof. simpl. now rewrite Z.quot_1_r. Qed.


Lemma py_int_div_float_dyadic v c m g :
  0 <= v < 2 ^ 53 -> 0 <= m < 2 ^ 53 -> -1074 <= g <= 0 ->
  Qis_zero c = false ->
  (inject_Z v / c == inject_Z m * p2 g)%Q ->
  py_int_div_float v (Fin c) = Ok (Fin (Qred (inject_Z v / c))).
Proof.
  intros Hv Hm Hg Hc E. unfold py_int_div_float.
  rewrite py_float_of_int_exact by assumption. cbn [bind py_float_div].
  rewrite Hc. now rewrite (RN_exact _ m g Hm Hg E).
Qed.

Lemma py_float_mul_int_exact x n k :
  0 <= n < 2 ^ 53 -> 0 <= k < 2 ^ 53 ->
  (x * inject_Z n == inject_Z k)%Q ->
  py_float_mul_int (Fin x) n = Ok (Fin (inject_Z k)).
Proof.
  intros Hn Hk E. unfold py_float_mul_int.
  rewrite py_float_of_int_exact by assumption. cbn [bind py_float_mul].
  now rewrite (RN_exact_int _ k Hk E).
Qed.

Lemma parse_hex2_hex2 b :
  parse_hex2 (hex_digit (Byte.to_N b / 16)) (hex_digit (Byte.to_N b mod 16))
  = Some b.
Proof. destruct b; vm_compute; reflexivity. Qed.

Lemma RGBColor_from_string_hex c : RGBColor_from_string (RGBColor_hex c) = Ok c.
Proof.
  destruct c as [r g b]. unfold RGBColor_hex, hex2.
  cbn [String.append RGBColor_from_string].
  now rewrite !parse_hex2_hex2.
Qed.


Lemma validate_string_Ok v r : validate_string v = Ok r -> exists s, v = PyStr s.
Proof. destruct v; try discriminate. eauto. Qed.

Lemma no_unit_letters n :
  contains_char "i" (py_str_of_int n) = false
  /\ contains_char "m" (py_str_of_int n) = false
  /\ contains_char "n" (py_str_of_int n) = false
  /\ contains_char "p" (py_str_of_int n) = false.
Proof. repeat split; now apply py_str_of_int_contains. Qed.





Lemma in_range_Ok n lo hi :
  lo <= n <= hi -> validate_int_in_range (PyInt n) lo hi = Ok tt.
Proof.
  intros H. destruct (range_verdict n lo hi) as [[_ E]|[N _]];
    [assumption|contradiction].
Qed.




Lemma half_is_p2 : (p2 (-1) == 1 # 2)%Q.
Proof. reflexivity. Qed.





Lemma RGBColor_hex_not_auto c : String.eqb (RGBColor_hex c) "auto" = false.
Proof.
  destruct (String.eqb_spec (RGBColor_hex c) "auto") as [E|]; [|reflexivity].
  apply (f_equal String.length) in E. destruct c as [r g b]. discriminate E.
Qed.




(** ** Universal measures *)



Lemma unit_factor_multiplier u :
  (if String.eqb u "mm" then Ok Length._EMUS_PER_MM
   else if String.eqb u "cm" then Ok Length._EMUS_PER_CM
   else if String.eqb u "in" then Ok 914400
   else if String.eqb u "pt" then Ok Length._EMUS_PER_PT
   else if String.eqb u "pc" then Ok 152400
   else if String.eqb u "pi" then Ok 152400
   else Raise KeyError)
  = match unit_factor u with
    | Some f => Ok f
    | None => Raise KeyError
    end.
Proof.
  unfold unit_factor.
  repeat match goal with
         | |- context [String.eqb u ?l] => destruct (String.eqb u l)
         end; reflexivity.
Qed.

Lemma unit_factor_bounds u f :
  unit_factor u = Some f -> 0 < f <= 914400.
Proof.
  unfold unit_factor.
  repeat match goal with
         | |- context [String.eqb u ?l] => destruct (String.eqb u l)
         end; intros [= <-]; lia.
Qed.


Lemma binary64_constants :
  (0 < p2 (-53) /\ p2 (-53) <= 1 /\ 0 <= p2 (-1075)
   /\ p2 (-1075) * 2097153 <= 4 * p2 (-53)
   /\ 4 * p2 (-53) == 1 # 2251799813685248)%Q.
Proof.
  repeat split; try (apply Qle_bool_iff; vm_compute; reflexivity).
Qed.


(** Rounding stays finite, and within a factor of two, well below the
    largest float. *)
Lemma RN_finite x :
  (Qabs x <= inject_Z (2 ^ 1022))%Q ->
  exists r, RN x = Fin r /\ (Qabs r <= 2 * Qabs x + 1)%Q.
Proof.
  destruct binary64_constants as (U0 & U1 & E0 & E1 & _).
  assert (p2 (-1075) <= 1)%Q as E2 by (apply (p2_le (-1075) 0); lia).
  assert (inject_Z (2 ^ 1022) * 2 + 1 < inject_Z (2 ^ 1024))%Q as C
      by reflexivity.
  destruct x as [n d]. unfold RN. cbn [Qnum Qden].
  pose proof (Q_as_ratio (n # d)) as Rx. cbn [Qnum Qden] in Rx.
  pose proof (inject_pos (Zpos d) ltac:(lia)) as Dpos.
  destruct n as [|p|p]; intros B.
  - exists 0%Q. split; [reflexivity|].
    pose proof (Qabs_nonneg (0 # d)). change (Qabs 0) with 0%Q. lra.
  - pose proof (RN_pos_error (Zpos p) (Zpos d) ltac:(lia) ltac:(lia)) as Er.
    pose proof (Qred_correct (RN_pos (Zpos p) (Zpos d))) as RC.
    pose proof (inject_pos (Zpos p) ltac:(lia)) as Npos.
    assert (0 < Zpos p # d)%Q as Xpos by reflexivity.
    pose proof (Qabs_pos (Zpos p # d) ltac:(lra)) as AX.
    apply Qabs_Qle_condition in Er. destruct Er as [E3 E4].
    remember (RN_pos (Zpos p) (Zpos d)) as R eqn:HR.
    remember (Qred R) as R' eqn:HR'.
    remember (Zpos p # d) as x eqn:Hx.
    remember (inject_Z (Zpos d)) as qd eqn:Hqd.
    remember (inject_Z (Zpos p)) as qn eqn:Hqn.
    remember (inject_Z (2 ^ 1022)) as M eqn:HM.
    remember (inject_Z (2 ^ 1024)) as M' eqn:HM'.
    set (u := p2 (-53)) in *. set (eta := p2 (-1075)) in *.
    set (ab := Qabs x) in *.
    clearbody u eta ab. clear HR HR' Hx Hqd Hqn HM.
    assert (qn * u <= qn * 1)%Q by (apply (proj2 (Qmult_le_l u 1 qn Npos) U1)).
    assert (qd * eta <= qd * 1)%Q by (apply (proj2 (Qmult_le_l eta 1 qd Dpos) E2)).
    assert ((2 * x + 1) * qd == 2 * qn + qd)%Q as EX by (rewrite Rx; ring).
    assert (- qd <= R * qd /\ R * qd <= (2 * x + 1) * qd)%Q as [L1 L2]
        by (rewrite EX; split; lra).
    assert (- 1 <= R /\ R <= 2 * x + 1)%Q as [L3 L4].
    { split; apply (proj1 (Qmult_le_r _ _ qd Dpos)); lra. }
    rewrite overflows_small by (rewrite <- HM'; lra).
    exists R'. split; [reflexivity|].
    apply Qabs_Qle_condition. split; lra.
  - pose proof (RN_pos_error (Zpos p) (Zpos d) ltac:(lia) ltac:(lia)) as Er.
    pose proof (Qred_correct (RN_pos (Zpos p) (Zpos d))) as RC.
    pose proof (inject_pos (Zpos p) ltac:(lia)) as Npos.
    assert (inject_Z (Zpos p) == - inject_Z (Zneg p))%Q as EN by reflexivity.
    assert (Zneg p # d < 0)%Q as Xneg by reflexivity.
    pose proof (Qabs_neg (Zneg p # d) ltac:(lra)) as AX.
    apply Qabs_Qle_condition in Er. destruct Er as [E3 E4].
    remember (RN_pos (Zpos p) (Zpos d)) as R eqn:HR.
    remember (Qred R) as R' eqn:HR'.
    remember (Zneg p # d) as x eqn:Hx.
    remember (inject_Z (Zpos d)) as qd eqn:Hqd.
    remember (inject_Z (Zpos p)) as qn eqn:Hqn.
    remember (inject_Z (Zneg p)) as qm eqn:Hqm.
    remember (inject_Z (2 ^ 1022)) as M eqn:HM.
    remember (inject_Z (2 ^ 1024)) as M' eqn:HM'.
    set (u := p2 (-53)) in *. set (eta := p2 (-1075)) in *.
    set (ab := Qabs x) in *.
    clearbody u eta ab. clear HR HR' Hx Hqd Hqn Hqm HM.
    assert (qn * u <= qn * 1)%Q by (apply (proj2 (Qmult_le_l u 1 qn Npos) U1)).
    assert (qd * eta <= qd * 1)%Q by (apply (proj2 (Qmult_le_l eta 1 qd Dpos) E2)).
    assert ((2 * - x + 1) * qd == 2 * qn + qd)%Q as EX
        by (rewrite EN, Rx; ring).
    assert (- qd <= R * qd /\ R * qd <= (2 * - x + 1) * qd)%Q as [L1 L2]
        by (rewrite EX; split; lra).
    assert (- 1 <= R /\ R <= 2 * - x + 1)%Q as [L3 L4].
    { split; apply (proj1 (Qmult_le_r _ _ qd Dpos)); lra. }
    rewrite overflows_small by (rewrite <- HM'; lra).
    exists (- R')%Q. split; [reflexivity|].
    apply Qabs_Qle_condition. split; lra.
Qed.

Lemma decimal_magnitude_head body q :
  decimal_magnitude body = Some q ->
  exists c r, body = String c r /\ (is_digit c = true \/ c = "."%char).
Proof.
  unfold decimal_magnitude. destruct body as [|c r]; [discriminate|].
  intros H. exists c, r. split; [reflexivity|].
  cbn [split_at] in H.
  destruct (Ascii.eqb (lower c) "e"); [discriminate|].
  destruct (split_at _ r) as [a b].
  unfold parse_mantissa in H. cbn [split_at] in H.
  destruct (Ascii.eqb_spec "."%char c) as [<-|]; [now right|left].
  destruct (split_at (Ascii.eqb ".") a) as [ip [fp|]];
    cbn [opt_digitpart digitpart] in H;
    destruct (is_digit c); try reflexivity; discriminate.
Qed.

Lemma decimal_not_special body q :
  decimal_magnitude body = Some q ->
  String.eqb (lower_str body) "inf" || String.eqb (lower_str body) "infinity"
  = false
  /\ String.eqb (lower_str body) "nan" = false.
Proof.
  intros H. destruct (decimal_magnitude_head _ _ H) as (c & r & -> & [D| ->]).
  - apply is_digit_cases in D. simpl in D.
    repeat (destruct D as [<-|D]; [split; reflexivity|]). contradiction.
  - split; reflexivity.
Qed.

(** [float(s)] of a decimal literal is the rounding of its value. *)
Lemma py_float_of_str_decimal s q :
  decimal_value s = Some q -> py_float_of_str s = Ok (RN q).
Proof.
  intros D. unfold py_float_of_str. rewrite D. unfold decimal_value in D.
  destruct (split_sign (strip s)) as [neg body].
  destruct (decimal_magnitude body) as [m|] eqn:E; [|discriminate].
  destruct (decimal_not_special _ _ E) as [-> ->]. reflexivity.
Qed.




(** ** Further properties of the simple types *)

Lemma contains_char_substring c s : forall n m,
  contains_char c (substring n m s) = true -> contains_char c s = true.
Proof.
  induction s as [|d r IH]; intros n m H.
  - destruct n, m; simpl in H; discriminate.
  - destruct n as [|n].
    + destruct m as [|m]; simpl in H; [discriminate|].
      simpl. apply orb_true_iff in H as [H|H].
      * now rewrite H.
      * rewrite (IH _ _ H). apply orb_true_r.
    + simpl in H. simpl. rewrite (IH _ _ H). apply orb_true_r.
Qed.

Lemma unit_code_letters s :
  In (slice_from_m2 s) unit_codes ->
  (contains_char "i" s || contains_char "m" s || contains_char "p" s = true)
  /\ (contains_char "m" s || contains_char "n" s || contains_char "p" s = true).
Proof.
  intros H.
  assert (L : forall c, contains_char c (slice_from_m2 s) = true ->
                        contains_char c s = true)
    by (intros c; apply contains_char_substring).
  unfold unit_codes in H; simpl in H.
  destruct H as [H|[H|[H|[H|[H|[H|[]]]]]]]; rewrite <- H in L.
  - rewrite (L "m"%char eq_refl). split; [now rewrite orb_true_r | reflexivity].
  - rewrite (L "m"%char eq_refl). split; [now rewrite orb_true_r | reflexivity].
  - rewrite (L "i"%char eq_refl), (L "n"%char eq_refl).
    split; [reflexivity | now rewrite orb_true_r].
  - rewrite (L "p"%char eq_refl). split; now rewrite orb_true_r.
  - rewrite (L "p"%char eq_refl). split; now rewrite orb_true_r.
  - rewrite (L "p"%char eq_refl). split; now rewrite orb_true_r.
Qed.

(** X1: every measure descriptor parses a text that ends in one of the six
    unit codes exactly as [ST_UniversalMeasure] does: the letter tests in
    front of the integer route catch every unit code. *)
Theorem measure_descriptors_defer_to_universal_measure cls s :
  In cls measure_descriptors ->
  In (slice_from_m2 s) unit_codes ->
  from_xml cls s = from_xml ST_UniversalMeasure s.
Proof.
  intros Hc Hu. destruct (unit_code_letters s Hu) as [A B].
  unfold measure_descriptors in Hc; simpl in Hc.
  unfold from_xml.
  destruct Hc as [<-|[<-|[<-|[<-|[<-|[<-|[]]]]]]]; cbn [convert_from_xml];
    rewrite ?A, ?B; reflexivity.
Qed.

Lemma measure_descriptors_defer_to_universal_measure_witness :
  from_xml ST_PtsMeasure "1in" = from_xml ST_UniversalMeasure "1in".
Proof.
  apply (measure_descriptors_defer_to_universal_measure ST_PtsMeasure "1in").
  - unfold measure_descriptors; simpl; tauto.
  - unfold unit_codes; simpl; tauto.
Defined.

Lemma substring_0_0 s : substring 0 0 s = "".
Proof. now destruct s. Qed.






Lemma Qabs_div_ge1 r c : (1 <= c)%Q -> (Qabs (r / c) <= Qabs r)%Q.
Proof.
  intros Hc. unfold Qdiv. rewrite Qabs_Qmult.
  assert (0 < c)%Q as Cpos by lra.
  assert (0 < / c)%Q as Ipos by (apply Qinv_lt_0_compat; exact Cpos).
  rewrite (Qabs_pos (/ c)) by lra.
  pose proof (Qabs_nonneg r) as Hr.
  assert (/ c <= 1)%Q as I1.
  { apply (proj1 (Qmult_le_r _ _ c Cpos)).
    rewrite (Qmult_comm (/ c)), Qmult_inv_r by lra. lra. }
  set (a := Qabs r) in *. set (i := (/ c)%Q) in *. clearbody a i. nra.
Qed.








(** X4: the integer descriptors take a [bool] for an [int]
    ([isinstance(True, int)] holds) and render it with [str], as "True" or
    "False"; their own parser raises [ValueError] on that text. *)
Theorem integer_descriptors_render_bool_unparsably cls b :
  In cls integer_descriptors ->
  validate cls (PyBool b) = Ok tt
  /\ to_xml cls (PyBool b) = Ok (PyStr (if b then "True" else "False"))
  /\ from_xml cls (if b then "True" else "False") = Raise ValueError.
Proof.
  unfold integer_descriptors; simpl.
  intros [<-|[<-|[<-|[<-|[<-|[<-|[<-|[<-|[<-|[<-|[]]]]]]]]]]];
    destruct b; vm_compute; repeat split; reflexivity.
Qed.

Lemma integer_descriptors_render_bool_unparsably_witness :
  validate XsdUnsignedInt (PyBool true) = Ok tt
  /\ to_xml XsdUnsignedInt (PyBool true) = Ok (PyStr "True")
  /\ from_xml XsdUnsignedInt "True" = Raise ValueError.
Proof.
  apply (integer_descriptors_render_bool_unparsably XsdUnsignedInt true).
  unfold integer_descriptors; simpl; tauto.
Defined.

Lemma validate_int_in_range_narrows v lo hi lo' hi' :
  lo' <= lo -> hi <= hi' ->
  validate_int_in_range v lo hi = Ok tt ->
  validate_int_in_range v lo' hi' = Ok tt.
Proof.
  intros Hl Hh. unfold validate_int_in_range, validate_int.
  destruct v as [| b | m | s | c]; cbn [isinstance_int negb bind];
    try discriminate.
  - destruct (Z.ltb_spec (Z_of_bool b) lo); [discriminate|].
    destruct (Z.gtb_spec (Z_of_bool b) hi); [discriminate|]. intros _.
    destruct (Z.ltb_spec (Z_of_bool b) lo'); [lia|].
    destruct (Z.gtb_spec (Z_of_bool b) hi'); [lia|]. reflexivity.
  - destruct (Z.ltb_spec m lo); [discriminate|].
    destruct (Z.gtb_spec m hi); [discriminate|]. intros _.
    destruct (Z.ltb_spec m lo'); [lia|].
    destruct (Z.gtb_spec m hi'); [lia|]. reflexivity.
Qed.

Lemma validate_int_in_range_int v lo hi :
  validate_int_in_range v lo hi = Ok tt -> validate_int v = Ok tt.
Proof.
  unfold validate_int_in_range.
  destruct (validate_int v) as [[]|e]; [reflexivity|discriminate].
Qed.

(** X5: an override of [validate] only narrows.  Whatever a descriptor
    accepts, the class it derives from accepts too, unless that class cannot
    validate at all; the one exception is [ST_HexColor], which derives from
    [BaseStringType] and accepts no string. *)
Theorem validate_overrides_narrow :
  (forall cls parent v,
      base cls = Some parent -> abstract parent = false ->
      cls <> ST_HexColor ->
      validate cls v = Ok tt -> validate parent v = Ok tt)
  /\ (forall cls v, abstract cls = true -> validate cls v <> Ok tt)
  /\ base ST_HexColor = Some BaseStringType
  /\ (forall v, validate ST_HexColor v = Ok tt ->
                validate BaseStringType v = Raise TypeError).
Proof.
  split; [|split; [|split]].
  - intros cls parent v Hb Ha Hc V.
    destruct cls; cbn [base] in Hb; try discriminate Hb;
      injection Hb as <-; try discriminate Ha; try congruence;
      cbn [validate] in V |- *;
      try exact V;
      try (apply (validate_int_in_range_int _ _ _ V));
      try (revert V; apply validate_int_in_range_narrows; lia);
      try (unfold validate_string_in in V);
      try (destruct v; cbn [validate_string bind] in V |- *;
           try discriminate V; reflexivity).
  - intros cls v Ha.
    destruct cls; try discriminate Ha; cbn [validate]; try discriminate.
    + destruct v; cbn [validate_string bind _members]; discriminate.
    + destruct v; cbn [validate_string bind _members]; discriminate.
  - reflexivity.
  - intros v. destruct v; cbn [validate]; try discriminate. reflexivity.
Qed.

Lemma validate_overrides_narrow_witness :
  validate XsdLong (PyInt 27273042316900) = Ok tt.
Proof.
  apply (proj1 validate_overrides_narrow ST_PositiveCoordinate XsdLong
           (PyInt 27273042316900)).
  - reflexivity.
  - reflexivity.
  - discriminate.
  - vm_compute. reflexivity.
Defined.

Lemma hex2_shape b :
  String.length (hex2 b) = 2%nat /\ all_upper_hex (hex2 b) = true.
Proof. destruct b; vm_compute; split; reflexivity. Qed.

Lemma all_upper_hex_app s t :
  all_upper_hex (s ++ t) = all_upper_hex s && all_upper_hex t.
Proof.
  induction s as [|c r IH]; simpl; [reflexivity|].
  now rewrite IH, andb_assoc.
Qed.

Lemma length_app s t :
  String.length (s ++ t) = (String.length s + String.length t)%nat.
Proof. induction s as [|c r IH]; simpl; [reflexivity|now rewrite IH]. Qed.

(** X6: [ST_HexColor.to_xml] renders an [RGBColor] as exactly six
    characters, each a digit or a capital letter from A to F, and different
    colours as different texts; every other value, a string such as "auto"
    or "FF0000" and [None] included, is refused with [ValueError]. *)
Theorem ST_HexColor_to_xml_shape :
  (forall c, exists s,
      to_xml ST_HexColor (PyColor c) = Ok (PyStr s)
      /\ String.length s = 6%nat /\ all_upper_hex s = true)
  /\ (forall c d,
      to_xml ST_HexColor (PyColor c) = to_xml ST_HexColor (PyColor d) ->
      c = d)
  /\ (forall v, (forall c, v <> PyColor c) ->
                to_xml ST_HexColor v = Raise ValueError).
Proof.
  split; [|split].
  - intros [r g b]. exists (RGBColor_hex (RGB r g b)).
    split; [reflexivity|]. unfold RGBColor_hex.
    destruct (hex2_shape r) as [Lr Ur], (hex2_shape g) as [Lg Ug],
      (hex2_shape b) as [Lb Ub].
    rewrite !length_app, !all_upper_hex_app, Lr, Lg, Lb, Ur, Ug, Ub.
    split; reflexivity.
  - intros c d H. unfold to_xml in H. cbn [validate bind convert_to_xml] in H.
    injection H as H.
    pose proof (RGBColor_from_string_hex c) as Ec.
    rewrite H, RGBColor_from_string_hex in Ec. now injection Ec.
  - intros v H. destruct v; try reflexivity. now destruct (H c).
Qed.

Lemma ST_HexColor_to_xml_shape_witness :
  to_xml ST_HexColor (PyStr "auto") = Raise ValueError.
Proof.
  apply (proj2 (proj2 ST_HexColor_to_xml_shape) (PyStr "auto")).
  intros c. discriminate.
Defined.

(** ** Rendering of lengths: whole units, rounded down *)

Lemma binary64_margins :
  (0 < p2 (-53) /\ inject_Z (2 ^ 53) * p2 (-53) == 1
   /\ 0 < p2 (-1075) /\ inject_Z (2 ^ 53) * p2 (-1075) < p2 (-53))%Q.
Proof. repeat split. Qed.

(** The float quotient of two integers below [2^53] lies in the same unit
    interval as the exact quotient. *)
Lemma RN_quotient_floor v c :
  0 <= v < 2 ^ 53 -> 0 < c < 2 ^ 53 ->
  exists y, RN (inject_Z v / inject_Z c) = Fin y
            /\ (inject_Z (v / c) <= y /\ y < inject_Z (v / c + 1))%Q.
Proof.
  intros Hv Hc.
  pose proof (Z.div_mod v c ltac:(lia)) as DM.
  pose proof (Z.mod_pos_bound v c ltac:(lia)) as MB.
  pose proof (Z.div_pos v c ltac:(lia) ltac:(lia)) as KP.
  assert (v / c <= v) as KV by (apply Z.div_le_upper_bound; nia).
  set (k := v / c) in *. set (r := v mod c) in *.
  pose proof (inject_pos c ltac:(lia)) as Cpos.
  assert (XC : (inject_Z v / inject_Z c * inject_Z c == inject_Z v)%Q)
    by (field; lra).
  assert (XE : (inject_Z v == inject_Z c * inject_Z k + inject_Z r)%Q)
    by (rewrite <- inject_Z_mult, <- inject_Z_plus; now rewrite <- DM).
  destruct (Z.eq_dec r 0) as [R0|R0].
  - exists (inject_Z k). split.
    + apply RN_exact_int; [lia|].
      apply (Qmult_inj_r _ _ (inject_Z c)); [lra|]. rewrite XC, XE, R0.
      change (inject_Z 0) with 0%Q. ring.
    + rewrite inject_Z_plus. change (inject_Z 1) with 1%Q. lra.
  - assert (X0 : (0 <= inject_Z v / inject_Z c)%Q).
    { apply (proj1 (Qmult_le_r _ _ (inject_Z c) Cpos)). rewrite XC.
      rewrite Qmult_0_l. rewrite <- (Zle_Qle 0). lia. }
    assert (XV : (inject_Z v / inject_Z c <= inject_Z v)%Q).
    { pose proof (Qabs_div_ge1 (inject_Z v) (inject_Z c)) as D.
      rewrite !Qabs_pos in D; [apply D| |exact X0].
      - rewrite <- (Zle_Qle 1). lia.
      - rewrite <- (Zle_Qle 0). lia. }
    destruct (RN_finite (inject_Z v / inject_Z c)) as (y & E & _).
    { rewrite Qabs_pos by exact X0. eapply Qle_trans; [exact XV|].
      rewrite <- Zle_Qle. assert (2 ^ 53 <= 2 ^ 1022) by (now vm_compute). lia. }
    exists y. split; [exact E|].
    pose proof (RN_error _ _ E) as B. rewrite (Qabs_pos _ X0) in B.
    apply Qabs_Qle_condition in B. destruct B as [B1 B2].
    destruct binary64_margins as (U0 & U1 & E0 & E1).
    assert (R1 : (1 <= inject_Z r)%Q) by (rewrite <- (Zle_Qle 1); lia).
    assert (R2 : (inject_Z r + 1 <= inject_Z c)%Q).
    { change 1%Q with (inject_Z 1). rewrite <- inject_Z_plus, <- Zle_Qle. lia. }
    assert (V1 : (inject_Z v + 1 <= inject_Z (2 ^ 53))%Q).
    { change 1%Q with (inject_Z 1). rewrite <- inject_Z_plus, <- Zle_Qle. lia. }
    assert (C1 : (inject_Z c <= inject_Z (2 ^ 53))%Q)
      by (rewrite <- Zle_Qle; lia).
    rewrite inject_Z_plus. change (inject_Z 1) with 1%Q.
    remember (inject_Z v / inject_Z c)%Q as x eqn:Hx.
    remember (inject_Z v) as X eqn:HX. remember (inject_Z c) as C eqn:HC.
    remember (inject_Z k) as K eqn:HK. remember (inject_Z r) as R eqn:HR.
    remember (inject_Z (2 ^ 53)) as T eqn:HT.
    set (u := p2 (-53)) in *. set (eta := p2 (-1075)) in *.
    clearbody u eta. clear Hx HX HC HK HR HT.
    assert (P1 : (X * u + u <= 1)%Q).
    { setoid_replace (X * u + u)%Q with ((X + 1) * u)%Q by ring.
      rewrite <- U1. apply Qmult_le_compat_r; lra. }
    assert (P2 : (C * eta < u)%Q).
    { eapply Qle_lt_trans; [|exact E1]. apply Qmult_le_compat_r; lra. }
    assert (P3 : ((x * u + eta) * C == X * u + C * eta)%Q)
      by (rewrite <- XC; ring).
    assert (P4 : ((y - x) * C == y * C - X)%Q) by (rewrite <- XC; ring).
    assert (L1 : ((y - x) * C <= (x * u + eta) * C)%Q)
      by (apply Qmult_le_compat_r; lra).
    assert (L2 : (- (x * u + eta) * C <= (y - x) * C)%Q)
      by (apply Qmult_le_compat_r; lra).
    split.
    + apply (proj1 (Qmult_le_r _ _ C Cpos)). nra.
    + apply (proj1 (Qmult_lt_r _ _ C Cpos)). nra.
Qed.

(** [int] of a non-negative float is the integer below it. *)
Lemma py_int_of_float_floor y k :
  0 <= k -> (inject_Z k <= y /\ y < inject_Z (k + 1))%Q ->
  py_int_of_float (Fin y) = Ok k.
Proof.
  intros Hk [L U]. destruct y as [n d]. cbn [py_int_of_float Qnum Qden].
  unfold Qle, Qlt in *. cbn [Qnum Qden inject_Z] in *.
  f_equal. rewrite Z.quot_div_nonneg by lia.
  symmetry. apply (Z.div_unique_pos n (Zpos d) k (n - k * Zpos d)); lia.
Qed.

Lemma convert_to_xml_pts_floor v :
  0 <= v < 2 ^ 53 ->
  convert_to_xml ST_PtsMeasure (PyInt v)
  = Ok (PyStr (py_str_of_int (v / 12700))).
Proof.
  intros Hv. cbn [convert_to_xml Emu py_int bind].
  unfold Length.pt, float_of, Length._EMUS_PER_PT, py_int_div_float.
  rewrite py_float_of_int_exact by exact Hv. cbn [bind py_float_div].
  change (Qis_zero (inject_Z 12700)) with false. cbv iota.
  destruct (RN_quotient_floor v 12700 Hv) as (y & -> & B); [lia|].
  cbn [bind].
  rewrite (py_int_of_float_floor y (v / 12700));
    [reflexivity | apply Z.div_pos; lia | exact B].
Qed.

Lemma from_xml_pts_int n :
  from_xml ST_PtsMeasure (py_str_of_int n) = Ok (PyInt (12700 * n)).
Proof.
  destruct (no_unit_letters n) as (Ci & Cm & Cn & Cp).
  unfold from_xml. cbn [convert_from_xml]. rewrite Cm, Cn, Cp. cbn [orb].
  rewrite py_int_of_str_of_int. cbn [bind]. unfold Pt. do 2 f_equal.
  unfold Length._EMUS_PER_PT. lia.
Qed.

(** X7: [ST_PtsMeasure] renders a length as its whole number of points,
    rounded down: for every EMU value from 0 up to [2^53] the text is the
    decimal numeral of [v // 12700], although it is computed in floats as
    [int(emu.pt)].  Parsing the text back gives the largest multiple of
    12700 EMU that does not exceed the value, so less than a point is lost,
    and rendering that again gives the same text.  The bound matters:
    [validate] accepts values up to [2^64 - 1], and one EMU short of [2^44]
    points is rendered as [2^44] points. *)
Theorem ST_PtsMeasure_renders_whole_points :
  (forall v,
      0 <= v < 2 ^ 53 ->
      to_xml ST_PtsMeasure (PyInt v) = Ok (PyStr (py_str_of_int (v / 12700)))
      /\ exists v',
          from_xml ST_PtsMeasure (py_str_of_int (v / 12700)) = Ok (PyInt v')
          /\ v' = 12700 * (v / 12700) /\ v - 12700 < v' <= v
          /\ to_xml ST_PtsMeasure (PyInt v')
             = to_xml ST_PtsMeasure (PyInt v))
  /\ to_xml ST_PtsMeasure (PyInt (12700 * 2 ^ 44 - 1))
     = Ok (PyStr (py_str_of_int (2 ^ 44))).
Proof.
  split; [|vm_compute; reflexivity].
  intros v Hv.
  assert (R : forall w, 0 <= w < 2 ^ 53 ->
      to_xml ST_PtsMeasure (PyInt w)
      = Ok (PyStr (py_str_of_int (w / 12700)))).
  { intros w Hw. unfold to_xml.
    assert (validate ST_PtsMeasure (PyInt w) = Ok tt) as ->
        by (cbn [validate]; apply in_range_Ok; lia).
    cbn [bind]. now rewrite convert_to_xml_pts_floor. }
  pose proof (Z.div_mod v 12700 ltac:(lia)) as DM.
  pose proof (Z.mod_pos_bound v 12700 ltac:(lia)) as MB.
  split; [now apply R|].
  exists (12700 * (v / 12700)). split; [apply from_xml_pts_int|].
  split; [reflexivity|]. split; [lia|].
  rewrite !R by lia. do 3 f_equal.
  rewrite Z.mul_comm. apply Z.div_mul. lia.
Qed.

Lemma ST_PtsMeasure_renders_whole_points_witness :
  to_xml ST_PtsMeasure (PyInt 25399) = Ok (PyStr (py_str_of_int (25399 / 12700)))
  /\ exists v',
      from_xml ST_PtsMeasure (py_str_of_int (25399 / 12700)) = Ok (PyInt v')
      /\ v' = 12700 * (25399 / 12700) /\ 25399 - 12700 < v' <= 25399
      /\ to_xml ST_PtsMeasure (PyInt v') = to_xml ST_PtsMeasure (PyInt 25399).
Proof. apply (proj1 ST_PtsMeasure_renders_whole_points 25399). lia. Defined.

Lemma binary64_unit_roundoff :
  (p2 (-53) == 1 # 9007199254740992)%Q
  /\ (p2 (-1075) <= 1 # 1180591620717411303424)%Q.
Proof. split; [reflexivity|]. now vm_compute. Qed.

(** The error of one rounding, with the constants written out. *)
Lemma RN_error_numeric x y :
  RN x = Fin y ->
  (Qabs (y - x)
   <= Qabs x * (1 # 9007199254740992) + (1 # 1180591620717411303424))%Q.
Proof.
  intros E. pose proof (RN_error _ _ E) as B.
  destruct binary64_unit_roundoff as [U1 U2]. rewrite U1 in B.
  eapply Qle_trans; [exact B|]. apply Qplus_le_r. exact U2.
Qed.

(** Twice the float quotient by 12700, computed in floats, lies in the same
    unit interval as the exact quotient by 6350. *)
Lemma RN_half_points_floor v :
  0 <= v < 2 ^ 52 ->
  exists y1 y2,
    RN (inject_Z v / inject_Z 12700) = Fin y1
    /\ RN (y1 * inject_Z 2) = Fin y2
    /\ (inject_Z (v / 6350) <= y2 /\ y2 < inject_Z (v / 6350 + 1))%Q.
Proof.
  intros Hv.
  pose proof (Z.div_mod v 6350 ltac:(lia)) as DM.
  pose proof (Z.mod_pos_bound v 6350 ltac:(lia)) as MB.
  pose proof (Z.div_pos v 6350 ltac:(lia) ltac:(lia)) as KP.
  assert (v / 6350 <= v) as KV by (apply Z.div_le_upper_bound; nia).
  set (j := v / 6350) in *. set (r := v mod 6350) in *.
  assert (XE : (inject_Z v == 6350 * inject_Z j + inject_Z r)%Q).
  { change 6350%Q with (inject_Z 6350).
    rewrite <- inject_Z_mult, <- inject_Z_plus. now rewrite <- DM. }
  change (inject_Z 12700) with 12700%Q. change (inject_Z 2) with 2%Q.
  destruct (Z.eq_dec r 0) as [R0|R0].
  - assert (E1 : (inject_Z v / 12700 == inject_Z j * p2 (-1))%Q).
    { rewrite half_is_p2, XE, R0. change (inject_Z 0) with 0%Q. field. }
    exists (Qred (inject_Z v / 12700)), (inject_Z j).
    split; [apply (RN_exact _ j (-1)); [lia | lia | exact E1]|].
    split.
    + apply RN_exact_int; [lia|]. rewrite Qred_correct, E1, half_is_p2. field.
    + rewrite inject_Z_plus. change (inject_Z 1) with 1%Q. lra.
  - assert (X0 : (0 <= inject_Z v)%Q) by (rewrite <- (Zle_Qle 0); lia).
    assert (V1 : (inject_Z v + 1 <= 4503599627370496)%Q).
    { change 4503599627370496%Q with (inject_Z (2 ^ 52)).
      change 1%Q with (inject_Z 1). rewrite <- inject_Z_plus, <- Zle_Qle. lia. }
    assert (R1 : (1 <= inject_Z r)%Q) by (rewrite <- (Zle_Qle 1); lia).
    assert (R2 : (inject_Z r + 1 <= 6350)%Q).
    { change 6350%Q with (inject_Z 6350). change 1%Q with (inject_Z 1).
      rewrite <- inject_Z_plus, <- Zle_Qle. lia. }
    assert (XC : (inject_Z v / 12700 * 12700 == inject_Z v)%Q) by field.
    assert (Big : (4 * 4503599627370496 + 4 <= inject_Z (2 ^ 1022))%Q)
      by (now vm_compute).
    remember (inject_Z v / 12700)%Q as x eqn:Hx.
    assert (X1 : (0 <= x)%Q) by lra.
    assert (X2 : (x <= inject_Z v)%Q) by lra.
    destruct (RN_finite x) as (y1 & E1 & F1).
    { rewrite Qabs_pos by exact X1. lra. }
    rewrite (Qabs_pos x X1) in F1.
    pose proof (RN_error_numeric _ _ E1) as B1. rewrite (Qabs_pos x X1) in B1.
    apply Qabs_Qle_condition in B1. destruct B1 as [B1 B1'].
    assert (A : (Qabs (y1 * 2)
                 <= 2 * x + 2 * (x * (1 # 9007199254740992)
                                 + (1 # 1180591620717411303424)))%Q).
    { apply Qabs_Qle_condition. split; lra. }
    destruct (RN_finite (y1 * 2)) as (y2 & E2 & _).
    { eapply Qle_trans; [exact A|]. lra. }
    exists y1, y2. split; [exact E1|]. split; [exact E2|].
    pose proof (RN_error_numeric _ _ E2) as B2.
    apply Qabs_Qle_condition in B2. destruct B2 as [B2 B2'].
    pose proof (Qabs_nonneg (y1 * 2)) as A0.
    rewrite inject_Z_plus. change (inject_Z 1) with 1%Q.
    remember (Qabs (y1 * 2)) as a eqn:Ha.
    remember (inject_Z v) as X eqn:HX. remember (inject_Z j) as J eqn:HJ.
    remember (inject_Z r) as R eqn:HR.
    clear Hx Ha HX HJ HR E1 E2 F1 Big. split; lra.
Qed.

Lemma convert_to_xml_hps_floor v :
  0 <= v < 2 ^ 52 ->
  convert_to_xml ST_HpsMeasure (PyInt v)
  = Ok (PyStr (py_str_of_int (v / 6350))).
Proof.
  intros Hv. cbn [convert_to_xml Emu py_int bind].
  unfold Length.pt, float_of, Length._EMUS_PER_PT, py_int_div_float.
  rewrite py_float_of_int_exact by lia. cbn [bind py_float_div].
  change (Qis_zero (inject_Z 12700)) with false. cbv iota.
  destruct (RN_half_points_floor v Hv) as (y1 & y2 & -> & E2 & B).
  cbn [bind]. unfold py_float_mul_int.
  rewrite py_float_of_int_exact by lia. cbn [bind py_float_mul].
  rewrite E2.
  rewrite (py_int_of_float_floor y2 (v / 6350));
    [reflexivity | apply Z.div_pos; lia | exact B].
Qed.

Lemma from_xml_hps_int k :
  0 <= 6350 * k < 2 ^ 53 ->
  from_xml ST_HpsMeasure (py_str_of_int k) = Ok (PyInt (6350 * k)).
Proof.
  intros H. destruct (no_unit_letters k) as (Ci & Cm & Cn & Cp).
  assert (inject_Z (6350 * k) == 6350 * inject_Z k)%Q as EV
      by (now rewrite inject_Z_mult).
  assert (0 <= k < 2 ^ 53) as Hk by lia.
  assert (-1074 <= -1 <= 0) as Hg by lia.
  assert (0 <= 12700 < 2 ^ 53) as H12700 by lia.
  assert (inject_Z k / 2 == inject_Z k * p2 (-1))%Q as E3.
  { rewrite half_is_p2. field. }
  assert (Qred (inject_Z k / 2) * inject_Z 12700 == inject_Z (6350 * k))%Q as E4.
  { rewrite Qred_correct, EV. change (inject_Z 12700) with 12700%Q. field. }
  unfold from_xml. cbn [convert_from_xml]. rewrite Cm, Cn, Cp. cbn [orb].
  rewrite py_int_of_str_of_int. cbn [bind].
  rewrite (py_int_div_float_dyadic _ 2%Q k (-1) Hk Hk Hg eq_refl E3).
  cbn [bind]. unfold Pt_float, Length._EMUS_PER_PT.
  rewrite (py_float_mul_int_exact _ _ (6350 * k) H12700 H E4).
  cbn [bind]. now rewrite py_int_of_float_int.
Qed.

(** X8: [ST_HpsMeasure] renders a length as its whole number of half-points,
    rounded down: for every EMU value from 0 up to [2^52] the text is the
    decimal numeral of [v // 6350], although it is computed in floats as
    [int(emu.pt * 2)].  Parsing the text back gives the largest multiple of
    6350 EMU that does not exceed the value. *)
Theorem ST_HpsMeasure_renders_whole_half_points v :
  0 <= v < 2 ^ 52 ->
  to_xml ST_HpsMeasure (PyInt v) = Ok (PyStr (py_str_of_int (v / 6350)))
  /\ exists v',
      from_xml ST_HpsMeasure (py_str_of_int (v / 6350)) = Ok (PyInt v')
      /\ v' = 6350 * (v / 6350) /\ v - 6350 < v' <= v
      /\ to_xml ST_HpsMeasure (PyInt v') = to_xml ST_HpsMeasure (PyInt v).
Proof.
  intros Hv.
  assert (R : forall w, 0 <= w < 2 ^ 52 ->
      to_xml ST_HpsMeasure (PyInt w)
      = Ok (PyStr (py_str_of_int (w / 6350)))).
  { intros w Hw. unfold to_xml.
    assert (validate ST_HpsMeasure (PyInt w) = Ok tt) as ->
        by (cbn [validate]; apply in_range_Ok; lia).
    cbn [bind]. now rewrite convert_to_xml_hps_floor. }
  pose proof (Z.div_mod v 6350 ltac:(lia)) as DM.
  pose proof (Z.mod_pos_bound v 6350 ltac:(lia)) as MB.
  split; [now apply R|].
  exists (6350 * (v / 6350)). split; [apply from_xml_hps_int; lia|].
  split; [reflexivity|]. split; [lia|].
  rewrite !R by lia. do 3 f_equal.
  rewrite Z.mul_comm. apply Z.div_mul. lia.
Qed.

Lemma ST_HpsMeasure_renders_whole_half_points_witness :
  to_xml ST_HpsMeasure (PyInt 12699) = Ok (PyStr (py_str_of_int (12699 / 6350)))
  /\ exists v',
      from_xml ST_HpsMeasure (py_str_of_int (12699 / 6350)) = Ok (PyInt v')
      /\ v' = 6350 * (12699 / 6350) /\ 12699 - 6350 < v' <= 12699
      /\ to_xml ST_HpsMeasure (PyInt v') = to_xml ST_HpsMeasure (PyInt 12699).
Proof. apply (ST_HpsMeasure_renders_whole_half_points 12699). lia. Defined.

(** X9: what [ST_OnOff] parses, it renders in the form [XsdBoolean] reads.
    Whatever text [ST_OnOff.from_xml] accepts ("on" and "off" included),
    rendering the result gives "1" or "0", and both [XsdBoolean] and
    [ST_OnOff] parse that text to the same boolean; [XsdBoolean] itself
    refuses "on" and "off". *)
Theorem ST_OnOff_renders_for_XsdBoolean :
  (forall s v,
      from_xml ST_OnOff s = Ok v ->
      exists t,
        to_xml ST_OnOff v = Ok (PyStr t) /\ (t = "1" \/ t = "0")
        /\ from_xml XsdBoolean t = Ok v /\ from_xml ST_OnOff t = Ok v)
  /\ from_xml XsdBoolean "on" = Raise InvalidXmlError
  /\ from_xml XsdBoolean "off" = Raise InvalidXmlError.
Proof.
  split; [|split; reflexivity].
  intros s v. unfold from_xml at 1. cbn [convert_from_xml].
  destruct (negb (str_in s ["1"; "0"; "true"; "false"; "on"; "off"]));
    [discriminate|].
  destruct (str_in s ["1"; "true"; "on"]); intros [= <-];
    [exists "1" | exists "0"]; vm_compute; intuition reflexivity.
Qed.

Lemma ST_OnOff_renders_for_XsdBoolean_witness :
  exists t,
    to_xml ST_OnOff (PyBool true) = Ok (PyStr t) /\ (t = "1" \/ t = "0")
    /\ from_xml XsdBoolean t = Ok (PyBool true)
    /\ from_xml ST_OnOff t = Ok (PyBool true).
Proof.
  apply (proj1 ST_OnOff_renders_for_XsdBoolean "on" (PyBool true)).
  vm_compute. reflexivity.
Defined.

Lemma ST_BorderValue_members_distinct :
  List.length ST_BorderValue_members = 197%nat
  /\ NoDup ST_BorderValue_members.
Proof.
  split; [reflexivity|].
  apply (NoDup_count_occ' string_dec). intros x Hx.
  unfold ST_BorderValue_members in *.
  repeat (destruct Hx as [<-|Hx]; [vm_compute; reflexivity|]).
  destruct Hx.
Qed.

(** X10: an enumeration descriptor accepts its members and nothing else.
    For each of the eight descriptors with a list of allowed strings,
    [to_xml] returns a member unchanged, and [from_xml] gives it back;
    it raises [ValueError] on every other string (the test is an exact,
    case-sensitive comparison) and [TypeError] on everything that is not a
    string, [None] included; the type is checked first.  The 197 names of
    [ST_BorderValue] are distinct. *)
Theorem enumeration_descriptors_accept_members_only :
  (forall cls members v,
      validation_of cls = Enumeration members ->
      match v with
      | PyStr s =>
          (In s members /\ to_xml cls v = Ok (PyStr s)
           /\ from_xml cls s = Ok v)
          \/ (~ In s members /\ to_xml cls v = Raise ValueError)
      | _ => to_xml cls v = Raise TypeError
      end)
  /\ validation_of ST_BorderValue = Enumeration ST_BorderValue_members
  /\ List.length ST_BorderValue_members = 197%nat
  /\ NoDup ST_BorderValue_members.
Proof.
  split; [|split; [reflexivity|exact ST_BorderValue_members_distinct]].
  intros cls members v H.
  destruct cls; cbn [validation_of] in H; try discriminate H;
    injection H as <-;
    (destruct v as [| b | n | s | c]; try reflexivity;
     unfold to_xml, from_xml;
     cbn [validate validate_string_in validate_string bind _members
          convert_to_xml convert_from_xml];
     match goal with
     | |- context [py_in (PyStr s) (map PyStr ?ms)] =>
         destruct (membership_verdict s ms) as [[I E]|[I E]]; rewrite E
     end; [left; repeat split; assumption | right; split; [assumption|]];
     reflexivity).
Qed.

Lemma enumeration_descriptors_accept_members_only_witness :
  (In "dashed" ST_BorderValue_members
   /\ to_xml ST_BorderValue (PyStr "dashed") = Ok (PyStr "dashed")
   /\ from_xml ST_BorderValue "dashed" = Ok (PyStr "dashed"))
  \/ (~ In "dashed" ST_BorderValue_members
      /\ to_xml ST_BorderValue (PyStr "dashed") = Raise ValueError).
Proof.
  apply (proj1 enumeration_descriptors_accept_members_only ST_BorderValue
           ST_BorderValue_members (PyStr "dashed") eq_refl).
Defined.

(** X11: a bounded numeric descriptor checks the type, then the range.
    For each of the fourteen descriptors with a declared range, [validate]
    accepts an integer exactly when it lies between the bounds, both
    included, and raises [ValueError] on every other integer; it accepts
    [True] and [False] (every declared range holds 0 and 1) and raises
    [TypeError] on everything else, whatever the range. *)
Theorem bounded_descriptors_validate_type_then_range cls lo hi v :
  validation_of cls = Bounded lo hi ->
  match v with
  | PyInt n =>
      (lo <= n <= hi /\ validate cls v = Ok tt)
      \/ (~ lo <= n <= hi /\ validate cls v = Raise ValueError)
  | PyBool b => validate cls v = Ok tt
  | _ => validate cls v = Raise TypeError
  end.
Proof.
  intros H.
  destruct cls; cbn [validation_of] in H; try discriminate H;
    injection H as <- <-; cbn [validate];
    (destruct v as [| b | n | s | c]; try reflexivity;
     [destruct b; reflexivity | apply range_verdict]).
Qed.

Lemma bounded_descriptors_validate_type_then_range_witness :
  (0 <= 27273042316901 <= 27273042316900
   /\ validate ST_PositiveCoordinate (PyInt 27273042316901) = Ok tt)
  \/ (~ 0 <= 27273042316901 <= 27273042316900
      /\ validate ST_PositiveCoordinate (PyInt 27273042316901)
         = Raise ValueError).
Proof.
  apply (bounded_descriptors_validate_type_then_range ST_PositiveCoordinate
           0 27273042316900 (PyInt 27273042316901) eq_refl).
Defined.

(** ** Whole numbers of a unit *)

Lemma substring_app_left s u : substring 0 (String.length s) (s ++ u) = s.
Proof.
  induction s as [|c r IH]; simpl; [apply substring_0_0|]. now rewrite IH.
Qed.

Lemma substring_app_right s u :
  substring (String.length s) (String.length u) (s ++ u) = u.
Proof.
  induction s as [|c r IH]; simpl; [|exact IH].
  induction u as [|c r IH]; simpl; [reflexivity|]. now rewrite IH.
Qed.

Lemma slices_of_suffixed s u :
  String.length u = 2%nat ->
  slice_to_m2 (s ++ u) = s /\ slice_from_m2 (s ++ u) = u.
Proof.
  intros H. unfold slice_to_m2, slice_from_m2. rewrite length_app, H.
  replace (String.length s + 2 - 2)%nat with (String.length s) by lia.
  split; [apply substring_app_left|]. rewrite <- H.
  apply substring_app_right.
Qed.

Lemma split_at_all_digits p s :
  (forall c, is_digit c = true -> p c = false) -> all_digits s = true ->
  split_at p s = (s, None).
Proof.
  intros Hp. induction s as [|c r IH]; simpl; [reflexivity|].
  intros H. apply andb_true_iff in H as [Hc Hr].
  now rewrite (Hp c Hc), (IH Hr).
Qed.

Lemma is_digit_not_e c : is_digit c = true -> Ascii.eqb (lower c) "e" = false.
Proof.
  intros H. apply is_digit_cases in H. simpl in H.
  repeat (destruct H as [<-|H]; [reflexivity|]). contradiction.
Qed.

Lemma is_digit_not_point c : is_digit c = true -> Ascii.eqb "." c = false.
Proof.
  intros H. apply is_digit_cases in H. simpl in H.
  repeat (destruct H as [<-|H]; [reflexivity|]). contradiction.
Qed.

(** [float] of the numeral of a natural number below [2^53] is that
    number. *)
Lemma py_float_of_str_numeral n :
  0 <= n < 2 ^ 53 ->
  py_float_of_str (py_str_of_int n) = Ok (Fin (inject_Z n)).
Proof.
  intros Hn.
  assert (py_str_of_int n = udec n) as ->.
  { unfold py_str_of_int. destruct (Z.ltb_spec n 0); [lia|reflexivity]. }
  pose proof (udec_all_digits n ltac:(lia)) as A.
  destruct (udec_head n ltac:(lia)) as (c & r & U & Hc).
  destruct (digitpart_udec n ltac:(lia)) as (k & Dk).
  assert (D : decimal_value (udec n) = Some (inject_Z n * pow10Q (- 0))%Q).
  { unfold decimal_value.
    rewrite (strip_no_space _ (all_digits_no_space _ A)).
    assert (split_sign (udec n) = (false, udec n)) as ->.
    { rewrite U. unfold split_sign.
      apply is_digit_cases in Hc. simpl in Hc.
      repeat (destruct Hc as [<-|Hc]; [reflexivity|]). contradiction. }
    unfold decimal_magnitude.
    rewrite (split_at_all_digits _ _ is_digit_not_e A).
    unfold parse_mantissa.
    rewrite (split_at_all_digits _ _ is_digit_not_point A).
    now rewrite Dk. }
  rewrite (py_float_of_str_decimal _ _ D). f_equal.
  apply RN_exact_int; [exact Hn|].
  change (pow10Q (- 0)) with 1%Q. ring.
Qed.

Lemma unit_factor_code u f :
  unit_factor u = Some f -> In u unit_codes /\ String.length u = 2%nat.
Proof.
  unfold unit_factor, unit_codes.
  repeat match goal with
         | |- context [String.eqb u ?l] =>
             destruct (String.eqb_spec u l) as [->|]
         end; try discriminate; intros _; simpl; split; tauto.
Qed.

(** X12: a whole number of units converts exactly.  For each unit code
    with its factor (36000 for mm, 360000 for cm, 914400 for in, 12700 for
    pt, 152400 for pc and pi) and every natural number [n] with
    [n * factor < 2^53], the text made of the decimal numeral of [n] and the
    unit code is parsed by [ST_UniversalMeasure], and by each of the six
    measure descriptors, to exactly [n * factor] EMU: the float arithmetic
    introduces no error. *)
Theorem whole_units_convert_exactly n u f :
  unit_factor u = Some f -> 0 <= n -> n * f < 2 ^ 53 ->
  from_xml ST_UniversalMeasure (py_str_of_int n ++ u) = Ok (PyInt (n * f))
  /\ forall cls,
      In cls measure_descriptors ->
      from_xml cls (py_str_of_int n ++ u) = Ok (PyInt (n * f)).
Proof.
  intros Hu Hn Hb.
  destruct (unit_factor_code _ _ Hu) as [Hc Hl].
  destruct (slices_of_suffixed (py_str_of_int n) u Hl) as [S1 S2].
  pose proof (unit_factor_bounds _ _ Hu) as Hf.
  assert (U : from_xml ST_UniversalMeasure (py_str_of_int n ++ u)
              = Ok (PyInt (n * f))).
  { unfold from_xml. cbn [convert_from_xml].
    unfold ST_UniversalMeasure_convert_from_xml.
    rewrite unit_factor_multiplier, S1, S2, Hu.
    rewrite py_float_of_str_numeral by nia. cbn [bind].
    rewrite (py_float_mul_int_exact _ f (n * f));
      [|lia|nia|now rewrite inject_Z_mult].
    cbn [bind py_round Qnum Qden inject_Z].
    rewrite <- (Z.mul_1_r (n * f)) at 1.
    rewrite round_half_even_exact by lia. reflexivity. }
  split; [exact U|]. intros cls Hcls. rewrite <- U.
  destruct (unit_code_letters (py_str_of_int n ++ u)) as [A B];
    [now rewrite S2|].
  unfold measure_descriptors in Hcls; simpl in Hcls. unfold from_xml.
  destruct Hcls as [<-|[<-|[<-|[<-|[<-|[<-|[]]]]]]]; cbn [convert_from_xml];
    rewrite ?A, ?B; reflexivity.
Qed.

Lemma whole_units_convert_exactly_witness :
  from_xml ST_UniversalMeasure (py_str_of_int 72 ++ "pt")
  = Ok (PyInt (72 * 12700)).
Proof.
  refine (proj1 (whole_units_convert_exactly 72 "pt" 12700 _ _ _));
    [reflexivity|lia|lia].
Defined.

(** ** Further properties of the border proxies *)

Lemma tag_get_or_add t S e : tag (get_or_add t S e) = tag e.
Proof. unfold get_or_add. now destruct (find_child t e). Qed.

Lemma tag_update_child t f e : tag (update_child t f e) = tag e.
Proof. reflexivity. Qed.

Lemma find_insert_element_before_same t S c l :
  tag c = t ->
  find (fun x => String.eqb (tag x) t) l = None ->
  find (fun x => String.eqb (tag x) t) (insert_element_before c S l) = Some c.
Proof.
  intros Hc N.
  destruct (insert_element_before_split c S l) as (l1 & l2 & E1 & ->).
  apply find_app_hit; [|subst t; apply String.eqb_refl].
  rewrite E1 in N. now apply find_app_none in N.
Qed.

Lemma find_insert_element_before_other t' S c l :
  String.eqb (tag c) t' = false ->
  find (fun x => String.eqb (tag x) t') (insert_element_before c S l)
  = find (fun x => String.eqb (tag x) t') l.
Proof.
  intros Hc. induction l as [|x l IH]; simpl.
  - now rewrite Hc.
  - destruct (str_in (tag x) S); simpl.
    + now rewrite Hc.
    + now rewrite IH.
Qed.

Lemma find_child_get_or_add_same t S e :
  find_child t (get_or_add t S e) = Some (existing_or_new t e).
Proof.
  unfold get_or_add, existing_or_new.
  destruct (find_child t e) as [c|] eqn:F; [exact F|].
  unfold find_child, with_children. cbn [children].
  now apply find_insert_element_before_same.
Qed.

Lemma find_child_get_or_add_other t t' S e :
  String.eqb t t' = false ->
  find_child t' (get_or_add t S e) = find_child t' e.
Proof.
  intros H. unfold get_or_add.
  destruct (find_child t e) as [c|] eqn:F; [reflexivity|].
  unfold find_child, with_children. cbn [children].
  now apply find_insert_element_before_other.
Qed.

Lemma find_update_first_same t f l :
  (forall c, tag c = t -> tag (f c) = t) ->
  find (fun x => String.eqb (tag x) t) (update_first t f l)
  = option_map f (find (fun x => String.eqb (tag x) t) l).
Proof.
  intros Hf. induction l as [|x l IH]; simpl; [reflexivity|].
  destruct (String.eqb_spec (tag x) t) as [E|E]; simpl.
  - rewrite (Hf x E). now rewrite String.eqb_refl.
  - destruct (String.eqb_spec (tag x) t); [contradiction|]. exact IH.
Qed.

Lemma find_update_first_other t t' f l :
  String.eqb t t' = false ->
  (forall c, tag c = t -> tag (f c) = t) ->
  find (fun x => String.eqb (tag x) t') (update_first t f l)
  = find (fun x => String.eqb (tag x) t') l.
Proof.
  intros H Hf. induction l as [|x l IH]; simpl; [reflexivity|].
  destruct (String.eqb_spec (tag x) t) as [E|E]; simpl.
  - rewrite (Hf x E), E, H. reflexivity.
  - now rewrite IH.
Qed.

Lemma find_child_update_child_same t f e :
  (forall c, tag c = t -> tag (f c) = t) ->
  find_child t (update_child t f e) = option_map f (find_child t e).
Proof. intros Hf. now apply find_update_first_same. Qed.

Lemma find_child_update_child_other t t' f e :
  String.eqb t t' = false ->
  (forall c, tag c = t -> tag (f c) = t) ->
  find_child t' (update_child t f e) = find_child t' e.
Proof. intros H Hf. now apply find_update_first_other. Qed.

Lemma tag_find_child t e c : find_child t e = Some c -> tag c = t.
Proof.
  unfold find_child. intros H. apply find_some in H as [_ H].
  now apply String.eqb_eq.
Qed.

Lemma tag_existing_or_new t e : tag (existing_or_new t e) = t.
Proof.
  unfold existing_or_new. destruct (find_child t e) eqn:F; [|reflexivity].
  now apply tag_find_child in F.
Qed.

Lemma read_pBdr_in_pBdr h q :
  (forall c, tag c = "w:pBdr" -> tag (h c) = "w:pBdr") ->
  read_pBdr (in_pBdr h q) = option_map h (read_pBdr q).
Proof.
  intros Hh. unfold read_pBdr, in_pBdr.
  rewrite find_child_update_child_same by (intros c Hc; exact Hc).
  destruct (find_child "w:pPr" q) as [pPr|]; [|reflexivity].
  cbn [option_map]. now apply find_child_update_child_same.
Qed.

Lemma read_pBdr_existing_or_new p :
  match read_pBdr p with
  | Some pBdr => pBdr_after_ensure p = pBdr
  | None => pBdr_after_ensure p = Element "w:pBdr" [] []
  end.
Proof.
  unfold read_pBdr, pBdr_after_ensure, existing_or_new.
  destruct (find_child "w:pPr" p) as [pPr|]; [|reflexivity].
  now destruct (find_child "w:pBdr" pPr).
Qed.

Lemma read_pBdr_ensure_side S1 S2 t p :
  read_pBdr (ensure_side S1 S2 t p)
  = Some (get_or_add t (CT_PBdr.successors t) (pBdr_after_ensure p)).
Proof.
  unfold ensure_side.
  rewrite read_pBdr_in_pBdr by (intros c Hc; now rewrite tag_get_or_add).
  unfold read_pBdr.
  rewrite find_child_update_child_same
    by (intros c Hc; now rewrite tag_get_or_add).
  rewrite find_child_get_or_add_same. cbn [option_map].
  now rewrite find_child_get_or_add_same.
Qed.

Lemma find_child_pBdr_after_ensure t p :
  find_child t (pBdr_after_ensure p) = read_side t p.
Proof.
  unfold read_side. pose proof (read_pBdr_existing_or_new p) as H.
  destruct (read_pBdr p) as [pBdr|]; rewrite H; reflexivity.
Qed.

Lemma read_side_ensure_side_same S1 S2 t p :
  read_side t (ensure_side S1 S2 t p) = Some (side_after_ensure t p).
Proof.
  unfold read_side. rewrite read_pBdr_ensure_side.
  now rewrite find_child_get_or_add_same.
Qed.

Lemma read_side_ensure_side_other S1 S2 t t' p :
  String.eqb t t' = false ->
  read_side t' (ensure_side S1 S2 t p) = read_side t' p.
Proof.
  intros H. unfold read_side at 1. rewrite read_pBdr_ensure_side.
  rewrite find_child_get_or_add_other by exact H.
  apply find_child_pBdr_after_ensure.
Qed.

Lemma side_after_ensure_existing t p c :
  read_side t p = Some c -> side_after_ensure t p = c.
Proof.
  intros H. unfold side_after_ensure, existing_or_new.
  now rewrite find_child_pBdr_after_ensure, H.
Qed.

Lemma side_after_ensure_new t p :
  read_side t p = None -> side_after_ensure t p = Element t [] [].
Proof.
  intros H. unfold side_after_ensure, existing_or_new.
  now rewrite find_child_pBdr_after_ensure, H.
Qed.

Lemma read_side_put_side_same t side q :
  tag side = t ->
  read_side t (put_side t side q)
  = option_map (fun _ => side) (read_side t q).
Proof.
  intros Hs. unfold read_side, put_side.
  rewrite read_pBdr_in_pBdr by (intros c Hc; exact Hc).
  destruct (read_pBdr q) as [pBdr|]; [|reflexivity]. cbn [option_map].
  now apply find_child_update_child_same.
Qed.

Lemma read_side_put_side_other t t' side q :
  tag side = t -> String.eqb t t' = false ->
  read_side t' (put_side t side q) = read_side t' q.
Proof.
  intros Hs H. unfold read_side, put_side.
  rewrite read_pBdr_in_pBdr by (intros c Hc; exact Hc).
  destruct (read_pBdr q) as [pBdr|]; [|reflexivity]. cbn [option_map].
  now apply find_child_update_child_other.
Qed.

(** *** The state after a write *)

Lemma nth_error_with_paragraph_same i q s p :
  nth_error (elements s) i = Some p ->
  nth_error (elements (with_paragraph i q s)) i = Some q.
Proof. intros N. unfold with_paragraph. cbn [elements]. now apply (nth_error_set _ _ _ p). Qed.

Lemma nth_error_list_update_other {A} (f : A -> A) l : forall i j,
  i <> j -> nth_error (list_update i f l) j = nth_error l j.
Proof.
  induction l as [|x l IH]; intros [|i] [|j] H; simpl; try reflexivity;
    try congruence.
  apply IH. congruence.
Qed.

Lemma nth_error_with_paragraph_other i j q s :
  i <> j ->
  nth_error (elements (with_paragraph i q s)) j = nth_error (elements s) j.
Proof. intros H. now apply nth_error_list_update_other. Qed.

Lemma with_paragraph_twice i q q' s :
  with_paragraph i q (with_paragraph i q' s) = with_paragraph i q s.
Proof.
  unfold with_paragraph. cbn [elements facade].
  now rewrite list_update_set_twice.
Qed.

Lemma modify_element_with_paragraph i f s p :
  nth_error (elements s) i = Some p ->
  modify_element i f s = Return tt (with_paragraph i (f p) s).
Proof. apply modify_element_at. Qed.

Lemma side_tag_sides side :
  In side border_sides -> side_tag side = Ok ("w:" ++ side)%string.
Proof.
  unfold border_sides. simpl. intros [<-|[<-|[<-|[<-|[]]]]]; reflexivity.
Qed.

Section BorderState.

Variable pPrS pBdrS : list string.

Lemma _get_side_element_at i side s p :
  nth_error (elements s) i = Some p -> In side border_sides ->
  _get_side_element (mkBorderSide i side) s
  = Return (read_side ("w:" ++ side) p) s.
Proof.
  intros N Hs. unfold _get_side_element, mbind. cbn [_element _side].
  rewrite (get_element_at _ _ _ N). unfold read_side, read_pBdr.
  destruct (find_child "w:pPr" p) as [pPr|]; [|reflexivity].
  destruct (find_child "w:pBdr" pPr) as [pBdr|]; [|reflexivity].
  unfold _get_side_element_from_pBdr. cbn [_side].
  now rewrite (side_tag_sides _ Hs).
Qed.

Lemma _get_or_add_side_element_at i side s p :
  nth_error (elements s) i = Some p -> In side border_sides ->
  _get_or_add_side_element pPrS pBdrS (mkBorderSide i side) s
  = Return ("w:" ++ side)%string
      (with_paragraph i (ensure_side pPrS pBdrS ("w:" ++ side) p) s).
Proof.
  intros N Hs. unfold _get_or_add_side_element, mbind. cbn [_element _side].
  rewrite (get_element_at _ _ _ N). cbv beta iota.
  rewrite (modify_element_with_paragraph _ _ _ _ N). cbv beta iota.
  rewrite (modify_element_with_paragraph _ _ _ _
             (nth_error_with_paragraph_same _ _ _ _ N)).
  cbv beta iota. rewrite with_paragraph_twice.
  rewrite (side_tag_sides _ Hs). cbn [lift ret]. cbv beta iota.
  rewrite (modify_element_with_paragraph _ _ _ _
             (nth_error_with_paragraph_same _ _ _ _ N)).
  cbv beta iota. rewrite with_paragraph_twice. reflexivity.
Qed.

Lemma side_element_at i t s p c :
  nth_error (elements s) i = Some p -> read_side t p = Some c ->
  side_element i t s = Return c s.
Proof.
  intros N R. unfold side_element, mbind. rewrite (get_element_at _ _ _ N).
  unfold read_side, read_pBdr in R.
  destruct (find_child "w:pPr" p) as [pPr|]; [|discriminate].
  destruct (find_child "w:pBdr" pPr) as [pBdr|]; [|discriminate].
  now rewrite R.
Qed.

(** A write creates what is missing on the way to the side element, then
    assigns: when the assignment is refused, the created elements stay. *)
Lemma BorderSide_set_at a i side v s p :
  nth_error (elements s) i = Some p -> In side border_sides ->
  BorderSide_set pPrS pBdrS a (mkBorderSide i side) v s
  = match attr_set a (side_after_ensure ("w:" ++ side) p) v with
    | Ok side' =>
        Return tt
          (with_paragraph i
             (put_side ("w:" ++ side) side'
                (ensure_side pPrS pBdrS ("w:" ++ side) p)) s)
    | Raise e =>
        Throw e
          (with_paragraph i (ensure_side pPrS pBdrS ("w:" ++ side) p) s)
    end.
Proof.
  intros N Hs. unfold BorderSide_set. unfold mbind at 1.
  rewrite (_get_or_add_side_element_at _ _ _ _ N Hs). cbv beta iota.
  cbn [_element]. unfold mbind at 1.
  pose proof (nth_error_with_paragraph_same i
                (ensure_side pPrS pBdrS ("w:" ++ side) p) s p N) as N'.
  rewrite (side_element_at _ _ _ _ _ N'
             (read_side_ensure_side_same _ _ _ _)).
  cbv beta iota. unfold mbind.
  destruct (attr_set a (side_after_ensure ("w:" ++ side) p) v) as [side'|e];
    cbn [lift ret throw]; [|reflexivity].
  rewrite (modify_element_with_paragraph _ _ _ _ N').
  now rewrite with_paragraph_twice.
Qed.

Lemma BorderSide_get_at a i side s p :
  nth_error (elements s) i = Some p -> In side border_sides ->
  BorderSide_get a (mkBorderSide i side) s
  = match read_side ("w:" ++ side) p with
    | None => Return PyNone s
    | Some e => lift (attr_get a e) s
    end.
Proof.
  intros N Hs. unfold BorderSide_get, mbind.
  rewrite (_get_side_element_at _ _ _ _ N Hs).
  now destruct (read_side ("w:" ++ side) p).
Qed.

End BorderState.

Lemma get_set_attribute name text a :
  get_attribute name (set_attribute name text a) = Some text.
Proof.
  induction a as [|[k v] r IH]; simpl.
  - now rewrite String.eqb_refl.
  - destruct (String.eqb k name) eqn:E; simpl; now rewrite E.
Qed.

Lemma get_set_attribute_other name name' text a :
  String.eqb name name' = false ->
  get_attribute name' (set_attribute name text a) = get_attribute name' a.
Proof.
  intros H. induction a as [|[k v] r IH]; simpl.
  - now rewrite H.
  - destruct (String.eqb_spec k name) as [->|E]; simpl.
    + now rewrite H.
    + now rewrite IH.
Qed.

Lemma get_remove_attribute_other name name' a :
  String.eqb name name' = false ->
  get_attribute name' (remove_attribute name a) = get_attribute name' a.
Proof.
  intros H. induction a as [|[k v] r IH]; simpl; [reflexivity|].
  destruct (String.eqb_spec k name) as [->|E]; simpl.
  - now rewrite H.
  - now rewrite IH.
Qed.

Lemma get_remove_attribute name a :
  NoDup (map fst a) -> get_attribute name (remove_attribute name a) = None.
Proof.
  induction a as [|[k v] r IH]; simpl; [reflexivity|]. intros D.
  inversion D as [|? ? Hk D']; subst.
  destruct (String.eqb_spec k name) as [->|E]; simpl.
  - clear IH D D'. induction r as [|[k' v'] r IH]; simpl; [reflexivity|].
    destruct (String.eqb_spec k' name) as [->|E].
    + exfalso. apply Hk. simpl. now left.
    + apply IH. intros H. apply Hk. simpl. now right.
  - destruct (String.eqb_spec k name); [contradiction|]. now apply IH.
Qed.

Lemma tag_attr_set a c v c' : attr_set a c v = Ok c' -> tag c' = tag c.
Proof.
  unfold attr_set.
  destruct (attr_presence a), v; try (intros [= <-]; reflexivity);
    destruct (to_xml (attr_type a) _) as [[| | | x |]|]; try discriminate;
    intros [= <-]; reflexivity.
Qed.

(** What [attr_set] does with a value the descriptor renders. *)
Lemma attr_set_rendered a c v text :
  to_xml (attr_type a) v = Ok (PyStr text) ->
  In a side_attributes ->
  attr_set a c v
  = Ok (with_attrib (set_attribute (attr_name a) text (attrib c)) c).
Proof.
  intros H Ha. unfold attr_set. rewrite H.
  unfold side_attributes in Ha. simpl in Ha.
  destruct Ha as [<-|[<-|[<-|[<-|[<-|[]]]]]]; try reflexivity.
  destruct v; try reflexivity. discriminate H.
Qed.

(** What [attr_set] does with a value the descriptor refuses. *)
Lemma attr_set_refused a c v e :
  to_xml (attr_type a) v = Raise e ->
  attr_presence a = Required \/ v <> PyNone ->
  attr_set a c v = Raise e.
Proof.
  intros H Hv. unfold attr_set. rewrite H.
  destruct (attr_presence a); [reflexivity|].
  destruct v; try reflexivity. destruct Hv as [Hv|Hv]; [discriminate|].
  now destruct Hv.
Qed.

(** X13: a property written to a border side is the property read from it.
    On any paragraph, with or without [w:pPr], [w:pBdr] or the side's
    element, a value that the property's descriptor renders as [text] is
    written without an exception, and reading the property afterwards gives
    what the descriptor parses from [text]; the style is read back as the
    very string written and the colour as the very colour.  Writing [None]
    to [shadow] makes it read [None]. *)
Theorem BorderSide_write_then_read pPrS pBdrS s i p side :
  nth_error (elements s) i = Some p -> In side border_sides ->
  (forall a v text,
      In a side_attributes ->
      to_xml (attr_type a) v = Ok (PyStr text) ->
      exists s',
        BorderSide_set pPrS pBdrS a (mkBorderSide i side) v s = Return tt s'
        /\ BorderSide_get a (mkBorderSide i side) s'
           = lift (from_xml (attr_type a) text) s')
  /\ (forall v,
      validate ST_BorderValue v = Ok tt ->
      exists s',
        BorderSide_set_val pPrS pBdrS (mkBorderSide i side) v s = Return tt s'
        /\ BorderSide_val (mkBorderSide i side) s' = Return v s')
  /\ (forall c,
      exists s',
        BorderSide_set_color pPrS pBdrS (mkBorderSide i side) (PyColor c) s
        = Return tt s'
        /\ BorderSide_color (mkBorderSide i side) s' = Return (PyColor c) s')
  /\ ((forall c, read_side ("w:" ++ side) p = Some c ->
                 NoDup (map fst (attrib c))) ->
      exists s',
        BorderSide_set_shadow pPrS pBdrS (mkBorderSide i side) PyNone s
        = Return tt s'
        /\ BorderSide_shadow (mkBorderSide i side) s' = Return PyNone s').
Proof.
  intros N Hs.
  set (t := ("w:" ++ side)%string).
  set (p1 := ensure_side pPrS pBdrS t p).
  assert (G : forall a v text,
      In a side_attributes ->
      to_xml (attr_type a) v = Ok (PyStr text) ->
      exists s',
        BorderSide_set pPrS pBdrS a (mkBorderSide i side) v s = Return tt s'
        /\ BorderSide_get a (mkBorderSide i side) s'
           = lift (from_xml (attr_type a) text) s').
  { intros a v text Ha Hv.
    rewrite (BorderSide_set_at _ _ _ _ _ _ _ _ N Hs). fold t. fold p1.
    rewrite (attr_set_rendered _ _ _ _ Hv Ha).
    set (c' := with_attrib _ _). eexists. split; [reflexivity|].
    assert (tag c' = t) as Tc by (apply tag_existing_or_new).
    rewrite (BorderSide_get_at _ _ _ _ _
               (nth_error_with_paragraph_same _ _ _ _ N) Hs).
    fold t. rewrite (read_side_put_side_same _ _ _ Tc). unfold p1.
    rewrite read_side_ensure_side_same. cbn [option_map].
    unfold attr_get, c'. cbn [attrib with_attrib].
    now rewrite get_set_attribute. }
  split; [exact G|]. split; [|split].
  - intros v V.
    assert (exists x, v = PyStr x) as (x & ->).
    { cbn [validate] in V. destruct v; try discriminate V. eauto. }
    destruct (G CT_BorderSide.val (PyStr x) x) as (s' & E1 & E2).
    + unfold side_attributes; simpl; tauto.
    + unfold to_xml. cbn [attr_type CT_BorderSide.val RequiredAttribute].
      now rewrite V.
    + exists s'. split; [exact E1|]. exact E2.
  - intros c.
    destruct (G CT_BorderSide.color (PyColor c) (RGBColor_hex c))
      as (s' & E1 & E2).
    + unfold side_attributes; simpl; tauto.
    + reflexivity.
    + exists s'. split; [exact E1|].
      unfold BorderSide_color. rewrite E2.
      cbn [attr_type CT_BorderSide.color RequiredAttribute].
      unfold from_xml. cbn [convert_from_xml].
      rewrite RGBColor_hex_not_auto, RGBColor_from_string_hex. reflexivity.
  - intros D. unfold BorderSide_set_shadow, BorderSide_shadow.
    rewrite (BorderSide_set_at _ _ _ _ _ _ _ _ N Hs). fold t. fold p1.
    cbn [attr_set attr_presence CT_BorderSide.shadow OptionalAttribute].
    set (c' := with_attrib _ _). eexists. split; [reflexivity|].
    assert (tag c' = t) as Tc by (apply tag_existing_or_new).
    rewrite (BorderSide_get_at _ _ _ _ _
               (nth_error_with_paragraph_same _ _ _ _ N) Hs).
    fold t. rewrite (read_side_put_side_same _ _ _ Tc). unfold p1.
    rewrite read_side_ensure_side_same. cbn [option_map].
    unfold attr_get, c'. cbn [attrib with_attrib attr_name].
    rewrite get_remove_attribute; [reflexivity|].
    destruct (read_side t p) as [c|] eqn:R.
    + rewrite (side_after_ensure_existing _ _ _ R). now apply D.
    + rewrite (side_after_ensure_new _ _ R). constructor.
Qed.

Lemma BorderSide_write_then_read_witness :
  exists s',
    BorderSide_set_val ["w:r"] [] (mkBorderSide 0 "left") (PyStr "dotted")
      bordered_paragraphs = Return tt s'
    /\ BorderSide_val (mkBorderSide 0 "left") s' = Return (PyStr "dotted") s'.
Proof.
  apply (proj1 (proj2 (BorderSide_write_then_read ["w:r"] []
                         bordered_paragraphs 0 _ "left" eq_refl
                         (or_intror (or_introl eq_refl))))
           (PyStr "dotted")).
  vm_compute. reflexivity.
Defined.

Lemma other_children_update_child t f e :
  (forall c, tag c = t -> tag (f c) = t) ->
  other_children t (update_child t f e) = other_children t e.
Proof.
  intros Hf. unfold other_children, update_child, with_children.
  cbn [children]. induction (children e) as [|x l IH]; simpl; [reflexivity|].
  destruct (String.eqb_spec (tag x) t) as [E|E]; simpl.
  - rewrite (Hf x E), String.eqb_refl. reflexivity.
  - destruct (String.eqb_spec (tag x) t); [contradiction|]. simpl.
    now rewrite IH.
Qed.

Lemma other_children_get_or_add t S e :
  other_children t (get_or_add t S e) = other_children t e.
Proof.
  unfold get_or_add. destruct (find_child t e); [reflexivity|].
  unfold other_children, with_children. cbn [children].
  induction (children e) as [|x l IH]; simpl.
  - now rewrite String.eqb_refl.
  - destruct (str_in (tag x) S); simpl.
    + now rewrite String.eqb_refl.
    + now rewrite IH.
Qed.

Lemma attrib_get_or_add t S e : attrib (get_or_add t S e) = attrib e.
Proof. unfold get_or_add. now destruct (find_child t e). Qed.

Lemma paragraph_after_ensure_side S1 S2 t p :
  tag (ensure_side S1 S2 t p) = tag p
  /\ attrib (ensure_side S1 S2 t p) = attrib p
  /\ other_children "w:pPr" (ensure_side S1 S2 t p) = other_children "w:pPr" p.
Proof.
  unfold ensure_side, in_pBdr. repeat split.
  - cbn [tag update_child with_children]. apply tag_get_or_add.
  - cbn [attrib update_child with_children]. apply attrib_get_or_add.
  - rewrite !other_children_update_child
      by (intros c Hc; rewrite ?tag_update_child, ?tag_get_or_add; exact Hc).
    apply other_children_get_or_add.
Qed.

Lemma paragraph_after_put_side t side q :
  tag (put_side t side q) = tag q
  /\ attrib (put_side t side q) = attrib q
  /\ other_children "w:pPr" (put_side t side q) = other_children "w:pPr" q.
Proof.
  unfold put_side, in_pBdr. repeat split.
  now rewrite other_children_update_child by (intros c Hc; exact Hc).
Qed.

(** Reading a property looks at nothing but the proxy's own paragraph. *)
Lemma BorderSide_get_ext b self s1 s2 :
  nth_error (elements s1) (_element self)
  = nth_error (elements s2) (_element self) ->
  value_of (BorderSide_get b self s1) = value_of (BorderSide_get b self s2).
Proof.
  intros E. unfold BorderSide_get, _get_side_element, mbind, get_element.
  rewrite E. destruct (nth_error (elements s2) (_element self)) as [q|];
    [|reflexivity].
  destruct (find_child "w:pPr" q) as [pPr|]; [|reflexivity].
  destruct (find_child "w:pBdr" pPr) as [pBdr|]; [|reflexivity].
  destruct (_get_side_element_from_pBdr self pBdr) as [[c|]|e];
    cbn [lift ret throw]; try reflexivity.
  destruct (attr_get b c); reflexivity.
Qed.

Lemma side_tags_differ side side' :
  side <> side' -> String.eqb ("w:" ++ side) ("w:" ++ side') = false.
Proof.
  intros H. apply String.eqb_neq. intros E. apply H.
  simpl in E. now injection E.
Qed.

Lemma attr_set_cases a c v c' :
  attr_set a c v = Ok c' ->
  (exists text,
      c' = with_attrib (set_attribute (attr_name a) text (attrib c)) c)
  \/ c' = with_attrib (remove_attribute (attr_name a) (attrib c)) c.
Proof.
  unfold attr_set.
  destruct (attr_presence a), v; try (intros [= <-]; now right);
    destruct (to_xml (attr_type a) _) as [[| | | x |]|]; try discriminate;
    intros [= <-]; left; eauto.
Qed.

Lemma attr_get_after_attr_set a b c v c' :
  attr_set a c v = Ok c' -> attr_name a <> attr_name b ->
  attr_get b c' = attr_get b c.
Proof.
  intros H Hn. apply String.eqb_neq in Hn. unfold attr_get.
  destruct (attr_set_cases _ _ _ _ H) as [(text & ->)| ->];
    cbn [attrib with_attrib].
  - now rewrite get_set_attribute_other.
  - now rewrite get_remove_attribute_other.
Qed.

(** X14: what a write to a border side leaves alone.  Whether the write is
    accepted or refused, it changes neither the facade nor any other
    paragraph; of its own paragraph it keeps the tag, the attributes and
    every child other than [w:pPr], in their order; the properties of the
    other sides read as before, and so do the other properties of the same
    side when its element existed. *)
Theorem BorderSide_write_frame pPrS pBdrS s i p side a v :
  nth_error (elements s) i = Some p -> In side border_sides ->
  let s' :=
    final_state (BorderSide_set pPrS pBdrS a (mkBorderSide i side) v s) in
  facade s' = facade s
  /\ (forall j, j <> i ->
                nth_error (elements s') j = nth_error (elements s) j)
  /\ (exists p',
        nth_error (elements s') i = Some p' /\ tag p' = tag p
        /\ attrib p' = attrib p
        /\ other_children "w:pPr" p' = other_children "w:pPr" p)
  /\ (forall b j side',
        In side' border_sides -> j <> i \/ side' <> side ->
        value_of (BorderSide_get b (mkBorderSide j side') s')
        = value_of (BorderSide_get b (mkBorderSide j side') s))
  /\ (forall b,
        attr_name a <> attr_name b ->
        read_side ("w:" ++ side) p <> None ->
        value_of (BorderSide_get b (mkBorderSide i side) s')
        = value_of (BorderSide_get b (mkBorderSide i side) s)).
Proof.
  intros N Hs s'.
  set (t := ("w:" ++ side)%string).
  set (p1 := ensure_side pPrS pBdrS t p).
  set (c := side_after_ensure t p).
  assert (Tc : tag c = t) by apply tag_existing_or_new.
  assert (S' : exists p', s' = with_paragraph i p' s
             /\ (p' = p1 \/ exists c', attr_set a c v = Ok c'
                                        /\ p' = put_side t c' p1)).
  { unfold s'. rewrite (BorderSide_set_at _ _ _ _ _ _ _ _ N Hs).
    fold t. fold p1. fold c.
    destruct (attr_set a c v) as [c'|e] eqn:E; cbn [final_state].
    - exists (put_side t c' p1). split; [reflexivity|]. right. eauto.
    - exists p1. split; [reflexivity|]. now left. }
  destruct S' as (p' & -> & Hp'). unfold p1 in Hp'. clear p1.
  destruct (paragraph_after_ensure_side pPrS pBdrS t p) as (T1 & A1 & O1).
  assert (R1 : forall t', String.eqb t t' = false ->
                          read_side t' p' = read_side t' p).
  { intros t' Ht.
    destruct Hp' as [->|(c' & E & ->)].
    - now apply read_side_ensure_side_other.
    - rewrite read_side_put_side_other;
        [now apply read_side_ensure_side_other
        | rewrite (tag_attr_set _ _ _ _ E); exact Tc | exact Ht]. }
  pose proof (nth_error_with_paragraph_same i p' s p N) as N'.
  split; [reflexivity|]. split; [|split; [|split]].
  - intros j Hj. apply nth_error_with_paragraph_other. congruence.
  - exists p'. split; [exact N'|].
    destruct Hp' as [->|(c' & E & ->)]; [now repeat split|].
    destruct (paragraph_after_put_side t c'
                (ensure_side pPrS pBdrS t p)) as (T2 & A2 & O2).
    repeat split; congruence.
  - intros b j side' Hs' [Hj|Hside].
    + apply BorderSide_get_ext. cbn [_element].
      apply nth_error_with_paragraph_other. congruence.
    + destruct (Nat.eq_dec j i) as [->|Hj];
        [|apply BorderSide_get_ext; cbn [_element];
          apply nth_error_with_paragraph_other; congruence].
      rewrite (BorderSide_get_at _ _ _ _ _ N' Hs'),
        (BorderSide_get_at _ _ _ _ _ N Hs').
      rewrite R1 by (apply side_tags_differ; congruence).
      destruct (read_side ("w:" ++ side') p) as [e|]; [|reflexivity].
      destruct (attr_get b e); reflexivity.
  - intros b Hb Hr.
    rewrite (BorderSide_get_at _ _ _ _ _ N' Hs),
      (BorderSide_get_at _ _ _ _ _ N Hs). fold t.
    destruct (read_side t p) as [c0|] eqn:R; [|now destruct Hr].
    assert (c = c0) as Ec by (apply side_after_ensure_existing; exact R).
    destruct Hp' as [->|(c' & E & ->)].
    + rewrite read_side_ensure_side_same. fold c. rewrite Ec.
      destruct (attr_get b c0); reflexivity.
    + rewrite read_side_put_side_same
        by (rewrite (tag_attr_set _ _ _ _ E); exact Tc).
      rewrite read_side_ensure_side_same. cbn [option_map].
      rewrite (attr_get_after_attr_set _ _ _ _ _ E Hb), Ec.
      destruct (attr_get b c0); reflexivity.
Qed.

Lemma BorderSide_write_frame_witness :
  facade (final_state
            (BorderSide_set ["w:r"] [] CT_BorderSide.val
               (mkBorderSide 0 "left") (PyStr "dotted") bordered_paragraphs))
  = facade bordered_paragraphs.
Proof.
  apply (proj1 (BorderSide_write_frame ["w:r"] [] bordered_paragraphs 0 _
                  "left" CT_BorderSide.val (PyStr "dotted") eq_refl
                  (or_intror (or_introl eq_refl)))).
Defined.

(** X15: a refused write is not undone.  The setter of a property first
    gets or adds the side element and only then assigns, so when the
    descriptor refuses the value the exception of the descriptor comes out
    after [w:pPr], [w:pBdr] and the side element have been created.  A side
    element that existed is left as it was; where there was none, an empty
    one is there afterwards, and the side's properties, which read [None]
    before the refused write, then raise [InvalidXmlError] when required and
    read [None] when optional. *)
Theorem BorderSide_refused_write_creates_side pPrS pBdrS s i p side a v e :
  nth_error (elements s) i = Some p -> In side border_sides ->
  to_xml (attr_type a) v = Raise e ->
  attr_presence a = Required \/ v <> PyNone ->
  let self := mkBorderSide i side in
  exists s',
    BorderSide_set pPrS pBdrS a self v s = Throw e s'
    /\ s' = with_paragraph i (ensure_side pPrS pBdrS ("w:" ++ side) p) s
    /\ (forall c, read_side ("w:" ++ side) p = Some c ->
                  _get_side_element self s' = Return (Some c) s')
    /\ (read_side ("w:" ++ side) p = None ->
        _get_side_element self s = Return None s
        /\ _get_side_element self s'
           = Return (Some (Element ("w:" ++ side) [] [])) s'
        /\ forall b,
            BorderSide_get b self s = Return PyNone s
            /\ BorderSide_get b self s'
               = match attr_presence b with
                 | Required => Throw InvalidXmlError s'
                 | Optional => Return PyNone s'
                 end).
Proof.
  intros N Hs Hv Hn self. unfold self.
  set (t := ("w:" ++ side)%string).
  eexists. split; [|split; [reflexivity|]].
  - rewrite (BorderSide_set_at _ _ _ _ _ _ _ _ N Hs). fold t.
    now rewrite (attr_set_refused _ _ _ _ Hv Hn).
  - pose proof (nth_error_with_paragraph_same i
                  (ensure_side pPrS pBdrS t p) s p N) as N'.
    split.
    + intros c R. rewrite (_get_side_element_at _ _ _ _ N' Hs). fold t.
      rewrite read_side_ensure_side_same.
      now rewrite (side_after_ensure_existing _ _ _ R).
    + intros R. split; [|split].
      * rewrite (_get_side_element_at _ _ _ _ N Hs). fold t. now rewrite R.
      * rewrite (_get_side_element_at _ _ _ _ N' Hs). fold t.
        rewrite read_side_ensure_side_same.
        now rewrite (side_after_ensure_new _ _ R).
      * intros b. split.
        -- rewrite (BorderSide_get_at _ _ _ _ _ N Hs). fold t. now rewrite R.
        -- rewrite (BorderSide_get_at _ _ _ _ _ N' Hs). fold t.
           rewrite read_side_ensure_side_same.
           rewrite (side_after_ensure_new _ _ R).
           unfold attr_get. cbn [attrib get_attribute].
           now destruct (attr_presence b).
Qed.

Lemma BorderSide_refused_write_creates_side_witness :
  exists s',
    BorderSide_set ["w:r"] [] CT_BorderSide.val (mkBorderSide 2 "top")
      (PyStr "Single") bordered_paragraphs = Throw ValueError s'
    /\ s' = with_paragraph 2
              (ensure_side ["w:r"] [] "w:top"
                 (Element "w:p" [] [Element "w:r" [] []]))
              bordered_paragraphs.
Proof.
  destruct (BorderSide_refused_write_creates_side ["w:r"] []
              bordered_paragraphs 2 _ "top" CT_BorderSide.val
              (PyStr "Single") ValueError eq_refl (or_introl eq_refl)
              eq_refl (or_introl eq_refl)) as (s' & E1 & E2 & _).
  exists s'. split; [exact E1 | exact E2].
Defined.

(** *** The order of the sides *)

Lemma tags_follow_nil seq : tags_follow seq [] = true.
Proof. now destruct seq. Qed.

Lemma tags_follow_head seq : forall c r,
  tags_follow seq (c :: r) = true -> In (tag c) seq.
Proof.
  induction seq as [|t seq IH]; intros c r H; simpl in H; [discriminate|].
  destruct (String.eqb_spec (tag c) t) as [E|E].
  - now left.
  - right. now apply (IH c r).
Qed.

Lemma str_in_true s l : In s l -> str_in s l = true.
Proof. intros H. now apply str_in_In. Qed.

Lemma str_in_false s l : ~ In s l -> str_in s l = false.
Proof.
  intros H. destruct (str_in s l) eqn:E; [|reflexivity].
  apply str_in_In in E. contradiction.
Qed.

Lemma tags_follow_insert child t post : forall pre l,
  NoDup (pre ++ t :: post) -> tag child = t ->
  find (fun x => String.eqb (tag x) t) l = None ->
  tags_follow (pre ++ t :: post) l = true ->
  tags_follow (pre ++ t :: post) (insert_element_before child post l) = true.
Proof.
  intros pre. induction pre as [|a pre IH]; intros l D Hc F H.
  - cbn [app] in *. destruct l as [|c r].
    + simpl. rewrite Hc, String.eqb_refl. apply tags_follow_nil.
    + simpl in F. destruct (String.eqb (tag c) t) eqn:E; [discriminate|].
      simpl in H. rewrite E in H.
      cbn [insert_element_before].
      rewrite (str_in_true _ _ (tags_follow_head _ _ _ H)).
      simpl. rewrite Hc, String.eqb_refl. exact H.
  - cbn [app] in *. inversion D as [|? ? Ha D']; subst.
    assert (At : String.eqb (tag child) a = false).
    { apply String.eqb_neq. intros E. apply Ha. rewrite <- E.
      apply in_or_app. right. now left. }
    destruct l as [|c r].
    + cbn [insert_element_before]. simpl. rewrite At.
      apply (IH [] D' eq_refl eq_refl (tags_follow_nil _)).
    + simpl in F. destruct (String.eqb (tag c) (tag child)) eqn:E;
        [discriminate|].
      simpl in H. destruct (String.eqb_spec (tag c) a) as [Ea|Ea].
      * cbn [insert_element_before].
        rewrite str_in_false
          by (rewrite Ea; intros I; apply Ha; apply in_or_app; right;
              now right).
        simpl. rewrite Ea, String.eqb_refl. now apply IH.
      * assert (G : tags_follow (pre ++ tag child :: post)
                      (insert_element_before child post (c :: r)) = true).
        { apply IH; try assumption; try reflexivity. simpl. now rewrite E. }
        cbn [insert_element_before] in *.
        destruct (str_in (tag c) post); simpl.
        -- rewrite At. exact G.
        -- destruct (String.eqb_spec (tag c) a); [contradiction|]. exact G.
Qed.

Lemma tags_follow_map_tag seq : forall l l',
  map tag l = map tag l' -> tags_follow seq l = tags_follow seq l'.
Proof.
  induction seq as [|t seq IH]; intros [|c r] [|c' r'] H; simpl in *;
    try reflexivity; try discriminate.
  injection H as H1 H2. rewrite H1.
  destruct (String.eqb (tag c') t).
  - now apply IH.
  - apply IH. simpl. now rewrite H1, H2.
Qed.

Lemma map_tag_update_first t f l :
  (forall c, tag c = t -> tag (f c) = t) ->
  map tag (update_first t f l) = map tag l.
Proof.
  intros Hf. induction l as [|x l IH]; simpl; [reflexivity|].
  destruct (String.eqb_spec (tag x) t) as [E|E]; simpl.
  - now rewrite (Hf x E), E.
  - now rewrite IH.
Qed.

Lemma _tag_seq_split side :
  In side border_sides ->
  exists pre,
    CT_PBdr._tag_seq
    = pre ++ ("w:" ++ side)%string :: CT_PBdr.successors ("w:" ++ side).
Proof.
  unfold border_sides. simpl. intros [<-|[<-|[<-|[<-|[]]]]].
  - now exists [].
  - now exists ["w:top"].
  - now exists ["w:top"; "w:left"].
  - now exists ["w:top"; "w:left"; "w:bottom"].
Qed.

Lemma _tag_seq_NoDup : NoDup CT_PBdr._tag_seq.
Proof.
  unfold CT_PBdr._tag_seq.
  repeat (constructor; [simpl; intuition discriminate|]). constructor.
Qed.

Lemma tags_follow_get_or_add side pBdr :
  In side border_sides ->
  tags_follow CT_PBdr._tag_seq (children pBdr) = true ->
  tags_follow CT_PBdr._tag_seq
    (children
       (get_or_add ("w:" ++ side) (CT_PBdr.successors ("w:" ++ side)) pBdr))
  = true.
Proof.
  intros Hs H. unfold get_or_add.
  destruct (find_child ("w:" ++ side) pBdr) as [c|] eqn:F; [exact H|].
  cbn [children with_children].
  destruct (_tag_seq_split side Hs) as (pre & E).
  pose proof _tag_seq_NoDup as D. rewrite E in *.
  now apply tags_follow_insert.
Qed.

(** X16: the sides of a [w:pBdr] stay in the declared order.  If the
    children of a paragraph's [w:pBdr] follow [_tag_seq] (top, left, bottom,
    right), they still do after a write to any property of any side, accepted
    or refused, and the written side has its element; a paragraph that has
    no [w:pBdr] yet is in order to begin with. *)
Theorem border_sides_stay_in_order pPrS pBdrS s i p side a v :
  nth_error (elements s) i = Some p -> In side border_sides ->
  borders_in_order p = true ->
  exists p',
    nth_error
      (elements
         (final_state
            (BorderSide_set pPrS pBdrS a (mkBorderSide i side) v s))) i
    = Some p'
    /\ borders_in_order p' = true
    /\ read_side ("w:" ++ side) p' <> None.
Proof.
  intros N Hs O.
  set (t := ("w:" ++ side)%string).
  set (c := side_after_ensure t p).
  assert (Tc : tag c = t) by apply tag_existing_or_new.
  assert (O0 : tags_follow CT_PBdr._tag_seq (children (pBdr_after_ensure p))
               = true).
  { unfold borders_in_order in O.
    pose proof (read_pBdr_existing_or_new p) as H.
    destruct (read_pBdr p) as [pBdr|]; rewrite H; [exact O|reflexivity]. }
  assert (O1 : borders_in_order (ensure_side pPrS pBdrS t p) = true).
  { unfold borders_in_order. rewrite read_pBdr_ensure_side.
    now apply tags_follow_get_or_add. }
  rewrite (BorderSide_set_at _ _ _ _ _ _ _ _ N Hs). fold t. fold c.
  destruct (attr_set a c v) as [c'|e] eqn:E; cbn [final_state].
  - exists (put_side t c' (ensure_side pPrS pBdrS t p)).
    assert (Tc' : tag c' = t) by (rewrite (tag_attr_set _ _ _ _ E); exact Tc).
    split; [apply (nth_error_with_paragraph_same _ _ _ _ N)|]. split.
    + unfold borders_in_order, put_side.
      rewrite read_pBdr_in_pBdr by (intros x Hx; exact Hx).
      unfold borders_in_order in O1.
      destruct (read_pBdr (ensure_side pPrS pBdrS t p)) as [pBdr|];
        [|reflexivity].
      cbn [option_map update_child with_children children].
      rewrite (tags_follow_map_tag _ _ (children pBdr)); [exact O1|].
      apply map_tag_update_first. intros x Hx. exact Tc'.
    + rewrite (read_side_put_side_same _ _ _ Tc').
      rewrite read_side_ensure_side_same. discriminate.
  - exists (ensure_side pPrS pBdrS t p).
    split; [apply (nth_error_with_paragraph_same _ _ _ _ N)|].
    split; [exact O1|]. rewrite read_side_ensure_side_same. discriminate.
Qed.

Lemma border_sides_stay_in_order_witness :
  exists p',
    nth_error
      (elements
         (final_state
            (BorderSide_set ["w:r"] [] CT_BorderSide.val
               (mkBorderSide 1 "left") (PyStr "dotted") bordered_paragraphs)))
      1
    = Some p'
    /\ borders_in_order p' = true
    /\ read_side "w:left" p' <> None.
Proof.
  apply (border_sides_stay_in_order ["w:r"] [] bordered_paragraphs 1 _
           "left" CT_BorderSide.val (PyStr "dotted") eq_refl
           (or_intror (or_introl eq_refl)) eq_refl).
Defined.

(** *** The facade *)

Lemma slot_set_slot side b pb :
  In side border_sides -> slot side (set_slot side b pb) = Some b.
Proof.
  unfold border_sides. simpl. intros [<-|[<-|[<-|[<-|[]]]]]; reflexivity.
Qed.

Lemma slot_set_slot_other side side' b pb :
  In side border_sides -> In side' border_sides -> side <> side' ->
  slot side' (set_slot side b pb) = slot side' pb.
Proof.
  unfold border_sides. simpl.
  intros [<-|[<-|[<-|[<-|[]]]]] [<-|[<-|[<-|[<-|[]]]]] H;
    try reflexivity; now destruct H.
Qed.

Lemma pb_element_set_slot side b pb :
  pb_element (set_slot side b pb) = pb_element pb.
Proof.
  unfold set_slot.
  repeat match goal with |- context [String.eqb ?x ?y] =>
                           destruct (String.eqb x y) end; reflexivity.
Qed.

Lemma ParagraphBorder_get_cached side s b :
  slot side (facade s) = Some b ->
  ParagraphBorder_get side s = Return (Some b) s.
Proof.
  intros H. unfold ParagraphBorder_get, mbind, get_facade. now rewrite H.
Qed.

Lemma ParagraphBorder_get_unset side s p :
  slot side (facade s) = None -> In side border_sides ->
  nth_error (elements s) (pb_element (facade s)) = Some p ->
  ParagraphBorder_get side s
  = match read_side ("w:" ++ side) p with
    | None => Return None s
    | Some _ =>
        Return (Some (mkBorderSide (pb_element (facade s)) side))
          (with_slot side s)
    end.
Proof.
  intros H Hs N. unfold ParagraphBorder_get, mbind, get_facade.
  rewrite H. rewrite (get_element_at _ _ _ N).
  unfold read_side, read_pBdr.
  destruct (find_child "w:pPr" p) as [pPr|]; [|reflexivity].
  destruct (find_child "w:pBdr" pPr) as [pBdr|]; [|reflexivity].
  destruct (find_child ("w:" ++ side) pBdr) as [c|]; [|reflexivity].
  unfold assign_slot, mbind, get_facade, set_facade, ret.
  cbn [facade elements]. now rewrite (slot_set_slot _ _ _ Hs).
Qed.

(** X17: reading never changes the document.  A property getter of a
    [BorderSide] leaves the whole state as it was.  A side getter of a
    [ParagraphBorder] leaves every paragraph as it was; it answers [None]
    exactly when it has no proxy cached and the side has no element, and
    otherwise answers the proxy for its own paragraph and side, caching it
    in the slot of that side and in no other; a cached proxy is answered
    without looking at the tree. *)
Theorem getters_leave_the_tree_alone :
  (forall a self s, final_state (BorderSide_get a self s) = s)
  /\ (forall side s,
        elements (final_state (ParagraphBorder_get side s)) = elements s)
  /\ (forall side s b,
        slot side (facade s) = Some b ->
        ParagraphBorder_get side s = Return (Some b) s)
  /\ (forall side s p,
        In side border_sides -> slot side (facade s) = None ->
        nth_error (elements s) (pb_element (facade s)) = Some p ->
        (read_side ("w:" ++ side) p = None
         /\ ParagraphBorder_get side s = Return None s)
        \/ (read_side ("w:" ++ side) p <> None
            /\ exists s',
                ParagraphBorder_get side s
                = Return (Some (mkBorderSide (pb_element (facade s)) side)) s'
                /\ slot side (facade s')
                   = Some (mkBorderSide (pb_element (facade s)) side)
                /\ forall side', In side' border_sides -> side <> side' ->
                                 slot side' (facade s')
                                 = slot side' (facade s))).
Proof.
  split; [|split; [|split]].
  - intros a self s.
    unfold BorderSide_get, _get_side_element, mbind, get_element.
    destruct (nth_error (elements s) (_element self)) as [q|]; [|reflexivity].
    destruct (find_child "w:pPr" q) as [pPr|]; [|reflexivity].
    destruct (find_child "w:pBdr" pPr) as [pBdr|]; [|reflexivity].
    destruct (_get_side_element_from_pBdr self pBdr) as [[c|]|e];
      cbn [lift ret throw]; try reflexivity.
    destruct (attr_get a c); reflexivity.
  - intros side s.
    unfold ParagraphBorder_get, mbind, get_facade, get_element.
    destruct (slot side (facade s)); [reflexivity|].
    destruct (nth_error (elements s) (pb_element (facade s))) as [q|];
      [|reflexivity].
    destruct (find_child "w:pPr" q) as [pPr|]; [|reflexivity].
    destruct (find_child "w:pBdr" pPr) as [pBdr|]; [|reflexivity].
    destruct (find_child ("w:" ++ side) pBdr); reflexivity.
  - intros side s b. apply ParagraphBorder_get_cached.
  - intros side s p Hs H N.
    rewrite (ParagraphBorder_get_unset _ _ _ H Hs N).
    destruct (read_side ("w:" ++ side) p) as [c|]; [right|left; now split].
    split; [discriminate|]. eexists. split; [reflexivity|].
    unfold with_slot. cbn [facade]. split.
    + now apply slot_set_slot.
    + intros side' Hs' Hd. now apply slot_set_slot_other.
Qed.

Lemma getters_leave_the_tree_alone_witness :
  ParagraphBorder_get "top"
    (mkState [] (mkParagraphBorder 0 (Some (mkBorderSide 0 "top"))
                   None None None))
  = Return (Some (mkBorderSide 0 "top"))
      (mkState [] (mkParagraphBorder 0 (Some (mkBorderSide 0 "top"))
                     None None None)).
Proof.
  apply (proj1 (proj2 (proj2 getters_leave_the_tree_alone)) "top"
           (mkState [] (mkParagraphBorder 0 (Some (mkBorderSide 0 "top"))
                          None None None))
           (mkBorderSide 0 "top") eq_refl).
Defined.

Lemma elements_with_slot side s : elements (with_slot side s) = elements s.
Proof. reflexivity. Qed.

Lemma slot_with_slot side s :
  In side border_sides ->
  slot side (facade (with_slot side s))
  = Some (mkBorderSide (pb_element (facade s)) side).
Proof. intros H. unfold with_slot. cbn [facade]. now apply slot_set_slot. Qed.

Lemma assign_slot_with_slot side s :
  assign_slot side s = Return tt (with_slot side s).
Proof. reflexivity. Qed.

(** Copying from a proxy whose side has no element stops at the first
    assignment: the style read is [None], which [ST_BorderValue] refuses. *)
Lemma copy_side_from_nothing pPrS pBdrS s i p side j q sd :
  nth_error (elements s) i = Some p -> In side border_sides ->
  nth_error (elements s) j = Some q -> In sd border_sides ->
  read_side ("w:" ++ sd) q = None ->
  copy_side pPrS pBdrS (Some (mkBorderSide i side)) (mkBorderSide j sd) s
  = Throw TypeError
      (with_paragraph i (ensure_side pPrS pBdrS ("w:" ++ side) p) s).
Proof.
  intros N Hs Nq Hsd R. unfold copy_side. unfold mbind at 1.
  unfold BorderSide_val. rewrite (BorderSide_get_at _ _ _ _ _ Nq Hsd), R.
  unfold mbind at 1. unfold BorderSide_set_val.
  rewrite (BorderSide_set_at _ _ _ _ _ _ _ _ N Hs).
  rewrite (attr_set_refused _ _ _ TypeError); [reflexivity|reflexivity|].
  now left.
Qed.

(** X18: assigning a [BorderSide] that has no element behind it does not
    clear the border, it raises [TypeError].  Such a proxy reads [None] for
    its style, and the first assignment of the copy passes that [None] to
    [ST_BorderValue]; by then the facade has cached a proxy for the target
    side and the target side's element has been got or added.  The top and
    bottom setters do so whether or not the target side exists; the left and
    right setters only when it does not. *)
Theorem ParagraphBorder_assign_without_element pPrS pBdrS s p j q sd :
  nth_error (elements s) (pb_element (facade s)) = Some p ->
  nth_error (elements s) j = Some q -> In sd border_sides ->
  read_side ("w:" ++ sd) q = None ->
  let i := pb_element (facade s) in
  let source := mkBorderSide j sd in
  let failed side :=
    Throw TypeError
      (with_paragraph i (ensure_side pPrS pBdrS ("w:" ++ side) p)
         (with_slot side s)) in
  (slot "top" (facade s) = None ->
   ParagraphBorder_set_top pPrS pBdrS source s = failed "top")
  /\ (slot "bottom" (facade s) = None ->
      ParagraphBorder_set_bottom pPrS pBdrS source s = failed "bottom")
  /\ (slot "left" (facade s) = None -> read_side "w:left" p = None ->
      ParagraphBorder_set_left pPrS pBdrS source s = failed "left")
  /\ (slot "right" (facade s) = None -> read_side "w:right" p = None ->
      ParagraphBorder_set_right pPrS pBdrS source s = failed "right").
Proof.
  intros N Nq Hsd R i source failed.
  assert (C : forall side, In side border_sides ->
      copy_side pPrS pBdrS (Some (mkBorderSide i side)) source
        (with_slot side s) = failed side).
  { intros side Hs. unfold failed, source.
    apply (copy_side_from_nothing pPrS pBdrS (with_slot side s) i p side j
             q sd N Hs Nq Hsd R). }
  assert (G : forall side, In side border_sides ->
      ParagraphBorder_get side (with_slot side s)
      = Return (Some (mkBorderSide i side)) (with_slot side s)).
  { intros side Hs. apply ParagraphBorder_get_cached.
    now apply slot_with_slot. }
  assert (Htop : In "top" border_sides) by (unfold border_sides; simpl; tauto).
  assert (Hbottom : In "bottom" border_sides) by (unfold border_sides; simpl; tauto).
  assert (Hleft : In "left" border_sides) by (unfold border_sides; simpl; tauto).
  assert (Hright : In "right" border_sides) by (unfold border_sides; simpl; tauto).
  split; [|split; [|split]].
  - intros H. unfold ParagraphBorder_set_top, ParagraphBorder_top.
    unfold mbind at 1. rewrite (ParagraphBorder_get_unset _ _ _ H Htop N).
    destruct (read_side ("w:" ++ "top") p); unfold mbind at 1;
      [unfold ret | rewrite assign_slot_with_slot];
      unfold mbind at 1; rewrite (G _ Htop); now apply C.
  - intros H. unfold ParagraphBorder_set_bottom, ParagraphBorder_bottom.
    unfold mbind at 1. rewrite (ParagraphBorder_get_unset _ _ _ H Hbottom N).
    destruct (read_side ("w:" ++ "bottom") p); unfold mbind at 1;
      [unfold ret | rewrite assign_slot_with_slot];
      unfold mbind at 1; rewrite (G _ Hbottom); now apply C.
  - intros H Rl. unfold ParagraphBorder_set_left, ParagraphBorder_left.
    unfold mbind at 1. rewrite (ParagraphBorder_get_unset _ _ _ H Hleft N).
    change ("w:" ++ "left")%string with "w:left". rewrite Rl.
    unfold mbind at 1. rewrite assign_slot_with_slot.
    unfold mbind at 1. rewrite (G _ Hleft). now apply C.
  - intros H Rl. unfold ParagraphBorder_set_right, ParagraphBorder_right.
    unfold mbind at 1. rewrite (ParagraphBorder_get_unset _ _ _ H Hright N).
    change ("w:" ++ "right")%string with "w:right". rewrite Rl.
    unfold mbind at 1. rewrite assign_slot_with_slot.
    unfold mbind at 1. rewrite (G _ Hright). now apply C.
Qed.

Lemma ParagraphBorder_assign_without_element_witness :
  ParagraphBorder_set_top ["w:r"] [] (mkBorderSide 2 "left")
    bordered_paragraphs
  = Throw TypeError
      (with_paragraph 0
         (ensure_side ["w:r"] [] "w:top"
            (paragraph_with_sides
               [border_side_element "w:top" "single" "8" "1" "FF0000";
                border_side_element "w:left" "single" "8" "1" "FF0000";
                border_side_element "w:bottom" "single" "8" "1" "FF0000";
                border_side_element "w:right" "single" "8" "1" "FF0000"]))
         (with_slot "top" bordered_paragraphs)).
Proof.
  apply (proj1 (ParagraphBorder_assign_without_element ["w:r"] []
                  bordered_paragraphs _ 2 _ "left" eq_refl eq_refl
                  (or_intror (or_introl eq_refl)) eq_refl)).
  reflexivity.
Defined.

(** *** Copying a side *)

Lemma NoDup_set_attribute name text a :
  NoDup (map fst a) -> NoDup (map fst (set_attribute name text a)).
Proof.
  intros D.
  assert (E : map fst (set_attribute name text a) = map fst a
              \/ (~ In name (map fst a)
                  /\ map fst (set_attribute name text a)
                     = map fst a ++ [name])).
  { clear D. induction a as [|[k v] r IH]; simpl.
    - right. split; [tauto|reflexivity].
    - destruct (String.eqb_spec k name) as [->|E]; simpl.
      + now left.
      + destruct IH as [IH|[IH1 IH2]].
        * left. now rewrite IH.
        * right. split; [|now rewrite IH2]. intros [H|H]; auto. }
  destruct E as [->|[N ->]]; [exact D|].
  clear - D N. induction (map fst a) as [|x l IH]; simpl.
  - constructor; [tauto|constructor].
  - inversion D as [|? ? Hx D']; subst. constructor.
    + intros H. apply in_app_or in H as [H|[H|[]]]; [auto|].
      apply N. now left.
    + apply IH; [exact D'|]. intros H. apply N. now right.
Qed.

Lemma NoDup_remove_attribute name a :
  NoDup (map fst a) -> NoDup (map fst (remove_attribute name a)).
Proof.
  induction a as [|[k v] r IH]; simpl; [auto|]. intros D.
  inversion D as [|? ? Hk D']; subst.
  destruct (String.eqb k name); [exact D'|]. simpl. constructor.
  - intros H. apply Hk. clear - H.
    induction r as [|[k' v'] r IH]; simpl in *; [auto|].
    destruct (String.eqb k' name); simpl in *; tauto.
  - now apply IH.
Qed.

Lemma NoDup_attr_set a c v c' :
  attr_set a c v = Ok c' ->
  NoDup (map fst (attrib c)) -> NoDup (map fst (attrib c')).
Proof.
  intros H D. destruct (attr_set_cases _ _ _ _ H) as [(text & ->)| ->];
    cbn [attrib with_attrib].
  - now apply NoDup_set_attribute.
  - now apply NoDup_remove_attribute.
Qed.

Lemma attr_set_Ok a c v c' :
  attr_set a c v = Ok c' ->
  (exists text,
      to_xml (attr_type a) v = Ok (PyStr text)
      /\ c' = with_attrib (set_attribute (attr_name a) text (attrib c)) c)
  \/ (attr_presence a = Optional /\ v = PyNone
      /\ c' = with_attrib (remove_attribute (attr_name a) (attrib c)) c).
Proof.
  unfold attr_set.
  destruct (attr_presence a), v; try (intros [= <-]; right; now repeat split);
    destruct (to_xml (attr_type a) _) as [[| | | x |]|]; try discriminate;
    intros [= <-]; left; eauto.
Qed.

Lemma BorderSide_get_state a self s v s0 :
  BorderSide_get a self s = Return v s0 -> s0 = s.
Proof.
  unfold BorderSide_get, _get_side_element, mbind, get_element.
  destruct (nth_error (elements s) (_element self)) as [q|]; [|discriminate].
  destruct (find_child "w:pPr" q) as [pPr|]; [|now intros [= _ <-]].
  destruct (find_child "w:pBdr" pPr) as [pBdr|]; [|now intros [= _ <-]].
  destruct (_get_side_element_from_pBdr self pBdr) as [[c|]|e];
    cbn [lift ret throw]; try discriminate; try (now intros [= _ <-]).
  destruct (attr_get a c); cbn [lift ret throw];
    [now intros [= _ <-] | discriminate].
Qed.

(** The effect of an accepted write on what the proxies read. *)
Lemma BorderSide_set_effect pPrS pBdrS a i side v s p s' :
  nth_error (elements s) i = Some p -> In side border_sides ->
  BorderSide_set pPrS pBdrS a (mkBorderSide i side) v s = Return tt s' ->
  (exists p',
      nth_error (elements s') i = Some p'
      /\ read_side ("w:" ++ side) p' <> None
      /\ (side_well_formed ("w:" ++ side) p ->
          side_well_formed ("w:" ++ side) p'))
  /\ ((exists text,
          to_xml (attr_type a) v = Ok (PyStr text)
          /\ reads_as a (mkBorderSide i side) s'
             = from_xml (attr_type a) text)
      \/ (attr_presence a = Optional /\ v = PyNone
          /\ (side_well_formed ("w:" ++ side) p ->
              reads_as a (mkBorderSide i side) s' = Ok PyNone)))
  /\ (forall b self',
        In (_side self') border_sides ->
        self' <> mkBorderSide i side
        \/ (attr_name a <> attr_name b
            /\ read_side ("w:" ++ side) p <> None) ->
        reads_as b self' s' = reads_as b self' s).
Proof.
  intros N Hs. rewrite (BorderSide_set_at _ _ _ _ _ _ _ _ N Hs).
  set (t := ("w:" ++ side)%string).
  set (c := side_after_ensure t p).
  assert (Tc : tag c = t) by apply tag_existing_or_new.
  destruct (attr_set a c v) as [c'|e] eqn:E; [|discriminate].
  intros [= <-].
  assert (Tc' : tag c' = t) by (rewrite (tag_attr_set _ _ _ _ E); exact Tc).
  set (p' := put_side t c' (ensure_side pPrS pBdrS t p)).
  pose proof (nth_error_with_paragraph_same i p' s p N) as N'.
  assert (R' : read_side t p' = Some c').
  { unfold p'. rewrite (read_side_put_side_same _ _ _ Tc').
    now rewrite read_side_ensure_side_same. }
  assert (W : side_well_formed t p -> NoDup (map fst (attrib c))).
  { intros D. unfold c. destruct (read_side t p) as [c0|] eqn:R.
    - rewrite (side_after_ensure_existing _ _ _ R). now apply D.
    - rewrite (side_after_ensure_new _ _ R). constructor. }
  split; [|split].
  - exists p'. split; [exact N'|]. split; [rewrite R'; discriminate|].
    intros D c0 R0. rewrite R' in R0. injection R0 as <-.
    apply (NoDup_attr_set _ _ _ _ E). now apply W.
  - unfold reads_as. rewrite (BorderSide_get_at _ _ _ _ _ N' Hs).
    fold t. rewrite R'.
    destruct (attr_set_Ok _ _ _ _ E) as [(text & Hv & ->)|(Ho & -> & ->)].
    + left. exists text. split; [exact Hv|].
      unfold attr_get. cbn [attrib with_attrib]. rewrite get_set_attribute.
      now destruct (from_xml (attr_type a) text).
    + right. repeat split; try assumption. intros D.
      unfold attr_get. cbn [attrib with_attrib].
      rewrite get_remove_attribute by (now apply W). now rewrite Ho.
  - intros b [j side'] Hs' H. cbn [_side] in Hs'. unfold reads_as.
    destruct (Nat.eq_dec j i) as [->|Hj];
      [|apply BorderSide_get_ext; cbn [_element];
        apply nth_error_with_paragraph_other; congruence].
    rewrite (BorderSide_get_at _ _ _ _ _ N' Hs'),
      (BorderSide_get_at _ _ _ _ _ N Hs').
    destruct (String.eqb_spec side side') as [<-|Hd].
    + destruct H as [H|[Hb Hr]]; [now destruct H|].
      fold t. rewrite R'.
      destruct (read_side t p) as [c0|] eqn:R; [|now destruct Hr].
      assert (c = c0) as Ec by (apply side_after_ensure_existing; exact R).
      rewrite (attr_get_after_attr_set _ _ _ _ _ E Hb), Ec.
      destruct (attr_get b c0); reflexivity.
    + assert (read_side ("w:" ++ side') p' = read_side ("w:" ++ side') p)
        as ->;
        [|destruct (read_side ("w:" ++ side') p) as [e|]; [|reflexivity];
          destruct (attr_get b e); reflexivity].
      unfold p'. rewrite read_side_put_side_other;
        [|exact Tc'|now apply side_tags_differ].
      apply read_side_ensure_side_other. now apply side_tags_differ.
Qed.

Lemma mbind_Return {A B} (m : M A) (k : A -> M B) s b s' :
  mbind m k s = Return b s' ->
  exists a s1, m s = Return a s1 /\ k a s1 = Return b s'.
Proof.
  unfold mbind. destruct (m s) as [a s1|e s1]; [eauto|discriminate].
Qed.

Lemma reads_as_Return a self s v :
  BorderSide_get a self s = Return v s -> reads_as a self s = Ok v.
Proof. unfold reads_as. now intros ->. Qed.

Lemma reads_as_Ok a self s v :
  reads_as a self s = Ok v -> BorderSide_get a self s = Return v s.
Proof.
  unfold reads_as. destruct (BorderSide_get a self s) as [w s0|e s0] eqn:E;
    [|discriminate].
  intros [= ->]. now rewrite (BorderSide_get_state _ _ _ _ _ E).
Qed.

Lemma BorderSide_eq_dec (x y : BorderSide) : {x = y} + {x <> y}.
Proof.
  destruct x as [i a], y as [j b].
  destruct (Nat.eq_dec i j) as [->|H]; [|right; congruence].
  destruct (string_dec a b) as [->|H]; [now left|right; congruence].
Qed.

(** The style cannot be written as [None]. *)
Lemma BorderSide_set_val_not_None pPrS pBdrS i side s p s' :
  nth_error (elements s) i = Some p -> In side border_sides ->
  BorderSide_set_val pPrS pBdrS (mkBorderSide i side) PyNone s
  <> Return tt s'.
Proof.
  intros N Hs. unfold BorderSide_set_val.
  rewrite (BorderSide_set_at _ _ _ _ _ _ _ _ N Hs). discriminate.
Qed.

(** The five assignments of a setter, when none of them raises, copy the
    five properties. *)
Lemma copy_side_copies pPrS pBdrS s i p side source s' :
  nth_error (elements s) i = Some p -> In side border_sides ->
  In (_side source) border_sides ->
  side_well_formed ("w:" ++ side) p ->
  copy_side pPrS pBdrS (Some (mkBorderSide i side)) source s = Return tt s' ->
  forall a, In a side_attributes ->
            property_copied a source (mkBorderSide i side) s s'.
Proof.
  intros N0 Hs Hsd D0 H. set (target := mkBorderSide i side) in *.
  set (t := ("w:" ++ side)%string) in *.
  unfold copy_side in H.
  apply mbind_Return in H as (v1 & x & G1 & H).
  pose proof (BorderSide_get_state _ _ _ _ _ G1) as ->.
  apply mbind_Return in H as ([] & s1 & W1 & H).
  apply mbind_Return in H as (v2 & x & G2 & H).
  pose proof (BorderSide_get_state _ _ _ _ _ G2) as ->.
  apply mbind_Return in H as ([] & s2 & W2 & H).
  apply mbind_Return in H as (v3 & x & G3 & H).
  pose proof (BorderSide_get_state _ _ _ _ _ G3) as ->.
  apply mbind_Return in H as ([] & s3 & W3 & H).
  apply mbind_Return in H as (v4 & x & G4 & H).
  pose proof (BorderSide_get_state _ _ _ _ _ G4) as ->.
  apply mbind_Return in H as ([] & s4 & W4 & H).
  apply mbind_Return in H as (v5 & x & G5 & W5).
  pose proof (BorderSide_get_state _ _ _ _ _ G5) as ->.
  (* when the proxy copied from is the target itself, its side exists *)
  assert (R0 : source = target -> read_side t p <> None).
  { intros E R. rewrite E in G1. unfold BorderSide_val in G1.
    unfold target in G1. rewrite (BorderSide_get_at _ _ _ _ _ N0 Hs) in G1.
    fold t in G1. rewrite R in G1. injection G1 as <-.
    now apply (BorderSide_set_val_not_None _ _ _ _ _ _ _ N0 Hs) in W1. }
  destruct (BorderSide_set_effect _ _ _ _ _ _ _ _ _ N0 Hs W1)
    as ((p1 & N1 & R1 & D1) & X1 & F1).
  destruct (BorderSide_set_effect _ _ _ _ _ _ _ _ _ N1 Hs W2)
    as ((p2 & N2 & R2 & D2) & X2 & F2).
  destruct (BorderSide_set_effect _ _ _ _ _ _ _ _ _ N2 Hs W3)
    as ((p3 & N3 & R3 & D3) & X3 & F3).
  destruct (BorderSide_set_effect _ _ _ _ _ _ _ _ _ N3 Hs W4)
    as ((p4 & N4 & R4 & D4) & X4 & F4).
  destruct (BorderSide_set_effect _ _ _ _ _ _ _ _ _ N4 Hs W5)
    as ((p5 & N5 & R5 & D5) & X5 & F5).
  fold t in R1, R2, R3, R4, R5, D1, D2, D3, D4, D5, F1, F2, F3, F4, F5.
  fold target in X1, X2, X3, X4, X5, F1, F2, F3, F4, F5.
  assert (Hst : In (_side target) border_sides) by exact Hs.
  (* what the source reads during the copy is what it read before *)
  assert (S1 : forall b, attr_name CT_BorderSide.val <> attr_name b ->
                         reads_as b source s1 = reads_as b source s).
  { intros b Hb. apply F1; [exact Hsd|].
    destruct (BorderSide_eq_dec source target) as [E|E]; [right|now left].
    split; [exact Hb|now apply R0]. }
  assert (S2 : forall b, attr_name CT_BorderSide.sz <> attr_name b ->
                         reads_as b source s2 = reads_as b source s1).
  { intros b Hb. apply F2; [exact Hsd|].
    destruct (BorderSide_eq_dec source target) as [E|E]; [right|now left].
    split; assumption. }
  assert (S3 : forall b, attr_name CT_BorderSide.space <> attr_name b ->
                         reads_as b source s3 = reads_as b source s2).
  { intros b Hb. apply F3; [exact Hsd|].
    destruct (BorderSide_eq_dec source target) as [E|E]; [right|now left].
    split; assumption. }
  assert (S4 : forall b, attr_name CT_BorderSide.color <> attr_name b ->
                         reads_as b source s4 = reads_as b source s3).
  { intros b Hb. apply F4; [exact Hsd|].
    destruct (BorderSide_eq_dec source target) as [E|E]; [right|now left].
    split; assumption. }
  (* what has been written stays as the later properties are written *)
  assert (T2 : forall b, attr_name CT_BorderSide.sz <> attr_name b ->
                         reads_as b target s2 = reads_as b target s1).
  { intros b Hb. apply F2; [exact Hst|]. right. split; assumption. }
  assert (T3 : forall b, attr_name CT_BorderSide.space <> attr_name b ->
                         reads_as b target s3 = reads_as b target s2).
  { intros b Hb. apply F3; [exact Hst|]. right. split; assumption. }
  assert (T4 : forall b, attr_name CT_BorderSide.color <> attr_name b ->
                         reads_as b target s4 = reads_as b target s3).
  { intros b Hb. apply F4; [exact Hst|]. right. split; assumption. }
  assert (T5 : forall b, attr_name CT_BorderSide.shadow <> attr_name b ->
                         reads_as b target s' = reads_as b target s4).
  { intros b Hb. apply F5; [exact Hst|]. right. split; assumption. }
  apply reads_as_Return in G1, G2, G3, G4, G5.
  unfold BorderSide_val, BorderSide_sz, BorderSide_space, BorderSide_color,
    BorderSide_shadow in *.
  rewrite S1 in G2 by discriminate.
  rewrite S2, S1 in G3 by discriminate.
  rewrite S3, S2, S1 in G4 by discriminate.
  rewrite S4, S3, S2, S1 in G5 by discriminate.
  apply reads_as_Ok in G1, G2, G3, G4, G5.
  intros a Ha. unfold side_attributes in Ha. simpl in Ha.
  destruct Ha as [<-|[<-|[<-|[<-|[<-|[]]]]]].
  - exists v1. split; [exact G1|].
    destruct X1 as [(text & Hv & E)|(Ho & _)]; [|discriminate Ho].
    left. exists text. split; [exact Hv|].
    now rewrite T5, T4, T3, T2 by discriminate.
  - exists v2. split; [exact G2|].
    destruct X2 as [(text & Hv & E)|(Ho & _)]; [|discriminate Ho].
    left. exists text. split; [exact Hv|].
    now rewrite T5, T4, T3 by discriminate.
  - exists v3. split; [exact G3|].
    destruct X3 as [(text & Hv & E)|(Ho & _)]; [|discriminate Ho].
    left. exists text. split; [exact Hv|].
    now rewrite T5, T4 by discriminate.
  - exists v4. split; [exact G4|].
    destruct X4 as [(text & Hv & E)|(Ho & _)]; [|discriminate Ho].
    left. exists text. split; [exact Hv|].
    now rewrite T5 by discriminate.
  - exists v5. split; [exact G5|].
    destruct X5 as [(text & Hv & E)|(Ho & Hv & E)].
    + left. exists text. split; [exact Hv|exact E].
    + right. repeat split; try assumption. apply E. auto.
Qed.

Lemma property_copied_with_slot a source target side s s' :
  property_copied a source target (with_slot side s) s' ->
  property_copied a source target s s'.
Proof.
  intros (v & G & H). exists v. split; [|exact H].
  apply reads_as_Ok. apply reads_as_Return in G. rewrite <- G.
  apply BorderSide_get_ext. reflexivity.
Qed.

(** X19: what an assignment to a side of a [ParagraphBorder] copies.  When
    the setter returns without an exception, having gone through its five
    assignments, every property of the target side then reads as the
    descriptor's parse of its rendering of what the assigned proxy read for
    that property before the assignment, and a shadow that the proxy read as
    [None] is read as [None].  The top and bottom setters go through the
    assignments on a facade that has cached nothing or the proxy of that
    side; the left and right setters do when the target side has no element
    and nothing is cached. *)
Theorem ParagraphBorder_setters_copy pPrS pBdrS s p source s' :
  nth_error (elements s) (pb_element (facade s)) = Some p ->
  In (_side source) border_sides ->
  let i := pb_element (facade s) in
  let copied side :=
    forall a, In a side_attributes ->
              property_copied a source (mkBorderSide i side) s s' in
  (slot "top" (facade s) = None
   \/ slot "top" (facade s) = Some (mkBorderSide i "top") ->
   side_well_formed "w:top" p ->
   ParagraphBorder_set_top pPrS pBdrS source s = Return tt s' ->
   copied "top")
  /\ (slot "bottom" (facade s) = None
      \/ slot "bottom" (facade s) = Some (mkBorderSide i "bottom") ->
      side_well_formed "w:bottom" p ->
      ParagraphBorder_set_bottom pPrS pBdrS source s = Return tt s' ->
      copied "bottom")
  /\ (slot "left" (facade s) = None -> read_side "w:left" p = None ->
      ParagraphBorder_set_left pPrS pBdrS source s = Return tt s' ->
      copied "left")
  /\ (slot "right" (facade s) = None -> read_side "w:right" p = None ->
      ParagraphBorder_set_right pPrS pBdrS source s = Return tt s' ->
      copied "right").
Proof.
  intros N Hsd i copied.
  assert (Htop : In "top" border_sides) by (unfold border_sides; simpl; tauto).
  assert (Hbottom : In "bottom" border_sides) by (unfold border_sides; simpl; tauto).
  assert (Hleft : In "left" border_sides) by (unfold border_sides; simpl; tauto).
  assert (Hright : In "right" border_sides) by (unfold border_sides; simpl; tauto).
  assert (C0 : forall side, In side border_sides ->
      side_well_formed ("w:" ++ side) p ->
      copy_side pPrS pBdrS (Some (mkBorderSide i side)) source s
      = Return tt s' -> copied side).
  { intros side Hs D H a Ha.
    exact (copy_side_copies _ _ _ _ _ _ _ _ N Hs Hsd D H a Ha). }
  assert (C1 : forall side, In side border_sides ->
      side_well_formed ("w:" ++ side) p ->
      copy_side pPrS pBdrS (Some (mkBorderSide i side)) source
        (with_slot side s) = Return tt s' -> copied side).
  { intros side Hs D H a Ha.
    apply (property_copied_with_slot _ _ _ side).
    exact (copy_side_copies pPrS pBdrS (with_slot side s) _ _ _ _ _ N Hs
             Hsd D H a Ha). }
  assert (G : forall side, In side border_sides ->
      ParagraphBorder_get side (with_slot side s)
      = Return (Some (mkBorderSide i side)) (with_slot side s)).
  { intros side Hs. apply ParagraphBorder_get_cached.
    now apply slot_with_slot. }
  assert (V : forall side, read_side ("w:" ++ side) p = None ->
                           side_well_formed ("w:" ++ side) p).
  { intros side R c Hc. rewrite R in Hc. discriminate. }
  split; [|split; [|split]].
  - intros [H|H] D; unfold ParagraphBorder_set_top, ParagraphBorder_top.
    + unfold mbind at 1. rewrite (ParagraphBorder_get_unset _ _ _ H Htop N).
      destruct (read_side ("w:" ++ "top") p); unfold mbind at 1;
        [unfold ret | rewrite assign_slot_with_slot];
        unfold mbind at 1; rewrite (G _ Htop); now apply C1.
    + unfold mbind at 1. rewrite (ParagraphBorder_get_cached _ _ _ H).
      unfold mbind at 1. unfold ret. unfold mbind at 1.
      rewrite (ParagraphBorder_get_cached _ _ _ H). now apply C0.
  - intros [H|H] D; unfold ParagraphBorder_set_bottom, ParagraphBorder_bottom.
    + unfold mbind at 1. rewrite (ParagraphBorder_get_unset _ _ _ H Hbottom N).
      destruct (read_side ("w:" ++ "bottom") p); unfold mbind at 1;
        [unfold ret | rewrite assign_slot_with_slot];
        unfold mbind at 1; rewrite (G _ Hbottom); now apply C1.
    + unfold mbind at 1. rewrite (ParagraphBorder_get_cached _ _ _ H).
      unfold mbind at 1. unfold ret. unfold mbind at 1.
      rewrite (ParagraphBorder_get_cached _ _ _ H). now apply C0.
  - intros H R. unfold ParagraphBorder_set_left, ParagraphBorder_left.
    unfold mbind at 1. rewrite (ParagraphBorder_get_unset _ _ _ H Hleft N).
    change ("w:" ++ "left")%string with "w:left". rewrite R.
    unfold mbind at 1. rewrite assign_slot_with_slot.
    unfold mbind at 1. rewrite (G _ Hleft). apply (C1 _ Hleft).
    now apply V.
  - intros H R. unfold ParagraphBorder_set_right, ParagraphBorder_right.
    unfold mbind at 1. rewrite (ParagraphBorder_get_unset _ _ _ H Hright N).
    change ("w:" ++ "right")%string with "w:right". rewrite R.
    unfold mbind at 1. rewrite assign_slot_with_slot.
    unfold mbind at 1. rewrite (G _ Hright). apply (C1 _ Hright).
    now apply V.
Qed.

Lemma ParagraphBorder_setters_copy_witness :
  property_copied CT_BorderSide.val (mkBorderSide 1 "top")
    (mkBorderSide 0 "top") bordered_paragraphs
    (final_state
       (ParagraphBorder_set_top ["w:r"] [] (mkBorderSide 1 "top")
          bordered_paragraphs)).
Proof.
  apply (proj1 (ParagraphBorder_setters_copy ["w:r"] [] bordered_paragraphs
                  _ (mkBorderSide 1 "top") _ eq_refl
                  (or_introl eq_refl))).
  - left. reflexivity.
  - intros c H. vm_compute in H. injection H as <-.
    repeat (constructor; [simpl; intuition discriminate|]). constructor.
  - vm_compute. reflexivity.
  - unfold side_attributes. simpl. tauto.
Defined.

(** *** What the left and right setters skip *)

Lemma keeps_facade_bind {A B} (m : M A) (k : A -> M B) :
  keeps_facade m -> (forall a, keeps_facade (k a)) ->
  keeps_facade (mbind m k).
Proof.
  intros Hm Hk s. unfold mbind. specialize (Hm s).
  destruct (m s) as [a s1|e s1]; cbn [final_state] in *; [|exact Hm].
  now rewrite Hk.
Qed.

Lemma keeps_facade_ret {A} (a : A) : keeps_facade (ret a).
Proof. intros s. reflexivity. Qed.

Lemma keeps_facade_throw {A} e : keeps_facade (@throw A e).
Proof. intros s. reflexivity. Qed.

Lemma keeps_facade_lift {A} (r : result A) : keeps_facade (lift r).
Proof. destruct r; intros s; reflexivity. Qed.

Lemma keeps_facade_get_element i : keeps_facade (get_element i).
Proof.
  intros s. unfold get_element. now destruct (nth_error (elements s) i).
Qed.

Lemma keeps_facade_modify_element i f : keeps_facade (modify_element i f).
Proof. intros s. reflexivity. Qed.

Lemma keeps_facade_BorderSide_get a self : keeps_facade (BorderSide_get a self).
Proof.
  unfold BorderSide_get, _get_side_element.
  apply keeps_facade_bind.
  - apply keeps_facade_bind; [apply keeps_facade_get_element|]. intros p.
    destruct (find_child "w:pPr" p) as [pPr|]; [|apply keeps_facade_ret].
    destruct (find_child "w:pBdr" pPr); [apply keeps_facade_lift
                                        |apply keeps_facade_ret].
  - intros [e|]; [apply keeps_facade_lift|apply keeps_facade_ret].
Qed.

Lemma keeps_facade_BorderSide_set pPrS pBdrS a self v :
  keeps_facade (BorderSide_set pPrS pBdrS a self v).
Proof.
  unfold BorderSide_set, _get_or_add_side_element, side_element.
  repeat first
    [ apply keeps_facade_bind; [|intros ?]
    | apply keeps_facade_get_element
    | apply keeps_facade_modify_element
    | apply keeps_facade_lift
    | apply keeps_facade_ret
    | apply keeps_facade_throw
    | match goal with
      | |- keeps_facade (match ?x with _ => _ end) => destruct x
      end ].
Qed.

Lemma keeps_facade_copy_side pPrS pBdrS target source :
  keeps_facade (copy_side pPrS pBdrS target source).
Proof.
  unfold copy_side. destruct target as [target|]; [|apply keeps_facade_throw].
  unfold BorderSide_val, BorderSide_set_val, BorderSide_sz, BorderSide_set_sz,
    BorderSide_space, BorderSide_set_space, BorderSide_color,
    BorderSide_set_color, BorderSide_shadow, BorderSide_set_shadow.
  repeat first
    [ apply keeps_facade_BorderSide_get
    | apply keeps_facade_BorderSide_set
    | apply keeps_facade_bind; [|intros ?] ].
Qed.

Lemma ParagraphBorder_get_slot side s o s' :
  In side border_sides ->
  ParagraphBorder_get side s = Return (Some o) s' ->
  slot side (facade s') = Some o.
Proof.
  intros Hs. unfold ParagraphBorder_get, mbind, get_facade, get_element.
  destruct (slot side (facade s)) as [b|] eqn:E.
  - intros [= <- <-]. exact E.
  - destruct (nth_error (elements s) (pb_element (facade s))) as [p|];
      [|discriminate].
    destruct (find_child "w:pPr" p) as [pPr|]; [|discriminate].
    destruct (find_child "w:pBdr" pPr) as [pBdr|]; [|discriminate].
    destruct (find_child ("w:" ++ side) pBdr); [|discriminate].
    unfold assign_slot, mbind, get_facade, set_facade, ret.
    cbn [facade]. rewrite (slot_set_slot _ _ _ Hs).
    intros [= <- <-]. cbn [facade]. now apply slot_set_slot.
Qed.

(** X20: the left and right setters assign at most once through a facade.
    Their whole body is under [if self.left is None] (or [self.right]), and
    the getter caches its proxy; so a left or right assignment returns at
    once, copying nothing, when the facade has a proxy cached for that side,
    and caches one without copying when the side's element exists.  As the
    first assignment that returns leaves a proxy cached, every later
    assignment to that side through the same facade is ignored. *)
Theorem ParagraphBorder_left_right_assign_at_most_once pPrS pBdrS s :
  (forall source b,
      slot "left" (facade s) = Some b ->
      ParagraphBorder_set_left pPrS pBdrS source s = Return tt s)
  /\ (forall source b,
        slot "right" (facade s) = Some b ->
        ParagraphBorder_set_right pPrS pBdrS source s = Return tt s)
  /\ (forall source p,
        slot "left" (facade s) = None ->
        nth_error (elements s) (pb_element (facade s)) = Some p ->
        read_side "w:left" p <> None ->
        ParagraphBorder_set_left pPrS pBdrS source s
        = Return tt (with_slot "left" s))
  /\ (forall source p,
        slot "right" (facade s) = None ->
        nth_error (elements s) (pb_element (facade s)) = Some p ->
        read_side "w:right" p <> None ->
        ParagraphBorder_set_right pPrS pBdrS source s
        = Return tt (with_slot "right" s))
  /\ (forall source s',
        ParagraphBorder_set_left pPrS pBdrS source s = Return tt s' ->
        forall source',
          ParagraphBorder_set_left pPrS pBdrS source' s' = Return tt s')
  /\ (forall source s',
        ParagraphBorder_set_right pPrS pBdrS source s = Return tt s' ->
        forall source',
          ParagraphBorder_set_right pPrS pBdrS source' s' = Return tt s').
Proof.
  assert (Hleft : In "left" border_sides)
    by (unfold border_sides; simpl; tauto).
  assert (Hright : In "right" border_sides)
    by (unfold border_sides; simpl; tauto).
  assert (L : forall st source b,
      slot "left" (facade st) = Some b ->
      ParagraphBorder_set_left pPrS pBdrS source st = Return tt st).
  { intros st source b H.
    apply (ParagraphBorder_set_left_existing _ _ _ _ b).
    now apply ParagraphBorder_get_cached. }
  assert (R : forall st source b,
      slot "right" (facade st) = Some b ->
      ParagraphBorder_set_right pPrS pBdrS source st = Return tt st).
  { intros st source b H.
    apply (ParagraphBorder_set_right_existing _ _ _ _ b).
    now apply ParagraphBorder_get_cached. }
  split; [apply L|]. split; [apply R|]. split; [|split; [|split]].
  - intros source p H N Hr.
    apply (ParagraphBorder_set_left_existing _ _ _ _
             (mkBorderSide (pb_element (facade s)) "left")).
    unfold ParagraphBorder_left.
    rewrite (ParagraphBorder_get_unset _ _ _ H Hleft N).
    change ("w:" ++ "left")%string with "w:left".
    destruct (read_side "w:left" p); [reflexivity|now destruct Hr].
  - intros source p H N Hr.
    apply (ParagraphBorder_set_right_existing _ _ _ _
             (mkBorderSide (pb_element (facade s)) "right")).
    unfold ParagraphBorder_right.
    rewrite (ParagraphBorder_get_unset _ _ _ H Hright N).
    change ("w:" ++ "right")%string with "w:right".
    destruct (read_side "w:right" p); [reflexivity|now destruct Hr].
  - intros source s' H source'.
    assert (exists b, slot "left" (facade s') = Some b) as (b & Hb);
      [|now apply (L s' source' b)].
    unfold ParagraphBorder_set_left in H.
    apply mbind_Return in H as (o & s1 & G & H).
    destruct o as [o|].
    + injection H as <-. exists o.
      now apply (ParagraphBorder_get_slot "left" s).
    + apply mbind_Return in H as ([] & s2 & A & H).
      apply mbind_Return in H as (o & s3 & G' & H).
      pose proof (keeps_facade_copy_side pPrS pBdrS o source s3) as K.
      rewrite H in K. cbn [final_state] in K. rewrite K.
      destruct o as [o|]; [|discriminate H].
      exists o. now apply (ParagraphBorder_get_slot "left" s2).
  - intros source s' H source'.
    assert (exists b, slot "right" (facade s') = Some b) as (b & Hb);
      [|now apply (R s' source' b)].
    unfold ParagraphBorder_set_right in H.
    apply mbind_Return in H as (o & s1 & G & H).
    destruct o as [o|].
    + injection H as <-. exists o.
      now apply (ParagraphBorder_get_slot "right" s).
    + apply mbind_Return in H as ([] & s2 & A & H).
      apply mbind_Return in H as (o & s3 & G' & H).
      pose proof (keeps_facade_copy_side pPrS pBdrS o source s3) as K.
      rewrite H in K. cbn [final_state] in K. rewrite K.
      destruct o as [o|]; [|discriminate H].
      exists o. now apply (ParagraphBorder_get_slot "right" s2).
Qed.

Lemma ParagraphBorder_left_right_assign_at_most_once_witness :
  ParagraphBorder_set_left ["w:r"] [] (mkBorderSide 1 "top")
    bordered_paragraphs
  = Return tt (with_slot "left" bordered_paragraphs).
Proof.
  refine (proj1 (proj2 (proj2 (ParagraphBorder_left_right_assign_at_most_once
                                 ["w:r"] [] bordered_paragraphs)))
            (mkBorderSide 1 "top") _ eq_refl eq_refl _).
  vm_compute. discriminate.
Defined.
